(** * FastAPI-Mongo: the inventory / clock-in CRUD service of [main.py]

    A shallow embedding of the eleven route handlers of [main.py] together
    with the parts of their environment that decide what they return:
    [datetime.strptime], [bson.ObjectId], the document collections of the
    MongoDB database [InventorySystem] and FastAPI's mapping of raised
    exceptions to HTTP status codes.

    Python dictionaries are finite maps from strings ([gmap string _]),
    a collection is the list of its documents in natural (insertion) order,
    and a handler is a function from the database to a result and a new
    database. *)

From Stdlib Require Import ZArith String Ascii List Lia.
From stdpp Require Import base gmap strings list fin_maps pretty.

Open Scope string_scope.
Open Scope Z_scope.

(** ** Exceptions and results *)

(** The exceptions that can leave a handler.  Only [HTTPException] is raised
    by [main.py] itself; the others come from the libraries it calls. *)
Inductive exn :=
| HTTPException (status_code : Z) (detail : string)
| RequestValidationError   (* fastapi: the body does not validate against the model *)
| ValueError               (* datetime.strptime, datetime(...) *)
| InvalidId                (* bson.errors.InvalidId, raised by ObjectId(str) *)
| KeyError (key : string)  (* d[key] on a dict without that key *)
| TypeError                (* None[key] *)
| OverflowError            (* bson: an int that does not fit 8 bytes *)
| DuplicateKeyError        (* pymongo.errors.DuplicateKeyError *)
| WriteError.              (* pymongo.errors.WriteError: the server refused the update *)

Inductive result (A : Type) :=
| Ok (a : A)
| Raise (e : exn).
Arguments Ok {A} a.
Arguments Raise {A} e.

Definition rbind {A B} (r : result A) (k : A → result B) : result B :=
  match r with
  | Ok a => k a
  | Raise e => Raise e
  end.

Notation "x <~ r ;; k" := (rbind r (λ x, k))
  (at level 100, r at next level, right associativity).

(** What the client sees.  A handler that returns gives 200; FastAPI answers
    an [HTTPException] with its own status code and a request that fails
    model validation with 422; every other exception is not handled and
    becomes 500 (Internal Server Error). *)
Definition status_of {A} (r : result A) : Z :=
  match r with
  | Ok _ => 200
  | Raise (HTTPException s _) => s
  | Raise RequestValidationError => 422
  | Raise _ => 500
  end.

Definition client_error (s : Z) : Prop := 400 ≤ s < 500.
Definition server_error (s : Z) : Prop := 500 ≤ s < 600.

(** ** [datetime] *)

Module datetime.

Record t := mk {
  year : Z; month : Z; day : Z;
  hour : Z; minute : Z; second : Z; microsecond : Z
}.

Global Instance eq_dec : EqDecision t.
Proof. solve_decision. Defined.

(** Naive datetimes compare as their field tuples, lexicographically. *)
Definition to_list (d : t) : list Z :=
  [year d; month d; day d; hour d; minute d; second d; microsecond d].

Fixpoint lex_compare (l1 l2 : list Z) : comparison :=
  match l1, l2 with
  | [], [] => Eq
  | [], _ :: _ => Lt
  | _ :: _, [] => Gt
  | x :: l1', y :: l2' =>
      match x ?= y with
      | Eq => lex_compare l1' l2'
      | c => c
      end
  end.

Definition compare (d1 d2 : t) : comparison :=
  lex_compare (to_list d1) (to_list d2).

Definition is_leap (y : Z) : bool :=
  (y mod 4 =? 0) && (negb (y mod 100 =? 0) || (y mod 400 =? 0)).

Definition days_in_month (y m : Z) : Z :=
  if m =? 2 then (if is_leap y then 29 else 28)
  else if (m =? 4) || (m =? 6) || (m =? 9) || (m =? 11) then 30
  else 31.

(** The checks of the [datetime(...)] constructor. *)
Definition valid (d : t) : bool :=
  (1 <=? year d) && (year d <=? 9999) &&
  (1 <=? month d) && (month d <=? 12) &&
  (1 <=? day d) && (day d <=? days_in_month (year d) (month d)) &&
  (0 <=? hour d) && (hour d <=? 23) &&
  (0 <=? minute d) && (minute d <=? 59) &&
  (0 <=? second d) && (second d <=? 59) &&
  (0 <=? microsecond d) && (microsecond d <=? 999999).

(** *** [strptime]

    CPython turns the format into a regular expression, one group per
    directive, matches it against the start of the string (ignoring
    case), and refuses the string when the match fails or when it does
    not reach the end.  The groups of the directives used by [main.py]:
<<
    %Y  \d\d\d\d                          %H  2[0-3]|[0-1]\d|\d
    %m  1[0-2]|0[1-9]|[1-9]               %M  [0-5]\d|\d
    %d  3[0-1]|[1-2]\d|0[1-9]|[1-9]| [1-9]   %S  6[0-1]|[0-5]\d|\d
>>
    A string stands for a Python [str] through its UTF-8 bytes, and the
    regular expression walks it character by character.  The class [\d]
    takes every decimal digit of Unicode (CPython 3.11 has those of
    Unicode 14.0) and [int] reads them all; the bracketed classes take the
    ASCII digits they list. *)

Inductive directive := dY | dm | dd | dH | dM | dS | lit (c : ascii).

Global Instance directive_eq_dec : EqDecision directive.
Proof. solve_decision. Defined.

(** The payload of a continuation byte of UTF-8. *)
Definition continuation (c : ascii) : option N :=
  let n := N_of_ascii c in
  if ((128 <=? n) && (n <? 192))%N then Some (n - 128)%N else None.

(** The first character of a string, as its code point, and the rest.  A
    byte that starts no well-formed sequence is taken as a character of its
    own (no [str] has such bytes). *)
Definition next_char (s : string) : option (N * string) :=
  match s with
  | "" => None
  | String c0 rest =>
      let n := N_of_ascii c0 in
      let lone := Some (n, rest) in
      if (n <? 192)%N then lone
      else if (n <? 224)%N then
        match rest with
        | String c1 r1 =>
            match continuation c1 with
            | Some a =>
                let cp := ((n - 192) * 64 + a)%N in
                if (128 <=? cp)%N then Some (cp, r1) else lone
            | None => lone
            end
        | _ => lone
        end
      else if (n <? 240)%N then
        match rest with
        | String c1 (String c2 r2) =>
            match continuation c1, continuation c2 with
            | Some a, Some b =>
                let cp := (((n - 224) * 64 + a) * 64 + b)%N in
                if (2048 <=? cp)%N then Some (cp, r2) else lone
            | _, _ => lone
            end
        | _ => lone
        end
      else if (n <? 248)%N then
        match rest with
        | String c1 (String c2 (String c3 r3)) =>
            match continuation c1, continuation c2, continuation c3 with
            | Some a, Some b, Some c =>
                let cp := ((((n - 240) * 64 + a) * 64 + b) * 64 + c)%N in
                if (65536 <=? cp)%N then Some (cp, r3) else lone
            | _, _, _ => lone
            end
        | _ => lone
        end
      else lone
  end.

(** The code points of the digits zero of Unicode 14.0; the nine other
    digits of each script follow their zero. *)
Definition decimal_zeros : list N :=
  [0x30; 0x660; 0x6F0; 0x7C0; 0x966; 0x9E6; 0xA66; 0xAE6; 0xB66; 0xBE6; 0xC66;
   0xCE6; 0xD66; 0xDE6; 0xE50; 0xED0; 0xF20; 0x1040; 0x1090; 0x17E0; 0x1810;
   0x1946; 0x19D0; 0x1A80; 0x1A90; 0x1B50; 0x1BB0; 0x1C40; 0x1C50; 0xA620;
   0xA8D0; 0xA900; 0xA9D0; 0xA9F0; 0xAA50; 0xABF0; 0xFF10; 0x104A0; 0x10D30;
   0x11066; 0x110F0; 0x11136; 0x111D0; 0x112F0; 0x11450; 0x114D0; 0x11650;
   0x116C0; 0x11730; 0x118E0; 0x11950; 0x11C50; 0x11D50; 0x11DA0; 0x16A60;
   0x16AC0; 0x16B50; 0x1D7CE; 0x1D7D8; 0x1D7E2; 0x1D7EC; 0x1D7F6; 0x1E140;
   0x1E2F0; 0x1E950; 0x1FBF0]%N.

(** The value of a character as a decimal digit: what [\d] matches and
    [int] reads. *)
Definition digit (cp : N) : option Z :=
  (λ zero, Z.of_N (cp - zero)) <$>
    List.find (λ zero, (zero <=? cp) && (cp <? zero + 10))%N decimal_zeros.

(** A character class of the regular expressions: [\d], a range of ASCII
    digits such as [[0-2]], and the space. *)
Inductive char_class :=
| any_digit
| ascii_digits (lo hi : Z)
| blank.

(** The digit a character of the class stands for, if it is in the class;
    a space stands for none. *)
Definition in_class (c : char_class) (cp : N) : option (list Z) :=
  match c with
  | any_digit => (λ v, [v]) <$> digit cp
  | ascii_digits lo hi =>
      let v := Z.of_N cp - 48 in
      if (lo <=? v) && (v <=? hi) then Some [v] else None
  | blank => if (cp =? 32)%N then Some [] else None
  end.

(** A sequence of classes against the start of a string: the digits met
    and the text left over. *)
Fixpoint sequence (cs : list char_class) (s : string) : option (list Z * string) :=
  match cs with
  | [] => Some ([], s)
  | c :: cs' =>
      match next_char s with
      | Some (cp, rest) =>
          match in_class c cp, sequence cs' rest with
          | Some ds, Some (ds', rest') => Some ((ds ++ ds')%list, rest')
          | _, _ => None
          end
      | None => None
      end
  end.

(** [int] of the text matched. *)
Definition int_of (digits : list Z) : Z := foldl (λ n d, 10 * n + d) 0 digits.

(** One alternative of a group: no match, or the number matched. *)
Definition alternative (cs : list char_class) (s : string) : list (Z * string) :=
  match sequence cs s with
  | Some (ds, rest) => [(int_of ds, rest)]
  | None => []
  end.

Definition lower (cp : N) : N :=
  if ((65 <=? cp) && (cp <=? 90))%N then (cp + 32)%N else cp.

(** The ways a directive can match at the start of [s], in the order the
    regular expression tries them; a literal (the formats of [main.py]
    have [-], [T] and [:]) matches without regard to case and yields no
    value. *)
Definition alternatives (d : directive) (s : string) : list (option Z * string) :=
  let vals := prod_map Some id in
  let D := any_digit in
  let R := ascii_digits in
  match d with
  | dY => vals <$> alternative [D; D; D; D] s
  | dm => vals <$> (alternative [R 1 1; R 0 2] s ++ alternative [R 0 0; R 1 9] s
                    ++ alternative [R 1 9] s)%list
  | dd => vals <$> (alternative [R 3 3; R 0 1] s ++ alternative [R 1 2; D] s
                    ++ alternative [R 0 0; R 1 9] s ++ alternative [R 1 9] s
                    ++ alternative [blank; R 1 9] s)%list
  | dH => vals <$> (alternative [R 2 2; R 0 3] s ++ alternative [R 0 1; D] s
                    ++ alternative [D] s)%list
  | dM => vals <$> (alternative [R 0 5; D] s ++ alternative [D] s)%list
  | dS => vals <$> (alternative [R 6 6; R 0 1] s ++ alternative [R 0 5; D] s
                    ++ alternative [D] s)%list
  | lit c =>
      match next_char s with
      | Some (cp, rest) =>
          if (lower cp =? lower (N_of_ascii c))%N then [(None, rest)] else []
      | None => []
      end
  end.

(** The first element on which [f] succeeds. *)
Fixpoint first_match {A B} (f : A → option B) (l : list A) : option B :=
  match l with
  | [] => None
  | x :: l' => match f x with Some r => Some r | None => first_match f l' end
  end.

(** Backtracking match of the whole format at the start of the string:
    the first way that works, with the value of each directive and the
    text left over. *)
Fixpoint re_match (fmt : list directive) (s : string)
    : option (list (directive * Z) * string) :=
  match fmt with
  | [] => Some ([], s)
  | d :: fmt' =>
      first_match
        (λ alt : option Z * string,
           match re_match fmt' alt.2 with
           | Some (vs, rest) =>
               Some (match alt.1 with Some v => (d, v) :: vs | None => vs end, rest)
           | None => None
           end)
        (alternatives d s)
  end.

(** The format string itself: [%] and a letter is a directive, anything
    else a literal character. *)
Fixpoint parse_format (fmt : string) : option (list directive) :=
  match fmt with
  | "" => Some []
  | String "%" (String c fmt') =>
      d ← (if bool_decide (c = "Y"%char) then Some dY
           else if bool_decide (c = "m"%char) then Some dm
           else if bool_decide (c = "d"%char) then Some dd
           else if bool_decide (c = "H"%char) then Some dH
           else if bool_decide (c = "M"%char) then Some dM
           else if bool_decide (c = "S"%char) then Some dS
           else None);
      ds ← parse_format fmt';
      Some (d :: ds)
  | String c fmt' => ds ← parse_format fmt'; Some (lit c :: ds)
  end.

Definition directive_eqb (d1 d2 : directive) : bool :=
  match d1, d2 with
  | dY, dY | dm, dm | dd, dd | dH, dH | dM, dM | dS, dS => true
  | _, _ => false
  end.

(** The value found for a directive, or its default when the format does
    not have it. *)
Fixpoint found (d : directive) (dflt : Z) (vs : list (directive * Z)) : Z :=
  match vs with
  | [] => dflt
  | (d', v) :: vs' => if directive_eqb d d' then v else found d dflt vs'
  end.

Definition strptime (date_string format : string) : result t :=
  match parse_format format with
  | None => Raise ValueError
  | Some fmt =>
      match re_match fmt date_string with
      | None => Raise ValueError                 (* does not match format *)
      | Some (vs, rest) =>
          if bool_decide (rest = "") then
            let d := mk (found dY 1900 vs) (found dm 1 vs) (found dd 1 vs)
                        (found dH 0 vs) (found dM 0 vs) (found dS 0 vs) 0 in
            if valid d then Ok d else Raise ValueError
          else Raise ValueError                  (* unconverted data remains *)
      end
  end.

(** *** Printing: [str(datetime)] and the canonical date string *)

Definition digit_char (n : Z) : ascii := ascii_of_N (Z.to_N (48 + n mod 10)).

(** The last [width] decimal digits of [n], then [k]: the ["%0<width>d"]
    of a number of at most [width] digits, as the fields of a date are. *)
Fixpoint zfill (width : nat) (n : Z) (k : string) : string :=
  match width with
  | O => k
  | S w => zfill w (n / 10) (String (digit_char n) k)
  end.

Definition isoformat_date_then (y m d : Z) (k : string) : string :=
  zfill 4 y (String "-" (zfill 2 m (String "-" (zfill 2 d k)))).

(** ["%04d-%02d-%02d"] *)
Definition isoformat_date (y m d : Z) : string := isoformat_date_then y m d "".

Definition str (d : t) : string :=
  isoformat_date_then (year d) (month d) (day d)
    (String " " (zfill 2 (hour d) (String ":" (zfill 2 (minute d)
       (String ":" (zfill 2 (second d)
          (if (microsecond d =? 0)%Z then ""
           else String "." (zfill 6 (microsecond d) "")))))))).

End datetime.

(** ** [bson]: object ids and values *)

Module bson.

(** An [ObjectId] wraps the bytes of the identifier; the driver generates
    twelve of them. *)
Record ObjectId := mkObjectId { binary : string }.

Global Instance ObjectId_eq_dec : EqDecision ObjectId.
Proof. solve_decision. Defined.

Definition hexval (c : ascii) : option N :=
  let n := N_of_ascii c in
  if ((48 <=? n) && (n <=? 57))%N then Some (n - 48)%N
  else if ((97 <=? n) && (n <=? 102))%N then Some (n - 87)%N
  else if ((65 <=? n) && (n <=? 70))%N then Some (n - 55)%N
  else None.

Definition is_space (c : ascii) : bool :=
  let n := N_of_ascii c in
  ((n =? 32) || ((9 <=? n) && (n <=? 13)))%N.

(** [bytes.fromhex]: pairs of hexadecimal digits, white space allowed
    between the pairs. *)
Fixpoint fromhex (s : string) : option string :=
  match s with
  | "" => Some ""
  | String c s' =>
      if is_space c then fromhex s'
      else
        match hexval c, s' with
        | Some top, String c' s'' =>
            match hexval c' with
            | Some bot => String (ascii_of_N (16 * top + bot)) <$> fromhex s''
            | None => None
            end
        | _, _ => None
        end
  end.

Definition hexdigit (n : N) : ascii :=
  ascii_of_N (if (n <? 10)%N then n + 48 else n + 87).

(** [binascii.hexlify]: two lowercase digits per byte. *)
Fixpoint hexlify (b : string) : string :=
  match b with
  | "" => ""
  | String c b' =>
      let n := N_of_ascii c in
      String (hexdigit (n / 16)) (String (hexdigit (n mod 16)) (hexlify b'))
  end.

(** [ObjectId(oid)] for a string: 24 characters that [bytes.fromhex]
    accepts, anything else raises [InvalidId]. *)
Definition ObjectId_of (oid : string) : result ObjectId :=
  if bool_decide (String.length oid = 24%nat) then
    match fromhex oid with
    | Some b => Ok (mkObjectId b)
    | None => Raise InvalidId
    end
  else Raise InvalidId.

Definition str (o : ObjectId) : string := hexlify (binary o).

End bson.

Abbreviation ObjectId := bson.ObjectId.

(** The values a document or a Python dictionary of the program holds. *)
Inductive value :=
| VNone
| VStr (s : string)
| VInt (n : Z)
| VDate (d : datetime.t)
| VOid (o : ObjectId).

Global Instance value_eq_dec : EqDecision value.
Proof. solve_decision. Defined.

Abbreviation doc := (gmap string value).

(** [str(v)] *)
Definition py_str (v : value) : string :=
  match v with
  | VNone => "None"
  | VStr s => s
  | VInt n => pretty n
  | VDate d => datetime.str d
  | VOid o => bson.str o
  end.

(** BSON has 8-byte integers at most; the driver raises [OverflowError] on
    a larger one. *)
Definition encodable (v : value) : bool :=
  match v with
  | VInt n => (- 2 ^ 63 <=? n) && (n <? 2 ^ 63)
  | _ => true
  end.

(** BSON datetimes count milliseconds: what is read back has the
    microseconds of what was written rounded down to a millisecond. *)
Definition to_bson (v : value) : value :=
  match v with
  | VDate d =>
      VDate (datetime.mk (datetime.year d) (datetime.month d) (datetime.day d)
               (datetime.hour d) (datetime.minute d) (datetime.second d)
               (datetime.microsecond d / 1000 * 1000))
  | _ => v
  end.

(** Values compare within their own type only (type bracketing). *)
Definition value_compare (v w : value) : option comparison :=
  match v, w with
  | VNone, VNone => Some Eq
  | VStr a, VStr b => Some (String.compare a b)
  | VInt a, VInt b => Some (a ?= b)
  | VDate a, VDate b => Some (datetime.compare a b)
  | VOid a, VOid b => Some (String.compare (bson.binary a) (bson.binary b))
  | _, _ => None
  end.

(** ** Collections *)

(** A query document maps field names to conditions: [{k: v}] is [CEq],
    [{k: {"$gt": v}}] is [CGt] and [{k: {"$gte": v}}] is [CGte]. *)
Inductive cond :=
| CEq (v : value)
| CGt (v : value)
| CGte (v : value).

Abbreviation query := (gmap string cond).

Definition operand (c : cond) : value :=
  match c with CEq v | CGt v | CGte v => v end.

(** A missing field counts as null. *)
Definition cond_holds (c : cond) (field : option value) : bool :=
  let w := default VNone field in
  match c with
  | CEq v => bool_decide (w = v)
  | CGt v => match value_compare w v with Some Gt => true | _ => false end
  | CGte v => match value_compare w v with Some Gt | Some Eq => true | _ => false end
  end.

Definition matches (q : query) (d : doc) : bool :=
  bool_decide (map_Forall (λ k c, cond_holds c (d !! k)) q).

Definition doc_encodable (d : doc) : bool :=
  bool_decide (map_Forall (λ _ v, encodable v) d).

Definition query_encodable (q : query) : bool :=
  bool_decide (map_Forall (λ _ c, encodable (operand c)) q).

Module Collection.

(** [find(q)]: the matching documents in natural order. *)
Definition find (q : query) (c : list doc) : result (list doc) :=
  if query_encodable q then Ok (List.filter (matches q) c) else Raise OverflowError.

(** [cursor.to_list(length)] *)
Definition to_list (length : option nat) (cursor : result (list doc))
    : result (list doc) :=
  docs <~ cursor ;;
  Ok (match length with Some n => take n docs | None => docs end).

Definition find_one (q : query) (c : list doc) : result (option doc) :=
  docs <~ find q c ;; Ok (head docs).

Definition has_id (o : ObjectId) (d : doc) : bool :=
  bool_decide (d !! "_id" = Some (VOid o)).

(** [insert_one(d)] for a document without ["_id"]: the driver adds the
    identifier it generated, [new_id]; the server refuses an identifier
    that is already in the collection. *)
Definition insert_one (new_id : ObjectId) (d : doc) (c : list doc)
    : result (ObjectId * list doc) :=
  let d := <["_id" := VOid new_id]> d in
  if negb (doc_encodable d) then Raise OverflowError
  else if existsb (has_id new_id) c then Raise DuplicateKeyError
  else Ok (new_id, c ++ [to_bson <$> d])%list.

(** The first document that satisfies [p], replaced by its image. *)
Fixpoint update_first (p : doc → bool) (f : doc → doc) (c : list doc)
    : option (list doc) :=
  match c with
  | [] => None
  | d :: c' =>
      if p d then Some (f d :: c') else cons d <$> update_first p f c'
  end.

(** [update_one(q, {"$set": fields})], giving the [matched_count].  A
    server older than MongoDB 5.0 refuses an empty [$set] operand
    ([rejects_empty_operand]); later servers take it as a no-op. *)
Definition update_one (rejects_empty_operand : bool)
    (q : query) (fields : doc) (c : list doc) : result (Z * list doc) :=
  if negb (query_encodable q && doc_encodable fields) then Raise OverflowError
  else if rejects_empty_operand && bool_decide (fields = ∅) then Raise WriteError
  else
    match update_first (matches q) (λ d, (to_bson <$> fields) ∪ d) c with
    | Some c' => Ok (1, c')
    | None => Ok (0, c)
    end.

Fixpoint remove_first (p : doc → bool) (c : list doc) : option (list doc) :=
  match c with
  | [] => None
  | d :: c' => if p d then Some c' else cons d <$> remove_first p c'
  end.

(** [delete_one(q)], giving the [deleted_count]. *)
Definition delete_one (q : query) (c : list doc) : result (Z * list doc) :=
  if negb (query_encodable q) then Raise OverflowError
  else
    match remove_first (matches q) c with
    | Some c' => Ok (1, c')
    | None => Ok (0, c)
    end.

(** The stage [{"$group": {"_id": "$<field>", "count": {"$sum": 1}}}]:
    one counter per value of the field, in the order the values are first
    met. *)
Fixpoint bump (k : value) (acc : list (value * Z)) : list (value * Z) :=
  match acc with
  | [] => [(k, 1)]
  | (k', n) :: acc' =>
      if decide (k = k') then (k', n + 1) :: acc' else (k', n) :: bump k acc'
  end.

Definition group_key (field : string) (d : doc) : value :=
  default VNone (d !! field).

Definition counters (field : string) (c : list doc) : list (value * Z) :=
  foldl (λ acc d, bump (group_key field d) acc) [] c.

Definition group_doc (kn : value * Z) : doc :=
  {[ "_id" := kn.1; "count" := VInt kn.2 ]}.

Inductive stage := group_count (field : string).

Definition run_stage (s : stage) (c : list doc) : list doc :=
  match s with
  | group_count field => group_doc <$> counters field c
  end.

Definition aggregate (pipeline : list stage) (c : list doc) : result (list doc) :=
  Ok (foldl (λ c s, run_stage s c) c pipeline).

End Collection.

(** ** The pydantic models *)

Module Item.
Record t := mk {
  name : string; email : string; item_name : string;
  quantity : Z; expiry_date : string
}.

Definition dict (i : t) : doc :=
  {[ "name" := VStr (name i); "email" := VStr (email i);
     "item_name" := VStr (item_name i); "quantity" := VInt (quantity i);
     "expiry_date" := VStr (expiry_date i) ]}.
End Item.

Definition opt_str (o : option string) : value :=
  match o with Some s => VStr s | None => VNone end.

Definition opt_int (o : option Z) : value :=
  match o with Some n => VInt n | None => VNone end.

Module UpdateItem.
Record t := mk {
  name : option string; email : option string; item_name : option string;
  quantity : option Z; expiry_date : option string
}.

Definition dict (u : t) : doc :=
  {[ "name" := opt_str (name u); "email" := opt_str (email u);
     "item_name" := opt_str (item_name u); "quantity" := opt_int (quantity u);
     "expiry_date" := opt_str (expiry_date u) ]}.
End UpdateItem.

Module ClockInRecord.
Record t := mk { email : string; location : string }.

Definition dict (r : t) : doc :=
  {[ "email" := VStr (email r); "location" := VStr (location r) ]}.
End ClockInRecord.

Module UpdateClockInRecord.
Record t := mk { email : option string; location : option string }.

Definition dict (u : t) : doc :=
  {[ "email" := opt_str (email u); "location" := opt_str (location u) ]}.
End UpdateClockInRecord.

(** ** The database and the handler monad *)

Record database := mkdb {
  items : list doc;
  clock_in_records : list doc
}.

Inductive collection := Items | ClockIn.

Definition docs (c : collection) (db : database) : list doc :=
  match c with Items => items db | ClockIn => clock_in_records db end.

Definition with_docs (c : collection) (l : list doc) (db : database) : database :=
  match c with
  | Items => mkdb l (clock_in_records db)
  | ClockIn => mkdb (items db) l
  end.

(** A handler runs against the database and either returns or raises; the
    database it leaves is the one at the point of return or raise. *)
Definition handler (A : Type) : Type := database → result A * database.

Definition ret {A} (a : A) : handler A := λ db, (Ok a, db).
Definition raise {A} (e : exn) : handler A := λ db, (Raise e, db).
Definition lift {A} (r : result A) : handler A := λ db, (r, db).

Definition bind {A B} (m : handler A) (k : A → handler B) : handler B :=
  λ db,
    match m db with
    | (Ok a, db') => k a db'
    | (Raise e, db') => (Raise e, db')
    end.

Notation "x <- m ;; k" := (bind m (λ x, k))
  (at level 100, m at next level, right associativity).

Module db.

Definition find (c : collection) (q : query) (length : option nat)
    : handler (list doc) :=
  λ db, (Collection.to_list length (Collection.find q (docs c db)), db).

Definition find_one (c : collection) (q : query) : handler (option doc) :=
  λ db, (Collection.find_one q (docs c db), db).

Definition insert_one (c : collection) (new_id : ObjectId) (d : doc)
    : handler ObjectId :=
  λ db,
    match Collection.insert_one new_id d (docs c db) with
    | Ok (inserted_id, l) => (Ok inserted_id, with_docs c l db)
    | Raise e => (Raise e, db)
    end.

Definition update_one (rejects_empty_operand : bool)
    (c : collection) (q : query) (fields : doc) : handler Z :=
  λ db,
    match Collection.update_one rejects_empty_operand q fields (docs c db) with
    | Ok (matched_count, l) => (Ok matched_count, with_docs c l db)
    | Raise e => (Raise e, db)
    end.

Definition delete_one (c : collection) (q : query) : handler Z :=
  λ db,
    match Collection.delete_one q (docs c db) with
    | Ok (deleted_count, l) => (Ok deleted_count, with_docs c l db)
    | Raise e => (Raise e, db)
    end.

Definition aggregate (c : collection) (pipeline : list Collection.stage)
    : handler (list doc) :=
  λ db, (Collection.to_list None (Collection.aggregate pipeline (docs c db)), db).

End db.

(** ** Python helpers *)

(** [d[k]], also on [None] (what [find_one] gives when nothing matches). *)
Definition getitem (d : option doc) (k : string) : result value :=
  match d with
  | None => Raise TypeError
  | Some d => match d !! k with Some v => Ok v | None => Raise (KeyError k) end
  end.

(** Truth values: [None], the empty string, zero and the empty dictionary
    are false. *)
Definition str_bool (s : option string) : bool :=
  match s with Some s => negb (bool_decide (s = "")) | None => false end.

Definition int_bool (n : option Z) : bool :=
  match n with Some n => negb (n =? 0) | None => false end.

Definition doc_bool (d : option doc) : bool :=
  match d with Some d => negb (bool_decide (d = ∅)) | None => false end.

(** [datetime.strptime(v, format)] on a value of a dictionary. *)
Definition strptime_value (v : value) (format : string) : result datetime.t :=
  match v with
  | VStr s => datetime.strptime s format
  | _ => Raise TypeError
  end.

(** [{k: v for k, v in d.items() if v is not None}] *)
Definition drop_none (d : doc) : doc := filter (λ kv, kv.2 ≠ VNone) d.

(** ** main.py *)

Definition item_serializer (item : option doc) : result doc :=
  _id <~ getitem item "_id" ;;
  name <~ getitem item "name" ;;
  email <~ getitem item "email" ;;
  item_name <~ getitem item "item_name" ;;
  quantity <~ getitem item "quantity" ;;
  expiry_date <~ getitem item "expiry_date" ;;
  insert_date <~ getitem item "insert_date" ;;
  Ok ({[ "id" := VStr (py_str _id); "name" := name; "email" := email;
         "item_name" := item_name; "quantity" := quantity;
         "expiry_date" := expiry_date; "insert_date" := insert_date ]} : doc).

(** The dictionary literal that the four clock-in handlers that return a
    record each spell out. *)
Definition clock_in_dict (record : option doc) : result doc :=
  _id <~ getitem record "_id" ;;
  email <~ getitem record "email" ;;
  location <~ getitem record "location" ;;
  insert_datetime <~ getitem record "insert_datetime" ;;
  Ok ({[ "id" := VStr (py_str _id); "email" := email; "location" := location;
         "insert_datetime" := insert_datetime ]} : doc).

(** [[f(x) for x in xs]], stopping at the first exception. *)
Fixpoint comprehension {A B} (f : A → result B) (xs : list A) : result (list B) :=
  match xs with
  | [] => Ok []
  | x :: xs' => y <~ f x ;; ys <~ comprehension f xs' ;; Ok (y :: ys)
  end.

Section Handlers.

(** Whether the MongoDB server refuses an empty [$set] (see
    [Collection.update_one]). *)
Variable rejects_empty_operand : bool.

(** *** Items *)

(** [utcnow] is what [datetime.utcnow()] returns during the call and
    [new_id] the identifier the driver generates for the insertion. *)
Definition create_item (utcnow : datetime.t) (new_id : ObjectId) (item : Item.t)
    : handler doc :=
  let item_data := Item.dict item in
  let item_data := <["insert_date" := VDate utcnow]> item_data in
  expiry_date <- lift (datetime.strptime (Item.expiry_date item) "%Y-%m-%d") ;;
  let item_data := <["expiry_date" := VDate expiry_date]> item_data in
  inserted_id <- db.insert_one Items new_id item_data ;;
  new_item <- db.find_one Items {[ "_id" := CEq (VOid inserted_id) ]} ;;
  lift (item_serializer new_item).

Definition filter_items_query
    (email expiry_date_after insert_date_after : option string)
    (quantity_gte : option Z) : result query :=
  let query : query := ∅ in
  let query :=
    if str_bool email then <["email" := CEq (opt_str email)]> query else query in
  query <~ (if str_bool expiry_date_after then
              d <~ strptime_value (opt_str expiry_date_after) "%Y-%m-%d" ;;
              Ok (<["expiry_date" := CGt (VDate d)]> query)
            else Ok query) ;;
  query <~ (if str_bool insert_date_after then
              d <~ strptime_value (opt_str insert_date_after) "%Y-%m-%d" ;;
              Ok (<["insert_date" := CGt (VDate d)]> query)
            else Ok query) ;;
  Ok (if int_bool quantity_gte
      then <["quantity" := CGte (opt_int quantity_gte)]> query else query).

Definition filter_items
    (email expiry_date_after insert_date_after : option string)
    (quantity_gte : option Z) : handler (list doc) :=
  query <- lift (filter_items_query email expiry_date_after insert_date_after
                   quantity_gte) ;;
  items <- db.find Items query (Some 100%nat) ;;
  lift (comprehension (λ item, item_serializer (Some item)) items).

Definition aggregate_items : handler (list doc) :=
  let pipeline := [Collection.group_count "email"] in
  result <- db.aggregate Items pipeline ;;
  ret result.

Definition get_item (id : string) : handler doc :=
  oid <- lift (bson.ObjectId_of id) ;;
  item <- db.find_one Items {[ "_id" := CEq (VOid oid) ]} ;;
  if doc_bool item then lift (item_serializer item)
  else raise (HTTPException 204 "Item not found").

(** The first three lines of the body of [update_item]: the fields to
    set. *)
Definition update_item_data (update_data : UpdateItem.t) : result doc :=
  let update_data := drop_none (UpdateItem.dict update_data) in
  match update_data !! "expiry_date" with
  | Some v =>
      d <~ strptime_value v "%Y-%m-%d" ;;
      Ok (<["expiry_date" := VDate d]> update_data)
  | None => Ok update_data
  end.

Definition update_item (id : string) (update_data : UpdateItem.t) : handler doc :=
  update_data <- lift (update_item_data update_data) ;;
  oid <- lift (bson.ObjectId_of id) ;;
  matched_count <-
    db.update_one rejects_empty_operand Items {[ "_id" := CEq (VOid oid) ]}
      update_data ;;
  if negb (matched_count =? 0) then
    oid <- lift (bson.ObjectId_of id) ;;
    updated_item <- db.find_one Items {[ "_id" := CEq (VOid oid) ]} ;;
    lift (item_serializer updated_item)
  else raise (HTTPException 204 "Item not found").

Definition delete_item (id : string) : handler doc :=
  oid <- lift (bson.ObjectId_of id) ;;
  deleted_count <- db.delete_one Items {[ "_id" := CEq (VOid oid) ]} ;;
  if negb (deleted_count =? 0) then ret {[ "message" := VStr "Item deleted" ]}
  else raise (HTTPException 204 "Item not found").

(** *** Clock-in records *)

Definition create_clock_in (utcnow : datetime.t) (new_id : ObjectId)
    (clock_in : ClockInRecord.t) : handler doc :=
  let clock_in_data := ClockInRecord.dict clock_in in
  let clock_in_data := <["insert_datetime" := VDate utcnow]> clock_in_data in
  inserted_id <- db.insert_one ClockIn new_id clock_in_data ;;
  new_record <- db.find_one ClockIn {[ "_id" := CEq (VOid inserted_id) ]} ;;
  lift (clock_in_dict new_record).

Definition filter_clock_in_query
    (email location insert_datetime_after : option string) : result query :=
  let query : query := ∅ in
  let query :=
    if str_bool email then <["email" := CEq (opt_str email)]> query else query in
  let query :=
    if str_bool location then <["location" := CEq (opt_str location)]> query
    else query in
  if str_bool insert_datetime_after then
    d <~ strptime_value (opt_str insert_datetime_after) "%Y-%m-%dT%H:%M:%S" ;;
    Ok (<["insert_datetime" := CGt (VDate d)]> query)
  else Ok query.

Definition filter_clock_in (email location insert_datetime_after : option string)
    : handler (list doc) :=
  query <- lift (filter_clock_in_query email location insert_datetime_after) ;;
  records <- db.find ClockIn query (Some 100%nat) ;;
  lift (comprehension (λ record, clock_in_dict (Some record)) records).

Definition get_clock_in (id : string) : handler doc :=
  oid <- lift (bson.ObjectId_of id) ;;
  clock_in <- db.find_one ClockIn {[ "_id" := CEq (VOid oid) ]} ;;
  if doc_bool clock_in then lift (clock_in_dict clock_in)
  else raise (HTTPException 204 "Clock-in record not found").

Definition update_clock_in_data (update_data : UpdateClockInRecord.t) : doc :=
  drop_none (UpdateClockInRecord.dict update_data).

Definition update_clock_in (id : string) (update_data : UpdateClockInRecord.t)
    : handler doc :=
  let update_data := update_clock_in_data update_data in
  oid <- lift (bson.ObjectId_of id) ;;
  matched_count <-
    db.update_one rejects_empty_operand ClockIn {[ "_id" := CEq (VOid oid) ]}
      update_data ;;
  if negb (matched_count =? 0) then
    oid <- lift (bson.ObjectId_of id) ;;
    updated_record <- db.find_one ClockIn {[ "_id" := CEq (VOid oid) ]} ;;
    lift (clock_in_dict updated_record)
  else raise (HTTPException 204 "Clock-in record not found").

Definition delete_clock_in (id : string) : handler doc :=
  oid <- lift (bson.ObjectId_of id) ;;
  deleted_count <- db.delete_one ClockIn {[ "_id" := CEq (VOid oid) ]} ;;
  if negb (deleted_count =? 0)
  then ret {[ "message" := VStr "Clock-in record deleted" ]}
  else raise (HTTPException 204 "Clock-in record not found").

End Handlers.

(** ** Request bodies

    FastAPI validates the JSON body of [POST /items] against [Item] before
    it calls [create_item]; a body that does not validate is answered with
    422 and the handler does not run.  What a [str] or an [int] field
    accepts, and what it makes of it, depends on the pydantic version (the
    first major version turns a number into a string, the second does
    not), so the two field validators are left open. *)

Inductive json :=
| JNull
| JBool (b : bool)
| JInt (n : Z)
| JStr (s : string)
| JOther.   (* numbers with a fraction, arrays, objects *)

Section Validation.

Variable str_validator : json → option string.
Variable int_validator : json → option Z.

Definition field {A} (validator : json → option A) (body : gmap string json)
    (k : string) : result A :=
  match body !! k with
  | Some j =>
      match validator j with
      | Some a => Ok a
      | None => Raise RequestValidationError
      end
  | None => Raise RequestValidationError
  end.

Definition Item_validate (body : gmap string json) : result Item.t :=
  name <~ field str_validator body "name" ;;
  email <~ field str_validator body "email" ;;
  item_name <~ field str_validator body "item_name" ;;
  quantity <~ field int_validator body "quantity" ;;
  expiry_date <~ field str_validator body "expiry_date" ;;
  Ok (Item.mk name email item_name quantity expiry_date).

(** [POST /items] *)
Definition post_items (utcnow : datetime.t) (new_id : ObjectId)
    (body : gmap string json) : handler doc :=
  item <- lift (Item_validate body) ;;
  create_item utcnow new_id item.

End Validation.

(** The validators of a pydantic that does not coerce. *)
Definition strict_str (j : json) : option string :=
  match j with JStr s => Some s | _ => None end.

Definition strict_int (j : json) : option Z :=
  match j with JInt n => Some n | _ => None end.



(** ** Predicates and sample data used by the statements *)

(** A well-formed identifier string: [ObjectId] accepts it and it stands
    for twelve bytes, as every identifier the driver generates. *)
Definition well_formed (id : string) (o : ObjectId) : Prop :=
  bson.ObjectId_of id = Ok o ∧ String.length (bson.binary o) = 12%nat.

(** No document of the collection has the identifier. *)
Definition absent (o : ObjectId) (c : list doc) : Prop :=
  Forall (λ d, d !! "_id" ≠ Some (VOid o)) c.

(** The identifiers of a collection are unique (the server's unique index
    on ["_id"]). *)
Definition unique_ids (c : list doc) : Prop :=
  NoDup ((λ d : doc, d !! "_id") <$> c).

Definition empty_db : database := mkdb [] [].

Definition item_not_found : exn := HTTPException 204 "Item not found".
Definition clock_in_not_found : exn := HTTPException 204 "Clock-in record not found".

Definition now : datetime.t := datetime.mk 2024 10 3 9 5 59 123456.
Definition oid_a : ObjectId := bson.mkObjectId "abcdefghijkl".
Definition oid_b : ObjectId := bson.mkObjectId "abcdefghijkm".
Definition oid_c : ObjectId := bson.mkObjectId "abcdefghijkn".
Definition id_a : string := "6162636465666768696a6b6c".
Definition id_b : string := "6162636465666768696a6b6d".
Definition pen : Item.t := Item.mk "Ann" "a@x.com" "pen" 3 "2025-01-01".

(** The database after one [POST /items]. *)
Definition sample_db : database := (create_item now oid_a pen empty_db).2.

Definition matches_format (s format : string) : Prop :=
  ∃ d, datetime.strptime s format = Ok d.

(** A required field of the body that is missing or that its validator
    refuses. *)
Definition invalid_field (str_validator : json → option string)
    (int_validator : json → option Z) (body : gmap string json) (k : string) : Prop :=
  (k ∈ ["name"; "email"; "item_name"; "expiry_date"]
   ∧ body !! k ≫= str_validator = None)
  ∨ (k = "quantity" ∧ body !! k ≫= int_validator = None).

Definition bad_date_item : Item.t := Item.mk "Ann" "a@x.com" "pen" 3 "01/02/2025".

(** The document that [create_item] hands to [insert_one], as the
    collection keeps it. *)
Definition stored_item (utcnow : datetime.t) (new_id : ObjectId) (item : Item.t)
    (expiry_date : datetime.t) : doc :=
  to_bson <$> <["_id" := VOid new_id]> (<["expiry_date" := VDate expiry_date]>
                (<["insert_date" := VDate utcnow]> (Item.dict item))).

(** The fields a partial update provides: the keys of the request body
    whose value is not null. *)
Definition provided (body : doc) (k : string) : Prop :=
  ∃ v, body !! k = Some v ∧ v ≠ VNone.

(** The two collections have the same documents in the same order, and a
    document differs from its counterpart in fields that satisfy [P]
    only. *)
Definition only_changes (P : string → Prop) (c c' : list doc) : Prop :=
  Forall2 (λ d d' : doc, ∀ k, ¬ P k → d' !! k = d !! k) c c'.

(** Field [k] is the same in each document and its counterpart. *)
Definition keeps (k : string) (c c' : list doc) : Prop :=
  Forall2 (λ d d' : doc, d' !! k = d !! k) c c'.

(** How many documents of the collection have the e-mail address [e]. *)
Definition count_email (e : value) (c : list doc) : Z :=
  Z.of_nat (length (List.filter (λ d : doc, bool_decide (d !! "email" = Some e)) c)).

(** The document has an ["email"], as every document that [create_item]
    inserts. *)
Definition has_email (d : doc) : Prop := is_Some (d !! "email").

(** How often the key [k] occurs among the group keys of [c]. *)
Definition occurrences (field : string) (k : value) (c : list doc) : Z :=
  Z.of_nat (length (List.filter
    (λ d, bool_decide (Collection.group_key field d = k)) c)).

(** The counter of key [k] in a list of counters, zero when it has none. *)
Fixpoint counter_of (k : value) (acc : list (value * Z)) : Z :=
  match acc with
  | [] => 0
  | (k', n) :: acc' => if decide (k = k') then n else counter_of k acc'
  end.

(** Three items, two of one person and one of another. *)
Definition three_items : database :=
  let db := (create_item now oid_a pen empty_db).2 in
  let db := (create_item now oid_b (Item.mk "Ann" "a@x.com" "ink" 5 "2025-06-30") db).2 in
  (create_item now oid_c (Item.mk "Bob" "b@x.com" "cup" 1 "2026-01-01") db).2.

(** The database after one [POST /items] with a quantity of minus one. *)
Definition minus_one_db : database :=
  (create_item now oid_a (Item.mk "Ann" "a@x.com" "pen" (-1) "2025-01-01") empty_db).2.

(** The document has every field of [keys]. *)
Definition complete (keys : list string) (d : doc) : Prop :=
  Forall (λ k, is_Some (d !! k)) keys.

Definition item_keys : list string :=
  ["_id"; "name"; "email"; "item_name"; "quantity"; "expiry_date"; "insert_date"].

Definition clock_in_keys : list string :=
  ["_id"; "email"; "location"; "insert_datetime"].

(** Some document of the collection has the identifier. *)
Definition present (o : ObjectId) (c : list doc) : Prop :=
  ∃ d, d ∈ c ∧ d !! "_id" = Some (VOid o).

(** The collection without the documents that have the identifier. *)
Definition without (o : ObjectId) (c : list doc) : list doc :=
  List.filter (λ d, negb (Collection.has_id o d)) c.

Definition item_deleted : doc := {[ "message" := VStr "Item deleted" ]}.
Definition clock_in_deleted : doc := {[ "message" := VStr "Clock-in record deleted" ]}.

(** The request body that provides nothing. *)
Definition no_item_fields : UpdateItem.t := UpdateItem.mk None None None None None.
Definition no_clock_in_fields : UpdateClockInRecord.t := UpdateClockInRecord.mk None None.

(** What the statements assume of the items collection: unique
    identifiers and documents with all the fields of an item. *)
Definition item_store (c : list doc) : Prop :=
  unique_ids c ∧ Forall (complete item_keys) c.

(** The document that [create_clock_in] hands to [insert_one], as the
    collection keeps it. *)
Definition stored_clock_in (utcnow : datetime.t) (new_id : ObjectId)
    (clock_in : ClockInRecord.t) : doc :=
  to_bson <$> <["_id" := VOid new_id]>
                (<["insert_datetime" := VDate utcnow]> (ClockInRecord.dict clock_in)).

Definition ann_at_office : ClockInRecord.t := ClockInRecord.mk "a@x.com" "office".

(** The database after one [POST /clock-in]. *)
Definition clocked_db : database := (create_clock_in now oid_a ann_at_office empty_db).2.

(** The document after [{"$set": fields}]. *)
Definition set_fields (fields d : doc) : doc := (to_bson <$> fields) ∪ d.

(** The fields of a serialized item other than its ["id"]. *)
Definition item_fields : list string :=
  ["name"; "email"; "item_name"; "quantity"; "expiry_date"; "insert_date"].

(** The document of the sample item. *)
Definition stored_pen : doc := stored_item now oid_a pen (datetime.mk 2025 1 1 0 0 0 0).

(** The document of the sample clock-in record. *)
Definition stored_ann : doc := stored_clock_in now oid_a ann_at_office.

(** The fields of a serialized clock-in record other than its ["id"]. *)
Definition clock_in_fields : list string := ["email"; "location"; "insert_datetime"].

(** The steps of the two query builders. *)
Definition eq_step (key : string) (p : option string) (q : query) : query :=
  if str_bool p then <[key := CEq (opt_str p)]> q else q.

Definition date_step (key format : string) (p : option string) (q : query)
    : result query :=
  if str_bool p then
    d <~ strptime_value (opt_str p) format ;; Ok (<[key := CGt (VDate d)]> q)
  else Ok q.

Definition gte_step (key : string) (p : option Z) (q : query) : query :=
  if int_bool p then <[key := CGte (opt_int p)]> q else q.

(** The record has a date in field [k] that is strictly later than [dt]. *)
Definition later_than (k : string) (dt : datetime.t) (r : doc) : Prop :=
  ∃ x, r !! k = Some (VDate x) ∧ datetime.compare x dt = Gt.

(** The identifiers of the collection are object ids of twelve bytes, as
    the driver generates them. *)
Definition driver_ids (c : list doc) : Prop :=
  Forall (λ d : doc, ∃ o, d !! "_id" = Some (VOid o)
                          ∧ String.length (bson.binary o) = 12%nat) c.

(** The sum of the counters of a grouping. *)
Definition total (groups : list (value * Z)) : Z := foldr Z.add 0 groups.*2.

(** What the statements assume of the clock-in collection. *)
Definition clock_in_store (c : list doc) : Prop :=
  unique_ids c ∧ Forall (complete clock_in_keys) c.

(** A valid item whose quantity is one more than the largest 8-byte
    integer. *)
Definition huge_item : Item.t := Item.mk "Ann" "a@x.com" "pen" (2 ^ 63) "2025-01-01".

(** The count that a document of the aggregate carries. *)
Definition count_of (g : doc) : Z :=
  match g !! "count" with
  | Some (VInt n) => n
  | _ => 0
  end.

(** The sum of the counts of the documents of an aggregate. *)
Definition counted (result : list doc) : Z :=
  foldr (λ g acc, count_of g + acc) 0 result.

(** * Properties *)

(** ** Examples *)

Example strptime_2025_01_01 :
  datetime.strptime "2025-01-01" "%Y-%m-%d" = Ok (datetime.mk 2025 1 1 0 0 0 0).
Proof. reflexivity. Qed.

Example strptime_unpadded :
  datetime.strptime "2025-1-5" "%Y-%m-%d" = Ok (datetime.mk 2025 1 5 0 0 0 0).
Proof. reflexivity. Qed.

Example strptime_bad_day : datetime.strptime "2025-02-30" "%Y-%m-%d" = Raise ValueError.
Proof. reflexivity. Qed.

Example strptime_trailing : datetime.strptime "2025-01-011" "%Y-%m-%d" = Raise ValueError.
Proof. reflexivity. Qed.

Example strptime_slashes : datetime.strptime "01/02/2025" "%Y-%m-%d" = Raise ValueError.
Proof. reflexivity. Qed.

Example strptime_clock :
  datetime.strptime "2024-10-03T09:05:59" "%Y-%m-%dT%H:%M:%S"
  = Ok (datetime.mk 2024 10 3 9 5 59 0).
Proof. reflexivity. Qed.

Example strptime_fullwidth_year :
  datetime.strptime "２０２５-01-01" "%Y-%m-%d" = Ok (datetime.mk 2025 1 1 0 0 0 0).
Proof. reflexivity. Qed.

Example strptime_month_wants_ascii :
  datetime.strptime "2025-٠1-01" "%Y-%m-%d" = Raise ValueError.
Proof. reflexivity. Qed.

Example strptime_arabic_indic_hour :
  datetime.strptime "2024-10-03T٩:05:58" "%Y-%m-%dT%H:%M:%S"
  = Ok (datetime.mk 2024 10 3 9 5 58 0).
Proof. reflexivity. Qed.

Example isoformat_date_2025_01_01 : datetime.isoformat_date 2025 1 1 = "2025-01-01".
Proof. reflexivity. Qed.

Example str_datetime :
  datetime.str (datetime.mk 2024 10 3 9 5 59 1000) = "2024-10-03 09:05:59.001000".
Proof. reflexivity. Qed.


(** ** Identifiers *)

Lemma below_16 (P : N → bool) :
  forallb P (N.of_nat <$> seq 0 16) = true → ∀ n, (n < 16)%N → P n = true.
Proof.
  intros Hall n Hn. rewrite forallb_forall in Hall. apply Hall.
  apply list_elem_of_In, list_elem_of_fmap. exists (N.to_nat n). split; [lia|].
  apply elem_of_seq. lia.
Qed.

Lemma hexval_hexdigit (n : N) :
  (n < 16)%N → bson.hexval (bson.hexdigit n) = Some n.
Proof.
  intros Hn.
  pose proof (below_16
    (λ k, match bson.hexval (bson.hexdigit k) with
          | Some m => (m =? k)%N
          | None => false
          end) ltac:(vm_compute; reflexivity) n Hn) as H.
  cbn beta in H. destruct (bson.hexval (bson.hexdigit n)); [|done].
  apply N.eqb_eq in H. by subst.
Qed.

Lemma is_space_hexdigit (n : N) : (n < 16)%N → bson.is_space (bson.hexdigit n) = false.
Proof.
  intros Hn. apply negb_true_iff.
  by apply (below_16 (λ k, negb (bson.is_space (bson.hexdigit k)))).
Qed.

(** [bytes.fromhex] undoes [hexlify]. *)
Lemma fromhex_hexlify (b : string) : bson.fromhex (bson.hexlify b) = Some b.
Proof.
  induction b as [|c b IH]; [reflexivity|].
  cbn [bson.hexlify bson.fromhex].
  assert (Hc : (N_of_ascii c < 256)%N) by apply N_ascii_bounded.
  assert (Hhi : (N_of_ascii c / 16 < 16)%N) by (apply N.Div0.div_lt_upper_bound; lia).
  assert (Hlo : (N_of_ascii c mod 16 < 16)%N) by (apply N.mod_lt; lia).
  rewrite is_space_hexdigit, !hexval_hexdigit, IH by assumption.
  cbn [fmap option_fmap option_map]. f_equal. f_equal.
  rewrite <- (ascii_N_embedding c) at 3. f_equal.
  pose proof (N.div_mod (N_of_ascii c) 16). lia.
Qed.

Lemma length_hexlify (b : string) :
  String.length (bson.hexlify b) = (2 * String.length b)%nat.
Proof. induction b as [|c b IH]; cbn [bson.hexlify String.length]; lia. Qed.

(** The string of a driver-generated identifier is a well-formed
    identifier string for it. *)
Lemma well_formed_str (o : ObjectId) :
  String.length (bson.binary o) = 12%nat → well_formed (bson.str o) o.
Proof.
  intros Hlen. split; [|assumption].
  unfold bson.ObjectId_of, bson.str.
  rewrite length_hexlify, Hlen, fromhex_hexlify. cbn. by destruct o.
Qed.

(** ** Queries by identifier *)

Lemma matches_id (o : ObjectId) (d : doc) :
  matches {[ "_id" := CEq (VOid o) ]} d = Collection.has_id o d.
Proof.
  unfold matches, Collection.has_id. apply bool_decide_ext.
  rewrite map_Forall_singleton. cbn.
  rewrite bool_decide_spec.
  destruct (d !! "_id") as [v|]; cbn; split; congruence.
Qed.

Lemma id_query_encodable (o : ObjectId) :
  query_encodable {[ "_id" := CEq (VOid o) ]} = true.
Proof.
  unfold query_encodable. apply bool_decide_eq_true.
  by rewrite map_Forall_singleton.
Qed.

Lemma filter_id (o : ObjectId) (c : list doc) :
  List.filter (matches {[ "_id" := CEq (VOid o) ]}) c
  = List.filter (Collection.has_id o) c.
Proof. apply List.filter_ext. intros d. apply matches_id. Qed.

Lemma has_id_false (o : ObjectId) (d : doc) :
  d !! "_id" ≠ Some (VOid o) → Collection.has_id o d = false.
Proof. intros H. by apply bool_decide_eq_false. Qed.

Lemma absent_filter (o : ObjectId) (c : list doc) :
  absent o c → List.filter (Collection.has_id o) c = [].
Proof.
  induction 1 as [|d c Hd _ IH]; [reflexivity|].
  cbn. by rewrite has_id_false.
Qed.

Lemma absent_update_first (o : ObjectId) (f : doc → doc) (c : list doc) :
  absent o c → Collection.update_first (matches {[ "_id" := CEq (VOid o) ]}) f c = None.
Proof.
  induction 1 as [|d c Hd _ IH]; [reflexivity|].
  cbn. by rewrite matches_id, has_id_false, IH.
Qed.

Lemma absent_remove_first (o : ObjectId) (c : list doc) :
  absent o c → Collection.remove_first (matches {[ "_id" := CEq (VOid o) ]}) c = None.
Proof.
  induction 1 as [|d c Hd _ IH]; [reflexivity|].
  cbn. by rewrite matches_id, has_id_false, IH.
Qed.

Lemma with_docs_same (c : collection) (db : database) : with_docs c (docs c db) db = db.
Proof. by destruct c, db. Qed.

(** What the three by-id operations do once the identifier is parsed. *)
Lemma find_one_id (c : collection) (o : ObjectId) (db : database) :
  db.find_one c {[ "_id" := CEq (VOid o) ]} db
  = (Ok (head (List.filter (Collection.has_id o) (docs c db))), db).
Proof.
  unfold db.find_one, Collection.find_one, Collection.find.
  by rewrite id_query_encodable, filter_id.
Qed.

Lemma delete_one_absent (c : collection) (o : ObjectId) (db : database) :
  absent o (docs c db) →
  db.delete_one c {[ "_id" := CEq (VOid o) ]} db = (Ok 0, db).
Proof.
  intros Habs. unfold db.delete_one, Collection.delete_one.
  rewrite id_query_encodable, absent_remove_first by assumption.
  cbn. by rewrite with_docs_same.
Qed.

Lemma update_one_absent rej (c : collection) (o : ObjectId) (fields : doc)
    (db : database) :
  absent o (docs c db) → doc_encodable fields → (rej = true → fields ≠ ∅) →
  db.update_one rej c {[ "_id" := CEq (VOid o) ]} fields db = (Ok 0, db).
Proof.
  intros Habs Henc Hne. unfold db.update_one, Collection.update_one.
  rewrite id_query_encodable, absent_update_first by assumption.
  destruct (doc_encodable fields); [|done]. cbn.
  destruct rej; cbn; [|by rewrite with_docs_same].
  rewrite bool_decide_eq_false_2 by auto. by rewrite with_docs_same.
Qed.

(** ** C1: identifiers that are malformed or match no record *)

Lemma get_item_absent (id : string) (o : ObjectId) (db : database) :
  bson.ObjectId_of id = Ok o → absent o (items db) →
  get_item id db = (Raise item_not_found, db).
Proof.
  intros Hid Habs. unfold get_item, bind, lift. rewrite Hid, find_one_id.
  cbn [docs]. by rewrite absent_filter.
Qed.

Lemma get_clock_in_absent (id : string) (o : ObjectId) (db : database) :
  bson.ObjectId_of id = Ok o → absent o (clock_in_records db) →
  get_clock_in id db = (Raise clock_in_not_found, db).
Proof.
  intros Hid Habs. unfold get_clock_in, bind, lift. rewrite Hid, find_one_id.
  cbn [docs]. by rewrite absent_filter.
Qed.

Lemma delete_item_absent (id : string) (o : ObjectId) (db : database) :
  bson.ObjectId_of id = Ok o → absent o (items db) →
  delete_item id db = (Raise item_not_found, db).
Proof.
  intros Hid Habs. unfold delete_item, bind, lift.
  by rewrite Hid, delete_one_absent.
Qed.

Lemma delete_clock_in_absent (id : string) (o : ObjectId) (db : database) :
  bson.ObjectId_of id = Ok o → absent o (clock_in_records db) →
  delete_clock_in id db = (Raise clock_in_not_found, db).
Proof.
  intros Hid Habs. unfold delete_clock_in, bind, lift.
  by rewrite Hid, delete_one_absent.
Qed.

Lemma update_item_absent rej (id : string) (o : ObjectId) (u : UpdateItem.t)
    (fields : doc) (db : database) :
  bson.ObjectId_of id = Ok o → absent o (items db) →
  update_item_data u = Ok fields → doc_encodable fields →
  (rej = true → fields ≠ ∅) →
  update_item rej id u db = (Raise item_not_found, db).
Proof.
  intros Hid Habs Hu Henc Hne. unfold update_item, bind, lift.
  by rewrite Hu, Hid, update_one_absent.
Qed.

Lemma update_clock_in_absent rej (id : string) (o : ObjectId)
    (u : UpdateClockInRecord.t) (db : database) :
  bson.ObjectId_of id = Ok o → absent o (clock_in_records db) →
  (rej = true → update_clock_in_data u ≠ ∅) →
  update_clock_in rej id u db = (Raise clock_in_not_found, db).
Proof.
  intros Hid Habs Hne. unfold update_clock_in, bind, lift.
  rewrite Hid, update_one_absent; [done..| |done].
  unfold doc_encodable. apply bool_decide_pack.
  intros k v Hk. unfold update_clock_in_data, drop_none in Hk.
  apply map_lookup_filter_Some in Hk as [Hk _].
  unfold UpdateClockInRecord.dict in Hk.
  apply lookup_insert_Some in Hk as [[_ <-]|[_ Hk]];
    [by destruct (UpdateClockInRecord.email u)|].
  apply lookup_singleton_Some in Hk as [_ <-].
  by destruct (UpdateClockInRecord.location u).
Qed.

(** C1, in the form that holds of the code.  An identifier string that is
    well formed and matches
    no record makes get, update and delete on either collection fail with
    the [HTTPException] of status 204 and leave the database as it is (for
    update: when the fields to set are computed, fit BSON, and are not an
    empty set on a server that refuses one).  A string that [ObjectId]
    refuses makes the three operations raise [InvalidId], which nothing
    catches: the client sees 500. *)
Theorem by_id_failures rej (id : string) (db : database) :
  (∀ o, well_formed id o → absent o (items db) →
     get_item id db = (Raise item_not_found, db) ∧
     delete_item id db = (Raise item_not_found, db) ∧
     ∀ u fields,
       update_item_data u = Ok fields → doc_encodable fields →
       (rej = true → fields ≠ ∅) →
       update_item rej id u db = (Raise item_not_found, db)) ∧
  (∀ o, well_formed id o → absent o (clock_in_records db) →
     get_clock_in id db = (Raise clock_in_not_found, db) ∧
     delete_clock_in id db = (Raise clock_in_not_found, db) ∧
     ∀ u, (rej = true → update_clock_in_data u ≠ ∅) →
       update_clock_in rej id u db = (Raise clock_in_not_found, db)) ∧
  status_of (@Raise doc item_not_found) = 204 ∧
  status_of (@Raise doc clock_in_not_found) = 204 ∧
  (bson.ObjectId_of id = Raise InvalidId →
     get_item id db = (Raise InvalidId, db) ∧
     delete_item id db = (Raise InvalidId, db) ∧
     (∀ u fields, update_item_data u = Ok fields →
        update_item rej id u db = (Raise InvalidId, db)) ∧
     get_clock_in id db = (Raise InvalidId, db) ∧
     delete_clock_in id db = (Raise InvalidId, db) ∧
     (∀ u, update_clock_in rej id u db = (Raise InvalidId, db)) ∧
     status_of (@Raise doc InvalidId) = 500).
Proof.
  repeat split.
  - destruct H as [Hid _]. eauto using get_item_absent.
  - destruct H as [Hid _]. eauto using delete_item_absent.
  - destruct H as [Hid _]. eauto using update_item_absent.
  - destruct H as [Hid _]. eauto using get_clock_in_absent.
  - destruct H as [Hid _]. eauto using delete_clock_in_absent.
  - destruct H as [Hid _]. eauto using update_clock_in_absent.
  - unfold get_item, bind, lift. by rewrite H.
  - unfold delete_item, bind, lift. by rewrite H.
  - intros u fields Hu. unfold update_item, bind, lift. by rewrite Hu, H.
  - unfold get_clock_in, bind, lift. by rewrite H.
  - unfold delete_clock_in, bind, lift. by rewrite H.
  - intros u. unfold update_clock_in, bind, lift. by rewrite H.
Qed.

(** The string ["abc"] is not an identifier, so it matches no record; get,
    update and delete answer it with the unhandled [InvalidId] (500), not
    with the 204 of a record that is not found. *)
Lemma malformed_id_is_a_server_error :
  absent (bson.mkObjectId "abc") (items empty_db) ∧
  bson.ObjectId_of "abc" = Raise InvalidId ∧
  get_item "abc" empty_db = (Raise InvalidId, empty_db) ∧
  update_item true "abc" (UpdateItem.mk None None None (Some 1) None) empty_db
  = (Raise InvalidId, empty_db) ∧
  delete_item "abc" empty_db = (Raise InvalidId, empty_db) ∧
  get_clock_in "abc" empty_db = (Raise InvalidId, empty_db) ∧
  update_clock_in true "abc" (UpdateClockInRecord.mk (Some "a@x.com") None) empty_db
  = (Raise InvalidId, empty_db) ∧
  delete_clock_in "abc" empty_db = (Raise InvalidId, empty_db) ∧
  status_of (get_item "abc" empty_db).1 = 500 ∧
  (get_item "abc" empty_db).1 ≠ Raise item_not_found.
Proof. repeat split; try constructor; try reflexivity. discriminate. Qed.

(** ** Sample data *)

Example id_a_is_oid_a : bson.str oid_a = id_a ∧ well_formed id_a oid_a.
Proof. split; [reflexivity|]. split; reflexivity. Qed.

Lemma by_id_failures_witness :
  well_formed id_b oid_b ∧ absent oid_b (items sample_db) ∧
  get_item id_b sample_db = (Raise item_not_found, sample_db).
Proof.
  assert (Hwf : well_formed id_b oid_b) by (split; reflexivity).
  assert (Habs : absent oid_b (items sample_db)).
  { repeat constructor. vm_compute. discriminate. }
  split; [exact Hwf|]. split; [exact Habs|].
  destruct (by_id_failures true id_b sample_db) as [H _].
  exact (proj1 (H oid_b Hwf Habs)).
Defined.

(** ** C2: dates that do not parse, bodies that do not validate *)

Lemma strptime_raises (s format : string) :
  ¬ matches_format s format → datetime.strptime s format = Raise ValueError.
Proof.
  intros Hno. unfold matches_format in Hno. unfold datetime.strptime in *.
  destruct (datetime.parse_format format); [|done].
  destruct (datetime.re_match _ _) as [[vs rest]|]; [|done].
  destruct (bool_decide _); [|done].
  destruct (datetime.valid _); [|done].
  exfalso. eauto.
Qed.

Lemma UpdateItem_dict_lookup (u : UpdateItem.t) :
  UpdateItem.dict u !! "name" = Some (opt_str (UpdateItem.name u)) ∧
  UpdateItem.dict u !! "email" = Some (opt_str (UpdateItem.email u)) ∧
  UpdateItem.dict u !! "item_name" = Some (opt_str (UpdateItem.item_name u)) ∧
  UpdateItem.dict u !! "quantity" = Some (opt_int (UpdateItem.quantity u)) ∧
  UpdateItem.dict u !! "expiry_date" = Some (opt_str (UpdateItem.expiry_date u)).
Proof. repeat split. Qed.

Lemma update_item_data_bad_date (u : UpdateItem.t) (s : string) :
  UpdateItem.expiry_date u = Some s → ¬ matches_format s "%Y-%m-%d" →
  update_item_data u = Raise ValueError.
Proof.
  intros Hs Hbad. unfold update_item_data.
  assert (Hl : drop_none (UpdateItem.dict u) !! "expiry_date" = Some (VStr s)).
  { apply map_lookup_filter_Some. split; [|done].
    destruct (UpdateItem_dict_lookup u) as (_ & _ & _ & _ & ->). by rewrite Hs. }
  rewrite Hl. cbn [strptime_value]. by rewrite strptime_raises.
Qed.

Lemma field_invalid {A} (validator : json → option A) (body : gmap string json)
    (k : string) :
  body !! k ≫= validator = None → field validator body k = Raise RequestValidationError.
Proof.
  unfold field. destruct (body !! k) as [j|]; [|done]. cbn.
  by destruct (validator j).
Qed.

Lemma field_cases {A} (validator : json → option A) (body : gmap string json)
    (k : string) :
  field validator body k = Raise RequestValidationError
  ∨ ∃ a, field validator body k = Ok a.
Proof.
  unfold field. destruct (body !! k) as [j|]; [|by left].
  destruct (validator j); eauto.
Qed.

Lemma Item_validate_invalid str_validator int_validator (body : gmap string json)
    (k : string) :
  invalid_field str_validator int_validator body k →
  Item_validate str_validator int_validator body = Raise RequestValidationError.
Proof.
  intros Hk. unfold Item_validate.
  destruct (field_cases str_validator body "name") as [->|[? Hname]]; [done|].
  destruct (field_cases str_validator body "email") as [He|[? Hemail]];
    [by rewrite Hname, He|].
  destruct (field_cases str_validator body "item_name") as [He|[? Hitem]];
    [by rewrite Hname, Hemail, He|].
  destruct (field_cases int_validator body "quantity") as [He|[? Hquantity]];
    [by rewrite Hname, Hemail, Hitem, He|].
  destruct (field_cases str_validator body "expiry_date") as [He|[? Hexpiry]];
    [by rewrite Hname, Hemail, Hitem, Hquantity, He|].
  exfalso. destruct Hk as [[Hin Hbad]|[-> Hbad]].
  - apply field_invalid in Hbad.
    repeat (apply elem_of_cons in Hin as [->|Hin]; [congruence|]).
    by apply elem_of_nil in Hin.
  - apply field_invalid in Hbad. congruence.
Qed.

(** C2, in the form that holds of the code.  A create or update whose
    [expiry_date] string
    [strptime] refuses raises [ValueError] before the store is touched: no
    record is inserted or modified.  Nothing catches the exception, so the
    client sees 500, a server error; only a body of [POST /items] with a
    required field missing or refused by validation is answered with a
    client error, 422, again with the database untouched. *)
Theorem unparsable_date_is_a_server_error rej str_validator int_validator
    (utcnow : datetime.t) (new_id : ObjectId) (db : database) :
  (∀ item, ¬ matches_format (Item.expiry_date item) "%Y-%m-%d" →
     create_item utcnow new_id item db = (Raise ValueError, db)) ∧
  (∀ id u s,
     UpdateItem.expiry_date u = Some s → ¬ matches_format s "%Y-%m-%d" →
     update_item rej id u db = (Raise ValueError, db)) ∧
  status_of (@Raise doc ValueError) = 500 ∧
  server_error (status_of (@Raise doc ValueError)) ∧
  (∀ body k, invalid_field str_validator int_validator body k →
     post_items str_validator int_validator utcnow new_id body db
     = (Raise RequestValidationError, db)) ∧
  status_of (@Raise doc RequestValidationError) = 422 ∧
  client_error (status_of (@Raise doc RequestValidationError)).
Proof.
  split; [|split; [|split; [|split; [|split; [|split]]]]].
  - intros item Hbad. unfold create_item, bind, lift.
    by rewrite strptime_raises.
  - intros id u s Hs Hbad. unfold update_item, bind, lift.
    by rewrite (update_item_data_bad_date u s).
  - reflexivity.
  - cbn. unfold server_error. lia.
  - intros body k Hk. unfold post_items, bind, lift.
    by rewrite (Item_validate_invalid _ _ body k).
  - reflexivity.
  - cbn. unfold client_error. lia.
Qed.

Lemma unparsable_date_is_a_server_error_witness :
  ¬ matches_format (Item.expiry_date bad_date_item) "%Y-%m-%d" ∧
  create_item now oid_b bad_date_item sample_db = (Raise ValueError, sample_db) ∧
  update_item true id_a (UpdateItem.mk None None None None (Some "2025-13-01")) sample_db
  = (Raise ValueError, sample_db) ∧
  post_items strict_str strict_int now oid_b
    {[ "name" := JStr "Ann"; "email" := JStr "a@x.com"; "quantity" := JStr "three" ]}
    sample_db
  = (Raise RequestValidationError, sample_db).
Proof.
  assert (Hbad : ∀ s, datetime.strptime s "%Y-%m-%d" = Raise ValueError →
                      ¬ matches_format s "%Y-%m-%d").
  { intros s Hs [d Hd]. congruence. }
  pose proof (unparsable_date_is_a_server_error true strict_str strict_int
                now oid_b sample_db) as (Hcreate & Hupdate & _ & _ & Hpost & _).
  split; [by apply Hbad|]. split; [by apply Hcreate, Hbad|].
  split; [by apply (Hupdate _ _ "2025-13-01"), Hbad|].
  apply (Hpost _ "quantity"). right. split; reflexivity.
Defined.

(** A create whose date is written with slashes is answered with 500,
    which is not a client error; nothing is inserted. *)
Lemma unparsable_date_is_not_a_client_error :
  ¬ matches_format (Item.expiry_date bad_date_item) "%Y-%m-%d" ∧
  create_item now oid_b bad_date_item sample_db = (Raise ValueError, sample_db) ∧
  status_of (create_item now oid_b bad_date_item sample_db).1 = 500 ∧
  ¬ client_error (status_of (create_item now oid_b bad_date_item sample_db).1) ∧
  ¬ client_error
      (status_of (update_item true id_a
                    (UpdateItem.mk None None None None (Some "2025-13-01"))
                    sample_db).1).
Proof.
  split; [intros [d Hd]; discriminate|].
  split; [reflexivity|]. split; [reflexivity|].
  split.
  - replace (status_of _) with 500 by reflexivity. unfold client_error. lia.
  - replace (status_of _) with 500 by reflexivity. unfold client_error. lia.
Qed.


(** ** Dates: [strptime] reads back what ["%04d-%02d-%02d"] prints *)

Lemma next_char_ascii (c : ascii) (k : string) :
  (N_of_ascii c < 128)%N → datetime.next_char (String c k) = Some (N_of_ascii c, k).
Proof.
  intros Hc. unfold datetime.next_char.
  by rewrite (proj2 (N.ltb_lt _ 192)) by lia.
Qed.

Lemma digit_char_code (n : Z) :
  N_of_ascii (datetime.digit_char n) = Z.to_N (48 + n mod 10).
Proof.
  unfold datetime.digit_char. apply N_ascii_embedding.
  pose proof (Z.mod_pos_bound n 10). lia.
Qed.

Lemma digit_digit_char (n : Z) :
  datetime.digit (N_of_ascii (datetime.digit_char n)) = Some (n mod 10).
Proof.
  rewrite digit_char_code.
  assert (Hall : forallb
    (λ r, match datetime.digit (Z.to_N (48 + r)) with
          | Some v => v =? r
          | None => false
          end) (seqZ 0 10) = true) by (vm_compute; reflexivity).
  rewrite forallb_forall in Hall.
  specialize (Hall (n mod 10)).
  destruct (datetime.digit _) as [v|].
  - f_equal. apply Z.eqb_eq, Hall, list_elem_of_In, elem_of_seqZ.
    pose proof (Z.mod_pos_bound n 10). lia.
  - exfalso. enough (false = true) by done.
    apply Hall, list_elem_of_In, elem_of_seqZ.
    pose proof (Z.mod_pos_bound n 10). lia.
Qed.

Lemma next_digit_char (n : Z) (k : string) :
  datetime.next_char (String (datetime.digit_char n) k)
  = Some (N_of_ascii (datetime.digit_char n), k).
Proof.
  apply next_char_ascii. rewrite digit_char_code.
  pose proof (Z.mod_pos_bound n 10). lia.
Qed.

Lemma four_zfill (y : Z) (k : string) :
  0 ≤ y ≤ 9999 →
  datetime.alternative
    [datetime.any_digit; datetime.any_digit; datetime.any_digit; datetime.any_digit]
    (datetime.zfill 4 y k)
  = [(y, k)].
Proof.
  intros Hy. unfold datetime.alternative.
  cbn [datetime.zfill datetime.sequence datetime.in_class].
  rewrite !next_digit_char, !digit_digit_char.
  cbn [fmap option_fmap option_map app datetime.int_of foldl].
  do 2 f_equal. Z.div_mod_to_equations. lia.
Qed.

(** The month and the day, for every month number and day number. *)
Lemma re_match_month_day (m d : Z) :
  1 ≤ m ≤ 12 → 1 ≤ d ≤ 31 →
  datetime.re_match [datetime.lit "-"; datetime.dm; datetime.lit "-"; datetime.dd]
    (String "-" (datetime.zfill 2 m (String "-" (datetime.zfill 2 d ""))))
  = Some ([(datetime.dm, m); (datetime.dd, d)], "").
Proof.
  intros Hm Hd.
  assert (Hall : forallb (λ m, forallb (λ d,
      bool_decide
        (datetime.re_match
           [datetime.lit "-"; datetime.dm; datetime.lit "-"; datetime.dd]
           (String "-" (datetime.zfill 2 m (String "-" (datetime.zfill 2 d ""))))
         = Some ([(datetime.dm, m); (datetime.dd, d)], "")))
      (seqZ 1 31)) (seqZ 1 12) = true) by (vm_compute; reflexivity).
  rewrite forallb_forall in Hall.
  specialize (Hall m). rewrite forallb_forall in Hall.
  eapply bool_decide_eq_true_1, Hall; apply list_elem_of_In, elem_of_seqZ; lia.
Qed.

Lemma re_match_cons (d : datetime.directive) (fmt : list datetime.directive)
    (s : string) :
  datetime.re_match (d :: fmt) s
  = datetime.first_match
      (λ alt : option Z * string,
         match datetime.re_match fmt alt.2 with
         | Some (vs, rest) =>
             Some (match alt.1 with Some v => (d, v) :: vs | None => vs end, rest)
         | None => None
         end)
      (datetime.alternatives d s).
Proof. reflexivity. Qed.

Lemma strptime_isoformat_date (y m d : Z) :
  1 ≤ y ≤ 9999 → 1 ≤ m ≤ 12 → 1 ≤ d ≤ datetime.days_in_month y m →
  datetime.strptime (datetime.isoformat_date y m d) "%Y-%m-%d"
  = Ok (datetime.mk y m d 0 0 0 0).
Proof.
  intros Hy Hm Hd.
  assert (Hd31 : 1 ≤ d ≤ 31).
  { unfold datetime.days_in_month in Hd.
    repeat match type of Hd with context [if ?b then _ else _] => destruct b end; lia. }
  unfold datetime.strptime.
  change (datetime.parse_format "%Y-%m-%d")
    with (Some [datetime.dY; datetime.lit "-"; datetime.dm; datetime.lit "-"; datetime.dd]).
  cbv beta iota.
  unfold datetime.isoformat_date, datetime.isoformat_date_then.
  rewrite re_match_cons. cbn [datetime.alternatives].
  rewrite four_zfill by lia.
  cbn [fmap list_fmap datetime.first_match prod_map fst snd id].
  rewrite re_match_month_day by assumption.
  cbn [datetime.found datetime.directive_eqb bool_decide decide_rel].
  rewrite bool_decide_eq_true_2 by reflexivity.
  cbn [datetime.found datetime.directive_eqb].
  unfold datetime.valid. cbn [datetime.year datetime.month datetime.day datetime.hour
    datetime.minute datetime.second datetime.microsecond].
  replace (_ && _) with true; [reflexivity|].
  symmetry. repeat (apply andb_true_intro; split); lia.
Qed.

Lemma strptime_microsecond (s format : string) (d : datetime.t) :
  datetime.strptime s format = Ok d → datetime.microsecond d = 0.
Proof.
  unfold datetime.strptime.
  destruct (datetime.parse_format format); [|done].
  destruct (datetime.re_match _ _) as [[vs rest]|]; [|done].
  destruct (bool_decide _); [|done].
  destruct (datetime.valid _); [|done].
  by intros [= <-].
Qed.

Lemma to_bson_date (d : datetime.t) :
  datetime.microsecond d = 0 → to_bson (VDate d) = VDate d.
Proof. destruct d. cbn. by intros ->. Qed.

(** ** C3: create, then get *)

Lemma existsb_has_id_absent (o : ObjectId) (c : list doc) :
  absent o c → existsb (Collection.has_id o) c = false.
Proof.
  induction 1 as [|d c Hd _ IH]; [reflexivity|].
  cbn. by rewrite has_id_false.
Qed.

Lemma item_data_encodable (utcnow dt : datetime.t) (new_id : ObjectId) (item : Item.t) :
  - 2 ^ 63 ≤ Item.quantity item < 2 ^ 63 →
  doc_encodable (<["_id" := VOid new_id]> (<["expiry_date" := VDate dt]>
                   (<["insert_date" := VDate utcnow]> (Item.dict item)))) = true.
Proof.
  intros Hq. apply bool_decide_eq_true_2.
  repeat apply map_Forall_insert_2; try done.
  cbn. apply Is_true_true, andb_true_intro. split; lia.
Qed.

Lemma stored_item_lookup (utcnow dt : datetime.t) (new_id : ObjectId) (item : Item.t) :
  datetime.microsecond dt = 0 →
  let d := stored_item utcnow new_id item dt in
  d !! "_id" = Some (VOid new_id) ∧
  d !! "name" = Some (VStr (Item.name item)) ∧
  d !! "email" = Some (VStr (Item.email item)) ∧
  d !! "item_name" = Some (VStr (Item.item_name item)) ∧
  d !! "quantity" = Some (VInt (Item.quantity item)) ∧
  d !! "expiry_date" = Some (VDate dt) ∧
  d !! "insert_date" = Some (to_bson (VDate utcnow)).
Proof.
  intros Hus. cbv zeta. unfold stored_item. rewrite !lookup_fmap.
  repeat split; try reflexivity.
  change (Some (to_bson (VDate dt)) = Some (VDate dt)). by rewrite to_bson_date.
Qed.

Lemma create_item_ok (utcnow : datetime.t) (new_id : ObjectId) (item : Item.t)
    (dt : datetime.t) (db : database) :
  datetime.strptime (Item.expiry_date item) "%Y-%m-%d" = Ok dt →
  - 2 ^ 63 ≤ Item.quantity item < 2 ^ 63 →
  absent new_id (items db) →
  create_item utcnow new_id item db
  = (item_serializer (Some (stored_item utcnow new_id item dt)),
     mkdb (items db ++ [stored_item utcnow new_id item dt]) (clock_in_records db)).
Proof.
  intros Hdt Hq Habs. unfold create_item, bind, lift. rewrite Hdt.
  unfold db.insert_one, Collection.insert_one. cbn [docs].
  rewrite item_data_encodable, existsb_has_id_absent by assumption.
  cbn [negb with_docs]. rewrite find_one_id. cbn [docs items].
  rewrite List.filter_app, absent_filter by assumption.
  cbn [List.filter app]. fold (stored_item utcnow new_id item dt).
  destruct (stored_item_lookup utcnow dt new_id item) as [Hid _];
    [by eapply strptime_microsecond|].
  unfold Collection.has_id. rewrite Hid, bool_decide_eq_true_2 by done.
  reflexivity.
Qed.

Lemma item_serializer_stored (utcnow dt : datetime.t) (new_id : ObjectId) (item : Item.t) :
  datetime.microsecond dt = 0 →
  item_serializer (Some (stored_item utcnow new_id item dt))
  = Ok {[ "id" := VStr (bson.str new_id); "name" := VStr (Item.name item);
          "email" := VStr (Item.email item);
          "item_name" := VStr (Item.item_name item);
          "quantity" := VInt (Item.quantity item);
          "expiry_date" := VDate dt; "insert_date" := to_bson (VDate utcnow) ]}.
Proof.
  intros Hus.
  destruct (stored_item_lookup utcnow dt new_id item Hus)
    as (H1 & H2 & H3 & H4 & H5 & H6 & H7).
  unfold item_serializer, getitem.
  by rewrite H1, H2, H3, H4, H5, H6, H7.
Qed.

(** C3, in the form that holds of the code.  Creating an item from a
    valid input (the date parses, the
    quantity fits a BSON integer, the driver generates a fresh identifier)
    succeeds; fetching by the returned id then succeeds too and gives the
    record that was returned, whose [name], [email], [item_name] and
    [quantity] are those of the input and whose [expiry_date] is the date
    [strptime] reads in the input string: for the string of year [y], month
    [m] and day [d], midnight of that calendar day. *)
Theorem create_then_get (utcnow : datetime.t) (new_id : ObjectId) (item : Item.t)
    (dt : datetime.t) (db : database) :
  datetime.strptime (Item.expiry_date item) "%Y-%m-%d" = Ok dt →
  - 2 ^ 63 ≤ Item.quantity item < 2 ^ 63 →
  String.length (bson.binary new_id) = 12%nat →
  absent new_id (items db) →
  ∃ created fetched db',
    create_item utcnow new_id item db = (Ok created, db') ∧
    created !! "id" = Some (VStr (bson.str new_id)) ∧
    get_item (bson.str new_id) db' = (Ok fetched, db') ∧
    fetched = created ∧
    fetched !! "name" = Some (VStr (Item.name item)) ∧
    fetched !! "email" = Some (VStr (Item.email item)) ∧
    fetched !! "item_name" = Some (VStr (Item.item_name item)) ∧
    fetched !! "quantity" = Some (VInt (Item.quantity item)) ∧
    fetched !! "expiry_date" = Some (VDate dt) ∧
    (∀ y m d,
       Item.expiry_date item = datetime.isoformat_date y m d →
       1 ≤ y ≤ 9999 → 1 ≤ m ≤ 12 → 1 ≤ d ≤ datetime.days_in_month y m →
       dt = datetime.mk y m d 0 0 0 0).
Proof.
  intros Hdt Hq Hlen Habs.
  pose proof (strptime_microsecond _ _ _ Hdt) as Hus.
  eexists _, _, _. split.
  { rewrite (create_item_ok _ _ _ dt) by assumption.
    by rewrite item_serializer_stored. }
  split; [reflexivity|]. split.
  { unfold get_item, bind, lift.
    destruct (well_formed_str new_id Hlen) as [-> _].
    rewrite find_one_id. cbn [docs items].
    rewrite List.filter_app, absent_filter by assumption.
    cbn [List.filter app].
    destruct (stored_item_lookup utcnow dt new_id item Hus) as [Hid _].
    unfold Collection.has_id. rewrite Hid, bool_decide_eq_true_2 by done.
    cbn [head doc_bool]. rewrite bool_decide_eq_false_2.
    - cbn [negb]. by rewrite item_serializer_stored.
    - intros Hempty. by rewrite Hempty in Hid. }
  split; [reflexivity|].
  repeat (split; [reflexivity|]).
  intros y m d Hs Hy Hm Hd. rewrite Hs, strptime_isoformat_date in Hdt by assumption.
  congruence.
Qed.

Lemma create_then_get_witness :
  ∃ created fetched db',
    create_item now oid_a pen empty_db = (Ok created, db') ∧
    get_item id_a db' = (Ok fetched, db') ∧
    fetched !! "quantity" = Some (VInt 3) ∧
    fetched !! "expiry_date" = Some (VDate (datetime.mk 2025 1 1 0 0 0 0)).
Proof.
  destruct (create_then_get now oid_a pen (datetime.mk 2025 1 1 0 0 0 0) empty_db)
    as (created & fetched & db' & Hc & _ & Hg & _ & _ & _ & _ & Hq & He & _).
  - reflexivity.
  - cbn. lia.
  - reflexivity.
  - constructor.
  - exists created, fetched, db'. auto.
Defined.

(** A quantity of 2^63 is an [int] like any other for the [Item] model, but
    no BSON integer: the driver raises [OverflowError], the create ends in
    a 500 and nothing is stored, though the input is valid and its date
    parses. *)
Lemma create_of_a_huge_quantity :
  matches_format (Item.expiry_date huge_item) "%Y-%m-%d" ∧
  absent oid_b (items sample_db) ∧
  create_item now oid_b huge_item sample_db = (Raise OverflowError, sample_db) ∧
  status_of (create_item now oid_b huge_item sample_db).1 = 500 ∧
  get_item id_b (create_item now oid_b huge_item sample_db).2
  = (Raise item_not_found, sample_db).
Proof.
  assert (H : create_item now oid_b huge_item sample_db
              = (Raise OverflowError, sample_db)) by (vm_compute; reflexivity).
  split; [by eexists|].
  split; [repeat constructor; vm_compute; discriminate|].
  split; [exact H|]. rewrite H. cbn [fst snd]. split; [reflexivity|].
  vm_compute. reflexivity.
Qed.

(** ** C4: what an update leaves alone *)

Lemma only_changes_refl (P : string → Prop) (c : list doc) : only_changes P c c.
Proof. apply Forall_Forall2_diag, Forall_forall. done. Qed.

Lemma only_changes_keeps (P : string → Prop) (k : string) (c c' : list doc) :
  ¬ P k → only_changes P c c' → keeps k c c'.
Proof.
  intros Hk Hc. eapply Forall2_impl; [exact Hc|]. intros d d' Hd. by apply Hd.
Qed.

Lemma update_first_frame (P : string → Prop) (p : doc → bool) (f : doc → doc)
    (c c' : list doc) :
  (∀ (d : doc) k, ¬ P k → f d !! k = d !! k) →
  Collection.update_first p f c = Some c' → only_changes P c c'.
Proof.
  intros Hf. revert c'. induction c as [|d c IH]; intros c' Hc'; [done|].
  cbn in Hc'. destruct (p d).
  - injection Hc' as <-. constructor; [by apply Hf|apply only_changes_refl].
  - destruct (Collection.update_first p f c) as [c''|]; [|done].
    injection Hc' as <-. constructor; [done|by apply IH].
Qed.

Lemma update_one_frame rej (q : query) (fields : doc) (c c' : list doc) (n : Z) :
  Collection.update_one rej q fields c = Ok (n, c') →
  only_changes (λ k, is_Some (fields !! k)) c c'.
Proof.
  unfold Collection.update_one. intros H.
  destruct (negb _); [done|]. destruct (_ && _); [done|].
  destruct (Collection.update_first _ _ c) as [c''|] eqn:Hupd.
  - injection H as _ <-. eapply update_first_frame; [|exact Hupd].
    intros d k Hk. cbv beta in Hk.
    apply lookup_union_r. rewrite lookup_fmap.
    destruct (fields !! k); [|done]. exfalso. eauto.
  - injection H as _ <-. apply only_changes_refl.
Qed.

(** An update leaves the database as it is or replaces one collection by
    the outcome of a single [update_one]. *)
Lemma update_item_database rej (id : string) (u : UpdateItem.t) (db : database) :
  (update_item rej id u db).2 = db
  ∨ ∃ fields o n l,
      update_item_data u = Ok fields ∧
      Collection.update_one rej {[ "_id" := CEq (VOid o) ]} fields (items db)
      = Ok (n, l) ∧
      (update_item rej id u db).2 = mkdb l (clock_in_records db).
Proof.
  unfold update_item, bind, lift.
  destruct (update_item_data u) as [fields|] eqn:Hu; [|by left].
  destruct (bson.ObjectId_of id) as [o|] eqn:Hid; [|by left].
  unfold db.update_one. cbn [docs].
  destruct (Collection.update_one _ _ _ _) as [[n l]|] eqn:Hupd; [|by left].
  right. exists fields, o, n, l. split; [done|]. split; [done|].
  cbn [with_docs]. destruct (negb (n =? 0)); [|done].
  cbv beta. by rewrite find_one_id.
Qed.

Lemma update_clock_in_database rej (id : string) (u : UpdateClockInRecord.t)
    (db : database) :
  (update_clock_in rej id u db).2 = db
  ∨ ∃ o n l,
      Collection.update_one rej {[ "_id" := CEq (VOid o) ]} (update_clock_in_data u)
        (clock_in_records db) = Ok (n, l) ∧
      (update_clock_in rej id u db).2 = mkdb (items db) l.
Proof.
  unfold update_clock_in, bind, lift.
  destruct (bson.ObjectId_of id) as [o|] eqn:Hid; [|by left].
  unfold db.update_one. cbn [docs].
  destruct (Collection.update_one _ _ _ _) as [[n l]|] eqn:Hupd; [|by left].
  right. exists o, n, l. split; [done|].
  cbn [with_docs]. destruct (negb (n =? 0)); [|done].
  cbv beta. by rewrite find_one_id.
Qed.

Lemma drop_none_provided (body : doc) (k : string) :
  is_Some (drop_none body !! k) → provided body k.
Proof.
  intros [v Hv]. apply map_lookup_filter_Some in Hv as [Hv Hnone].
  by exists v.
Qed.

Lemma update_item_data_provided (u : UpdateItem.t) (fields : doc) (k : string) :
  update_item_data u = Ok fields → is_Some (fields !! k) →
  provided (UpdateItem.dict u) k.
Proof.
  unfold update_item_data. intros Hu Hk.
  destruct (drop_none (UpdateItem.dict u) !! "expiry_date") as [v|] eqn:He.
  - destruct (strptime_value v "%Y-%m-%d") as [d|]; [|discriminate Hu].
    cbn [rbind] in Hu.
    assert (Hf : fields = <["expiry_date" := VDate d]> (drop_none (UpdateItem.dict u)))
      by congruence.
    subst fields. apply drop_none_provided.
    destruct (decide (k = "expiry_date")) as [->|Hne].
    + rewrite He. eauto.
    + rewrite lookup_insert_ne in Hk by congruence. exact Hk.
  - assert (Hf : fields = drop_none (UpdateItem.dict u)) by congruence.
    subst fields. apply drop_none_provided. exact Hk.
Qed.

Lemma update_item_frame rej (id : string) (u : UpdateItem.t) (db : database) :
  clock_in_records (update_item rej id u db).2 = clock_in_records db ∧
  only_changes (provided (UpdateItem.dict u)) (items db)
    (items (update_item rej id u db).2).
Proof.
  destruct (update_item_database rej id u db)
    as [->|(fields & o & n & l & Hu & Hupd & ->)].
  - split; [done|apply only_changes_refl].
  - split; [done|]. cbn [items].
    eapply Forall2_impl; [by eapply update_one_frame|].
    intros d d' Hd k Hk. apply Hd. intros Hs. apply Hk.
    by eapply update_item_data_provided.
Qed.

Lemma update_clock_in_frame rej (id : string) (u : UpdateClockInRecord.t)
    (db : database) :
  items (update_clock_in rej id u db).2 = items db ∧
  only_changes (provided (UpdateClockInRecord.dict u)) (clock_in_records db)
    (clock_in_records (update_clock_in rej id u db).2).
Proof.
  destruct (update_clock_in_database rej id u db) as [->|(o & n & l & Hupd & ->)].
  - split; [done|apply only_changes_refl].
  - split; [done|]. cbn [clock_in_records].
    eapply Forall2_impl; [by eapply update_one_frame|].
    intros d d' Hd k Hk. apply Hd. intros Hs. apply Hk.
    by apply drop_none_provided.
Qed.

Lemma not_provided_None (body : doc) (k : string) :
  body !! k = None ∨ body !! k = Some VNone → ¬ provided body k.
Proof. intros [H|H] (v & Hv & Hne); congruence. Qed.

(** C4.  Whatever the identifier and the request, an update of an item
    changes no document of the other collection and, in the documents of
    its own collection, no field other than those the request provides
    with a value that is not null.  So a request with only [quantity]
    leaves [name], [email], [item_name] and [expiry_date] of every item as
    they were, and no request changes [insert_date]; likewise for clock-in
    records and [insert_datetime]. *)
Theorem update_changes_only_provided_fields rej (id : string) (db : database) :
  (∀ u : UpdateItem.t,
     let db' := (update_item rej id u db).2 in
     clock_in_records db' = clock_in_records db ∧
     only_changes (provided (UpdateItem.dict u)) (items db) (items db') ∧
     keeps "insert_date" (items db) (items db') ∧
     (UpdateItem.name u = None → UpdateItem.email u = None →
      UpdateItem.item_name u = None → UpdateItem.expiry_date u = None →
      keeps "name" (items db) (items db') ∧
      keeps "email" (items db) (items db') ∧
      keeps "item_name" (items db) (items db') ∧
      keeps "expiry_date" (items db) (items db'))) ∧
  (∀ u : UpdateClockInRecord.t,
     let db' := (update_clock_in rej id u db).2 in
     items db' = items db ∧
     only_changes (provided (UpdateClockInRecord.dict u)) (clock_in_records db)
       (clock_in_records db') ∧
     keeps "insert_datetime" (clock_in_records db) (clock_in_records db')).
Proof.
  split.
  - intros u db'. subst db'.
    destruct (update_item_frame rej id u db) as [Hother Hframe].
    split; [done|]. split; [done|]. split.
    + eapply only_changes_keeps; [|done]. by apply not_provided_None; left.
    + intros Hn He Hi Hx.
      destruct (UpdateItem_dict_lookup u) as (Ln & Le & Li & _ & Lx).
      rewrite Hn in Ln. rewrite He in Le. rewrite Hi in Li. rewrite Hx in Lx.
      repeat split; (eapply only_changes_keeps; [|done]);
        apply not_provided_None; by right.
  - intros u db'. subst db'.
    destruct (update_clock_in_frame rej id u db) as [Hother Hframe].
    split; [done|]. split; [done|].
    eapply only_changes_keeps; [|done]. by apply not_provided_None; left.
Qed.

Lemma update_changes_only_provided_fields_witness :
  ∃ updated db',
    update_item true id_a (UpdateItem.mk None None None (Some 7) None) sample_db
    = (Ok updated, db') ∧
    updated !! "quantity" = Some (VInt 7) ∧
    keeps "name" (items sample_db) (items db') ∧
    keeps "expiry_date" (items sample_db) (items db') ∧
    keeps "insert_date" (items sample_db) (items db').
Proof.
  pose proof (update_changes_only_provided_fields true id_a sample_db) as [H _].
  specialize (H (UpdateItem.mk None None None (Some 7) None)).
  cbv zeta in H. destruct H as (_ & _ & Hins & H).
  destruct (H eq_refl eq_refl eq_refl eq_refl) as (Hn & _ & _ & Hx).
  destruct (update_item true id_a (UpdateItem.mk None None None (Some 7) None)
              sample_db) as [r db'] eqn:Hupd.
  assert (Hr : ∃ updated, r = Ok updated ∧ updated !! "quantity" = Some (VInt 7)).
  { apply (f_equal fst) in Hupd. cbn [fst] in Hupd. rewrite <- Hupd.
    eexists. split; reflexivity. }
  destruct Hr as (updated & -> & Hq).
  exists updated, db'. cbn [snd] in *. auto.
Defined.

(** ** C5: the count per e-mail address *)

Lemma counter_of_bump (k k' : value) (acc : list (value * Z)) :
  counter_of k' (Collection.bump k acc)
  = counter_of k' acc + (if decide (k' = k) then 1 else 0).
Proof.
  induction acc as [|[k0 n] acc IH]; cbn.
  - destruct (decide (k' = k)); lia.
  - destruct (decide (k = k0)) as [->|Hne]; cbn.
    + destruct (decide (k' = k0)); lia.
    + destruct (decide (k' = k0)) as [->|Hne'].
      * rewrite decide_False by congruence. lia.
      * apply IH.
Qed.

Lemma bump_keys (k : value) (acc : list (value * Z)) :
  (Collection.bump k acc).*1 = if decide (k ∈ acc.*1) then acc.*1 else (acc.*1 ++ [k])%list.
Proof.
  induction acc as [|[k0 n] acc IH]; cbn.
  - rewrite decide_False; [done|]. apply not_elem_of_nil.
  - destruct (decide (k = k0)) as [->|Hne]; cbn.
    + rewrite decide_True; [done|]. apply elem_of_cons. by left.
    + rewrite IH. destruct (decide (k ∈ acc.*1)) as [Hin|Hnotin].
      * rewrite decide_True; [done|]. apply elem_of_cons. by right.
      * rewrite decide_False; [done|]. rewrite elem_of_cons. intros [?|?]; done.
Qed.

Lemma bump_NoDup (k : value) (acc : list (value * Z)) :
  NoDup acc.*1 → NoDup (Collection.bump k acc).*1.
Proof.
  intros Hnd. rewrite bump_keys. destruct (decide (k ∈ acc.*1)); [done|].
  apply NoDup_app. split; [done|]. split.
  - intros x Hx Hk. apply list_elem_of_singleton in Hk. by subst.
  - apply NoDup_singleton.
Qed.

Lemma bump_positive (k : value) (acc : list (value * Z)) :
  Forall (λ kn, 0 < kn.2) acc → Forall (λ kn, 0 < kn.2) (Collection.bump k acc).
Proof.
  induction 1 as [|[k0 n] acc Hn Hacc IH]; cbn.
  - repeat constructor.
  - destruct (decide (k = k0)); constructor; cbn [snd] in *; first [lia|assumption].
Qed.

(** With distinct keys, an entry is in the list exactly when its key is
    and its number is the key's counter. *)
Lemma elem_of_counters (k : value) (n : Z) (acc : list (value * Z)) :
  NoDup acc.*1 → (k, n) ∈ acc ↔ k ∈ acc.*1 ∧ n = counter_of k acc.
Proof.
  induction acc as [|[k0 n0] acc IH]; cbn; intros Hnd.
  - split; [by intros ?%elem_of_nil|by intros [?%elem_of_nil _]].
  - apply NoDup_cons in Hnd as [Hk0 Hnd]. rewrite !elem_of_cons, (IH Hnd).
    destruct (decide (k = k0)) as [->|Hne].
    + split.
      * intros [[= ->]|[Hin _]]; [auto|done].
      * intros [_ ->]. by left.
    + split.
      * intros [[= ? ?]|[Hin ->]]; [done|auto].
      * intros [[?|Hin] ->]; [done|auto].
Qed.

Lemma counter_of_absent (k : value) (acc : list (value * Z)) :
  k ∉ acc.*1 → counter_of k acc = 0.
Proof.
  induction acc as [|[k0 n0] acc IH]; cbn; [done|].
  rewrite elem_of_cons. intros Hk.
  rewrite decide_False by tauto. apply IH. tauto.
Qed.

Lemma counter_of_positive (k : value) (acc : list (value * Z)) :
  Forall (λ kn, 0 < kn.2) acc → k ∈ acc.*1 → 0 < counter_of k acc.
Proof.
  induction 1 as [|[k0 n0] acc Hn _ IH]; cbn; [by intros ?%elem_of_nil|].
  rewrite elem_of_cons. intros Hk.
  destruct (decide (k = k0)); [done|]. apply IH. tauto.
Qed.

Lemma occurrences_cons (field : string) (k : value) (d : doc) (c : list doc) :
  occurrences field k (d :: c)
  = (if decide (k = Collection.group_key field d) then 1 else 0)
    + occurrences field k c.
Proof.
  unfold occurrences. cbn [List.filter].
  destruct (decide (k = Collection.group_key field d)) as [->|Hne].
  - rewrite bool_decide_eq_true_2 by done. cbn [length]. lia.
  - rewrite bool_decide_eq_false_2 by congruence. lia.
Qed.

(** The invariant of the fold that groups: distinct keys, positive
    counters, and each counter what it was plus the occurrences met. *)
Lemma counters_fold (field : string) (c : list doc) (acc : list (value * Z)) :
  NoDup acc.*1 → Forall (λ kn, 0 < kn.2) acc →
  let acc' := foldl (λ acc d, Collection.bump (Collection.group_key field d) acc) acc c in
  NoDup acc'.*1 ∧ Forall (λ kn, 0 < kn.2) acc' ∧
  ∀ k, counter_of k acc' = counter_of k acc + occurrences field k c.
Proof.
  revert acc. induction c as [|d c IH]; intros acc Hnd Hpos; cbn [foldl].
  - repeat split; [done..|]. intros k. unfold occurrences. cbn. lia.
  - destruct (IH (Collection.bump (Collection.group_key field d) acc))
      as (Hnd' & Hpos' & Hcount); [by apply bump_NoDup|by apply bump_positive|].
    repeat split; [done..|].
    intros k. rewrite Hcount, counter_of_bump, occurrences_cons. lia.
Qed.

Lemma counters_spec (field : string) (c : list doc) :
  NoDup (Collection.counters field c).*1 ∧
  ∀ k n, (k, n) ∈ Collection.counters field c ↔ 0 < n ∧ n = occurrences field k c.
Proof.
  destruct (counters_fold field c []) as (Hnd & Hpos & Hcount);
    [apply NoDup_nil_2|constructor|].
  fold (Collection.counters field c) in Hnd, Hpos, Hcount.
  split; [done|]. intros k n.
  rewrite elem_of_counters by done. rewrite Hcount. cbn [counter_of].
  split.
  - intros [Hin ->]. split; [|lia].
    pose proof (counter_of_positive k _ Hpos Hin) as H. rewrite Hcount in H.
    cbn [counter_of] in H. lia.
  - intros [Hn ->]. split; [|lia].
    destruct (decide (k ∈ (Collection.counters field c).*1)) as [|Hout]; [done|].
    apply counter_of_absent in Hout. rewrite Hcount in Hout.
    cbn [counter_of] in Hout. lia.
Qed.

Lemma occurrences_email (e : value) (c : list doc) :
  Forall has_email c → occurrences "email" e c = count_email e c.
Proof.
  intros Hc. unfold occurrences, count_email. do 2 f_equal.
  apply List.filter_ext_in. intros d Hd.
  rewrite Forall_forall in Hc. destruct (Hc d) as [v Hv]; [by apply list_elem_of_In|].
  apply bool_decide_ext. unfold Collection.group_key. rewrite Hv. cbn.
  split; congruence.
Qed.

Lemma group_doc_lookup (k : value) (n : Z) :
  Collection.group_doc (k, n) !! "_id" = Some k ∧
  Collection.group_doc (k, n) !! "count" = Some (VInt n).
Proof.
  unfold Collection.group_doc. cbn [fst snd]. split.
  - apply lookup_insert_eq.
  - rewrite lookup_insert_ne by discriminate. apply lookup_singleton_eq.
Qed.

Lemma group_doc_inj (kn kn' : value * Z) :
  Collection.group_doc kn = Collection.group_doc kn' → kn = kn'.
Proof.
  destruct kn as [k n], kn' as [k' n']. intros H.
  destruct (group_doc_lookup k n) as [Hk Hn].
  rewrite H in Hk, Hn. destruct (group_doc_lookup k' n') as [Hk' Hn'].
  congruence.
Qed.

Lemma group_doc_ids (groups : list (value * Z)) :
  (λ g : doc, g !! "_id") <$> (Collection.group_doc <$> groups) = Some <$> groups.*1.
Proof.
  induction groups as [|[k n] groups IH]; [reflexivity|].
  rewrite !fmap_cons, IH. cbn [fst].
  by rewrite (proj1 (group_doc_lookup k n)).
Qed.

(** C5.  On a collection whose items all have an e-mail address, the
    aggregate returns documents of the form [{"_id": e, "count": n}] and
    nothing else, no two with the same ["_id"]; the document
    [{"_id": e, "count": n}] is among them exactly when [n] is positive and
    is the number of items with the address [e]: one document for each
    address that some item has, pairing it with its count, all of them
    whatever their number.  The database is unchanged. *)
Theorem aggregate_items_counts (db : database) :
  Forall has_email (items db) →
  ∃ result : list doc,
    aggregate_items db = (Ok result, db) ∧
    NoDup ((λ g : doc, g !! "_id") <$> result) ∧
    Forall (λ g : doc, ∃ e n, g = {[ "_id" := e; "count" := VInt n ]}) result ∧
    ∀ e n, ({[ "_id" := e; "count" := VInt n ]} : doc) ∈ result
           ↔ 0 < n ∧ n = count_email e (items db).
Proof.
  intros Hemail.
  exists (Collection.group_doc <$> Collection.counters "email" (items db)).
  destruct (counters_spec "email" (items db)) as [Hnd Hspec].
  split; [reflexivity|]. split.
  { rewrite group_doc_ids. apply NoDup_fmap_2; [|exact Hnd]. by intros ?? [= ->]. }
  split.
  { apply Forall_fmap, Forall_forall. intros [k n] _. by exists k, n. }
  intros e n. rewrite <- (occurrences_email e (items db) Hemail), <- Hspec.
  change ({[ "_id" := e; "count" := VInt n ]} : doc) with (Collection.group_doc (e, n)).
  rewrite list_elem_of_fmap. split.
  - intros (kn & Heq & Hin). apply group_doc_inj in Heq. by subst kn.
  - intros Hin. by exists (e, n).
Qed.

(** Two items of [a@x.com] and one of [b@x.com]. *)
Lemma aggregate_items_counts_witness :
  Forall has_email (items three_items) ∧
  ∃ result : list doc,
    aggregate_items three_items = (Ok result, three_items) ∧
    NoDup ((λ g : doc, g !! "_id") <$> result) ∧
    ({[ "_id" := VStr "a@x.com"; "count" := VInt 2 ]} : doc) ∈ result ∧
    ({[ "_id" := VStr "b@x.com"; "count" := VInt 1 ]} : doc) ∈ result ∧
    ∀ n, ({[ "_id" := VStr "c@x.com"; "count" := VInt n ]} : doc) ∉ result.
Proof.
  assert (Hemail : Forall has_email (items three_items)).
  { repeat constructor; eexists; vm_compute; reflexivity. }
  split; [exact Hemail|].
  destruct (aggregate_items_counts three_items Hemail)
    as (result & Hagg & Hnd & _ & Hspec).
  exists result. split; [exact Hagg|]. split; [exact Hnd|].
  split; [apply Hspec; split; [lia|vm_compute; reflexivity]|].
  split; [apply Hspec; split; [lia|vm_compute; reflexivity]|].
  intros n [Hn Hcount]%Hspec.
  replace (count_email (VStr "c@x.com") (items three_items)) with 0 in Hcount
    by (vm_compute; reflexivity).
  lia.
Defined.

(** ** C6: the quantity threshold *)

Lemma item_serializer_quantity (d r : doc) :
  item_serializer (Some d) = Ok r → r !! "quantity" = d !! "quantity".
Proof.
  unfold item_serializer, getitem.
  destruct (d !! "_id"); [|done]. destruct (d !! "name"); [|done].
  destruct (d !! "email"); [|done]. destruct (d !! "item_name"); [|done].
  destruct (d !! "quantity"); [|done]. destruct (d !! "expiry_date"); [|done].
  destruct (d !! "insert_date"); [|done].
  cbn [rbind]. intros [= <-]. reflexivity.
Qed.

Lemma comprehension_Forall2 {A B} (f : A → result B) (xs : list A) (ys : list B) :
  comprehension f xs = Ok ys → Forall2 (λ x y, f x = Ok y) xs ys.
Proof.
  revert ys. induction xs as [|x xs IH]; intros ys; cbn.
  - intros [= <-]. constructor.
  - destruct (f x) as [y|] eqn:Hy; [|done]. cbn [rbind].
    destruct (comprehension f xs) as [ys'|]; [|done]. cbn [rbind].
    intros [= <-]. constructor; [done|by apply IH].
Qed.

Lemma comprehension_Ok {A B} (f : A → result B) (xs : list A) :
  Forall (λ x, ∃ y, f x = Ok y) xs →
  ∃ ys, comprehension f xs = Ok ys ∧ length ys = length xs.
Proof.
  induction 1 as [|x xs [y Hy] _ (ys & Hys & Hlen)]; cbn.
  - by exists [].
  - rewrite Hy, Hys. cbn [rbind]. exists (y :: ys). cbn [length]. auto.
Qed.

(** What [filter_items] does, given the query it builds. *)
Lemma filter_items_eq (email expiry_date_after insert_date_after : option string)
    (quantity_gte : option Z) (db : database) :
  filter_items email expiry_date_after insert_date_after quantity_gte db
  = (q <~ filter_items_query email expiry_date_after insert_date_after quantity_gte ;;
     docs <~ Collection.find q (items db) ;;
     comprehension (λ item, item_serializer (Some item)) (take 100 docs),
     db).
Proof.
  unfold filter_items, bind, lift, db.find, Collection.to_list. cbn [docs].
  destruct (filter_items_query _ _ _ _) as [q|]; [|done]. cbn [rbind].
  by destruct (Collection.find q (items db)).
Qed.

Lemma filter_clock_in_eq (email location insert_datetime_after : option string)
    (db : database) :
  filter_clock_in email location insert_datetime_after db
  = (q <~ filter_clock_in_query email location insert_datetime_after ;;
     docs <~ Collection.find q (clock_in_records db) ;;
     comprehension (λ record, clock_in_dict (Some record)) (take 100 docs),
     db).
Proof.
  unfold filter_clock_in, bind, lift, db.find, Collection.to_list. cbn [docs].
  destruct (filter_clock_in_query _ _ _) as [q|]; [|done]. cbn [rbind].
  by destruct (Collection.find q (clock_in_records db)).
Qed.

Lemma filter_items_database (email expiry_date_after insert_date_after : option string)
    (quantity_gte : option Z) (db : database) :
  (filter_items email expiry_date_after insert_date_after quantity_gte db).2 = db.
Proof. by rewrite filter_items_eq. Qed.

Lemma filter_clock_in_database (email location insert_datetime_after : option string)
    (db : database) :
  (filter_clock_in email location insert_datetime_after db).2 = db.
Proof. by rewrite filter_clock_in_eq. Qed.

Lemma matches_lookup (q : query) (d : doc) (k : string) (c : cond) :
  q !! k = Some c → matches q d = true → cond_holds c (d !! k) = true.
Proof.
  intros Hk Hm. apply bool_decide_eq_true_1 in Hm.
  apply Is_true_true. by apply (Hm k c).
Qed.

Lemma filter_items_query_quantity (email expiry_date_after insert_date_after : option string)
    (n : Z) (q : query) :
  n ≠ 0 →
  filter_items_query email expiry_date_after insert_date_after (Some n) = Ok q →
  q !! "quantity" = Some (CGte (VInt n)).
Proof.
  intros Hn. unfold filter_items_query.
  destruct (if str_bool expiry_date_after then _ else _) as [q1|]; [|done].
  cbn [rbind].
  destruct (if str_bool insert_date_after then _ else _) as [q2|]; [|done].
  cbn [rbind int_bool opt_int].
  rewrite (proj2 (Z.eqb_neq n 0)) by done. cbn [negb].
  intros [= <-]. apply lookup_insert_eq.
Qed.

(** A threshold other than zero is honoured: every record returned has a
    quantity that is an integer at least the threshold. *)
Lemma filter_items_quantity_sound
    (email expiry_date_after insert_date_after : option string) (n : Z)
    (db : database) (records : list doc) :
  n ≠ 0 →
  (filter_items email expiry_date_after insert_date_after (Some n) db).1 = Ok records →
  Forall (λ r : doc, ∃ m, r !! "quantity" = Some (VInt m) ∧ n ≤ m) records.
Proof.
  intros Hn. rewrite filter_items_eq. cbn [fst].
  destruct (filter_items_query _ _ _ _) as [q|] eqn:Hq; [|done]. cbn [rbind].
  apply filter_items_query_quantity in Hq; [|done].
  unfold Collection.find. destruct (query_encodable q); [|done]. cbn [rbind].
  intros Hser%comprehension_Forall2.
  assert (Hdocs : Forall (λ d : doc, matches q d = true)
                    (take 100 (List.filter (matches q) (items db)))).
  { apply Forall_take, Forall_forall. intros d Hd%list_elem_of_In.
    by apply List.filter_In in Hd as [_ Hd]. }
  induction Hser as [|d r ds rs Hr _ IH]; [constructor|].
  apply Forall_cons in Hdocs as [Hd Hdocs]. constructor; [|by apply IH].
  rewrite (item_serializer_quantity d r Hr).
  pose proof (matches_lookup q d "quantity" _ Hq Hd) as Hc.
  unfold cond_holds in Hc.
  destruct (d !! "quantity") as [[| |m| |]|]; cbn in Hc; try done.
  exists m. split; [done|].
  destruct (m ?= n) eqn:Hcmp; try done.
  - apply Z.compare_eq in Hcmp. lia.
  - apply Z.compare_gt_iff in Hcmp. lia.
Qed.

Lemma zero_threshold_computed :
  match (filter_items None None None (Some 0) minus_one_db).1 with
  | Ok [record] => record !! "quantity" = Some (VInt (-1))
  | _ => False
  end.
Proof. vm_compute. reflexivity. Qed.

(** C6, where the code departs from it: a threshold of zero adds nothing
    to the query, and the filter returns the item whose quantity is minus
    one. *)
Theorem filter_items_zero_threshold :
  filter_items_query None None None (Some 0) = Ok ∅ ∧
  ∃ record,
    filter_items None None None (Some 0) minus_one_db = (Ok [record], minus_one_db) ∧
    record !! "quantity" = Some (VInt (-1)).
Proof.
  split; [reflexivity|].
  pose proof zero_threshold_computed as H.
  pose proof (filter_items_database None None None (Some 0) minus_one_db) as Hdb.
  destruct (filter_items None None None (Some 0) minus_one_db) as [r db'].
  cbn [fst snd] in H, Hdb. rewrite Hdb.
  destruct r as [[|record [|? ?]]|]; try contradiction.
  exists record. split; [reflexivity|exact H].
Qed.

(** ** C9: parameters that are given but false *)

(** C9.  The filters test their parameters for truth: an empty string for
    [email], [location] or a date parameter and a zero for [quantity_gte]
    give the very outcome of the same request without that parameter, for
    every database and whatever the other parameters. *)
Theorem falsy_parameter_is_absent
    (email expiry_date_after insert_date_after location insert_datetime_after
       : option string)
    (quantity_gte : option Z) (db : database) :
  filter_items (Some "") expiry_date_after insert_date_after quantity_gte db
  = filter_items None expiry_date_after insert_date_after quantity_gte db ∧
  filter_items email (Some "") insert_date_after quantity_gte db
  = filter_items email None insert_date_after quantity_gte db ∧
  filter_items email expiry_date_after (Some "") quantity_gte db
  = filter_items email expiry_date_after None quantity_gte db ∧
  filter_items email expiry_date_after insert_date_after (Some 0) db
  = filter_items email expiry_date_after insert_date_after None db ∧
  filter_clock_in (Some "") location insert_datetime_after db
  = filter_clock_in None location insert_datetime_after db ∧
  filter_clock_in email (Some "") insert_datetime_after db
  = filter_clock_in email None insert_datetime_after db ∧
  filter_clock_in email location (Some "") db
  = filter_clock_in email location None db ∧
  filter_items_query (Some "") (Some "") (Some "") (Some 0) = Ok ∅ ∧
  filter_clock_in_query (Some "") (Some "") (Some "") = Ok ∅.
Proof. repeat split. Qed.

(** ** C8: at most a hundred records, none is not an error *)

Lemma item_serializer_complete (d : doc) :
  complete item_keys d → ∃ r, item_serializer (Some d) = Ok r.
Proof.
  unfold complete, item_keys. rewrite !Forall_cons.
  intros ([? H1] & [? H2] & [? H3] & [? H4] & [? H5] & [? H6] & [? H7] & _).
  unfold item_serializer, getitem. rewrite H1, H2, H3, H4, H5, H6, H7.
  cbn [rbind]. eauto.
Qed.

Lemma clock_in_dict_complete (d : doc) :
  complete clock_in_keys d → ∃ r, clock_in_dict (Some d) = Ok r.
Proof.
  unfold complete, clock_in_keys. rewrite !Forall_cons.
  intros ([? H1] & [? H2] & [? H3] & [? H4] & _).
  unfold clock_in_dict, getitem. rewrite H1, H2, H3, H4.
  cbn [rbind]. eauto.
Qed.

Lemma filter_none (p : doc → bool) (c : list doc) :
  Forall (λ d, p d = false) c → List.filter p c = [].
Proof. induction 1 as [|d c Hd _ IH]; cbn; [done|]. by rewrite Hd. Qed.

(** The shared part of the two filters: find, cut at a hundred, convert. *)
Lemma find_cap (f : option doc → result doc) (keys : list string) (q : query)
    (c : list doc) :
  let r := docs <~ Collection.find q c ;; comprehension (λ d, f (Some d)) (take 100 docs) in
  (∀ records, r = Ok records → (length records ≤ 100)%nat) ∧
  (query_encodable q = true →
     (Forall (λ d, matches q d = false) c → r = Ok []) ∧
     ((∀ d, complete keys d → ∃ x, f (Some d) = Ok x) →
      Forall (complete keys) c →
      ∃ records, r = Ok records ∧
        length records = (100 `min` length (List.filter (matches q) c))%nat)).
Proof.
  cbv zeta. unfold Collection.find. split.
  - intros records. destruct (query_encodable q); [|done]. cbn [rbind].
    intros H%comprehension_Forall2%Forall2_length.
    rewrite <- H, length_take. lia.
  - intros ->. cbn [rbind]. split.
    + intros Hnone. by rewrite filter_none.
    + intros Hf Hc.
      destruct (comprehension_Ok (λ d, f (Some d))
                  (take 100 (List.filter (matches q) c))) as (records & Hr & Hlen).
      * apply Forall_take, Forall_forall. intros d Hd%list_elem_of_In.
        apply List.filter_In in Hd as [Hd _]. apply Hf.
        rewrite Forall_forall in Hc. by apply Hc, list_elem_of_In.
      * exists records. split; [done|]. by rewrite Hlen, length_take.
Qed.

(** C8, in the form that holds of the code.  Either filter leaves the
    database as it is; when it returns, it
    returns at most a hundred records; when the query it builds matches
    no document it returns the empty list, not an error; and it does
    return, the first hundred matches or all of them when there are
    fewer, whenever the dates of the request parse, its numbers fit BSON
    and the documents of the collection have all their fields. *)
Theorem filter_returns_at_most_100 (db : database) :
  (∀ email expiry_date_after insert_date_after quantity_gte,
     let r := filter_items email expiry_date_after insert_date_after quantity_gte db in
     r.2 = db ∧
     (∀ records, r.1 = Ok records → (length records ≤ 100)%nat) ∧
     ∀ q,
       filter_items_query email expiry_date_after insert_date_after quantity_gte = Ok q →
       query_encodable q = true →
       (Forall (λ d, matches q d = false) (items db) → r.1 = Ok []) ∧
       (Forall (complete item_keys) (items db) →
        ∃ records, r.1 = Ok records ∧
          length records
          = (100 `min` length (List.filter (matches q) (items db)))%nat)) ∧
  (∀ email location insert_datetime_after,
     let r := filter_clock_in email location insert_datetime_after db in
     r.2 = db ∧
     (∀ records, r.1 = Ok records → (length records ≤ 100)%nat) ∧
     ∀ q,
       filter_clock_in_query email location insert_datetime_after = Ok q →
       query_encodable q = true →
       (Forall (λ d, matches q d = false) (clock_in_records db) → r.1 = Ok []) ∧
       (Forall (complete clock_in_keys) (clock_in_records db) →
        ∃ records, r.1 = Ok records ∧
          length records
          = (100 `min` length (List.filter (matches q) (clock_in_records db)))%nat)).
Proof.
  split.
  - intros email expiry_date_after insert_date_after quantity_gte r. subst r.
    rewrite filter_items_eq. cbn [fst snd]. split; [done|].
    destruct (filter_items_query _ _ _ _) as [q|]; [|by split]. cbn [rbind].
    destruct (find_cap item_serializer item_keys q (items db)) as [Hcap Hrest].
    split; [exact Hcap|]. intros q' [= <-] Henc.
    destruct (Hrest Henc) as [Hnone Hsome]. split; [exact Hnone|].
    apply Hsome, item_serializer_complete.
  - intros email location insert_datetime_after r. subst r.
    rewrite filter_clock_in_eq. cbn [fst snd]. split; [done|].
    destruct (filter_clock_in_query _ _ _) as [q|]; [|by split]. cbn [rbind].
    destruct (find_cap clock_in_dict clock_in_keys q (clock_in_records db))
      as [Hcap Hrest].
    split; [exact Hcap|]. intros q' [= <-] Henc.
    destruct (Hrest Henc) as [Hnone Hsome]. split; [exact Hnone|].
    apply Hsome, clock_in_dict_complete.
Qed.

(** No item of the sample has a quantity of four or more. *)
Lemma filter_returns_at_most_100_witness :
  filter_items_query None (Some "2024-01-01") None (Some 4)
  = Ok {[ "expiry_date" := CGt (VDate (datetime.mk 2024 1 1 0 0 0 0));
          "quantity" := CGte (VInt 4) ]} ∧
  (filter_items None (Some "2024-01-01") None (Some 4) sample_db).1 = Ok [].
Proof.
  assert (Hq : filter_items_query None (Some "2024-01-01") None (Some 4)
               = Ok {[ "expiry_date" := CGt (VDate (datetime.mk 2024 1 1 0 0 0 0));
                       "quantity" := CGte (VInt 4) ]}).
  { vm_compute. reflexivity. }
  split; [exact Hq|].
  destruct (filter_returns_at_most_100 sample_db) as [H _].
  destruct (H None (Some "2024-01-01") None (Some 4)) as (_ & _ & Hrest).
  destruct (Hrest _ Hq) as [Hnone _]; [vm_compute; reflexivity|].
  apply Hnone. repeat constructor.
Defined.

(** On the empty store no record matches, whatever the request; yet a
    threshold of 2^63, which is no BSON integer, and a date in the wrong
    format are answered with an exception (500), not with the empty
    list. *)
Lemma filter_of_nothing_can_fail :
  items empty_db = [] ∧ clock_in_records empty_db = [] ∧
  filter_items None None None (Some (2 ^ 63)) empty_db = (Raise OverflowError, empty_db) ∧
  filter_items None (Some "01/02/2025") None None empty_db = (Raise ValueError, empty_db) ∧
  filter_clock_in None None (Some "2025-01-01") empty_db = (Raise ValueError, empty_db) ∧
  (filter_items None None None (Some (2 ^ 63)) empty_db).1 ≠ Ok [] ∧
  status_of (filter_items None None None (Some (2 ^ 63)) empty_db).1 = 500.
Proof.
  assert (H : filter_items None None None (Some (2 ^ 63)) empty_db
              = (Raise OverflowError, empty_db)) by (vm_compute; reflexivity).
  split; [reflexivity|]. split; [reflexivity|]. split; [exact H|].
  split; [vm_compute; reflexivity|]. split; [vm_compute; reflexivity|].
  rewrite H. cbn [fst]. split; [discriminate|reflexivity].
Qed.

(** ** C7: delete *)

Lemma without_absent (o : ObjectId) (c : list doc) : absent o c → without o c = c.
Proof.
  induction 1 as [|d c Hd _ IH]; [done|].
  unfold without in *. cbn. rewrite has_id_false by done. cbn. by rewrite IH.
Qed.

Lemma absent_without (o : ObjectId) (c : list doc) : absent o (without o c).
Proof.
  apply Forall_forall. intros d Hd%list_elem_of_In.
  apply List.filter_In in Hd as [_ Hd]. apply negb_true_iff in Hd.
  by apply bool_decide_eq_false_1 in Hd.
Qed.

Lemma remove_first_present (o : ObjectId) (c : list doc) :
  unique_ids c → present o c →
  Collection.remove_first (matches {[ "_id" := CEq (VOid o) ]}) c = Some (without o c).
Proof.
  unfold unique_ids. induction c as [|d c IH]; intros Hnd (d' & Hin & Hid).
  - by apply elem_of_nil in Hin.
  - cbn [fmap list_fmap] in Hnd. apply NoDup_cons in Hnd as [Hd Hnd].
    cbn [Collection.remove_first]. rewrite matches_id.
    unfold without. cbn [List.filter].
    destruct (Collection.has_id o d) eqn:Hhas.
    + cbn [negb]. f_equal. symmetry. apply without_absent.
      apply bool_decide_eq_true_1 in Hhas.
      apply Forall_forall. intros d'' Hin'' Hid''. apply Hd.
      rewrite Hhas, <- Hid''. apply list_elem_of_fmap. eauto.
    + cbn [negb]. apply elem_of_cons in Hin as [->|Hin].
      * apply bool_decide_eq_false_1 in Hhas. done.
      * rewrite IH; [done|done|]. by exists d'.
Qed.

Lemma delete_one_present (c : collection) (o : ObjectId) (db : database) :
  unique_ids (docs c db) → present o (docs c db) →
  db.delete_one c {[ "_id" := CEq (VOid o) ]} db
  = (Ok 1, with_docs c (without o (docs c db)) db).
Proof.
  intros Hnd Hin. unfold db.delete_one, Collection.delete_one.
  by rewrite id_query_encodable, remove_first_present.
Qed.

(** C7, in the form that holds of the code.  For a well-formed identifier
    string: when a record of
    the collection has the identifier (identifiers being unique), delete
    returns the confirmation message and leaves the collection without
    that record and otherwise as it was, so that a second delete of the
    same id fails with the [HTTPException] of status 204; when no record
    has it, delete fails in that way at once and the database is
    unchanged.  (A string that is no identifier is not answered in this
    way, see [by_id_failures].) *)
Theorem delete_by_id (id : string) (o : ObjectId) (db : database) :
  well_formed id o →
  (unique_ids (items db) → present o (items db) →
     let db' := mkdb (without o (items db)) (clock_in_records db) in
     delete_item id db = (Ok item_deleted, db') ∧
     absent o (items db') ∧
     delete_item id db' = (Raise item_not_found, db')) ∧
  (absent o (items db) → delete_item id db = (Raise item_not_found, db)) ∧
  (unique_ids (clock_in_records db) → present o (clock_in_records db) →
     let db' := mkdb (items db) (without o (clock_in_records db)) in
     delete_clock_in id db = (Ok clock_in_deleted, db') ∧
     absent o (clock_in_records db') ∧
     delete_clock_in id db' = (Raise clock_in_not_found, db')) ∧
  (absent o (clock_in_records db) →
     delete_clock_in id db = (Raise clock_in_not_found, db)) ∧
  status_of (@Raise doc item_not_found) = 204.
Proof.
  intros [Hid _].
  split; [|split; [|split; [|split]]].
  - intros Hnd Hin db'. subst db'.
    assert (Habs : absent o (without o (items db))) by apply absent_without.
    split; [|split; [exact Habs|]].
    + unfold delete_item, bind, lift. rewrite Hid.
      by rewrite (delete_one_present Items).
    + by apply (delete_item_absent id o).
  - by apply delete_item_absent.
  - intros Hnd Hin db'. subst db'.
    assert (Habs : absent o (without o (clock_in_records db))) by apply absent_without.
    split; [|split; [exact Habs|]].
    + unfold delete_clock_in, bind, lift. rewrite Hid.
      by rewrite (delete_one_present ClockIn).
    + by apply (delete_clock_in_absent id o).
  - by apply delete_clock_in_absent.
  - reflexivity.
Qed.

Lemma delete_by_id_witness :
  well_formed id_a oid_a ∧ unique_ids (items sample_db) ∧ present oid_a (items sample_db) ∧
  delete_item id_a sample_db = (Ok item_deleted, empty_db) ∧
  delete_item id_a empty_db = (Raise item_not_found, empty_db).
Proof.
  assert (Hwf : well_formed id_a oid_a) by (split; reflexivity).
  assert (Hnd : unique_ids (items sample_db)).
  { unfold unique_ids. apply NoDup_singleton. }
  assert (Hin : present oid_a (items sample_db)).
  { eexists. split; [apply list_elem_of_here|]. vm_compute. reflexivity. }
  split; [exact Hwf|]. split; [exact Hnd|]. split; [exact Hin|].
  destruct (delete_by_id id_a oid_a sample_db Hwf) as (Hdel & _).
  destruct (Hdel Hnd Hin) as (H1 & _ & H2).
  split; [exact H1|exact H2].
Defined.

(** Deleting ["abc"], which matches no record, is answered with the
    unhandled [InvalidId] (500) and not with the 204 of a record that is
    not found. *)
Lemma delete_of_a_malformed_id :
  absent (bson.mkObjectId "abc") (items sample_db) ∧
  (∀ d, d ∈ items sample_db → d !! "_id" ≠ Some (VStr "abc")) ∧
  delete_item "abc" sample_db = (Raise InvalidId, sample_db) ∧
  delete_clock_in "abc" sample_db = (Raise InvalidId, sample_db) ∧
  status_of (delete_item "abc" sample_db).1 = 500 ∧
  (delete_item "abc" sample_db).1 ≠ Raise item_not_found.
Proof.
  split; [repeat constructor; vm_compute; discriminate|].
  split.
  { intros d Hd%list_elem_of_singleton. subst d. vm_compute. discriminate. }
  split; [reflexivity|]. split; [reflexivity|]. split; [reflexivity|].
  discriminate.
Qed.

(** ** C10: an update that provides nothing *)

Lemma update_one_empty (c : collection) (q : query) (db : database) :
  query_encodable q = true →
  db.update_one true c q ∅ db = (Raise WriteError, db).
Proof.
  intros Hq. unfold db.update_one, Collection.update_one. by rewrite Hq.
Qed.

(** C10, in the form that holds of the code.  With a well-formed
    identifier string, an update
    whose fields are all omitted or null computes an empty set of fields
    and calls [update_one] with it; a server that refuses an empty [$set]
    answers with [WriteError], which nothing catches: the request ends in
    a 500 and not in the unchanged record, and the database is as it was.
    (With a string that is no identifier, [InvalidId] is raised before any
    call to the store.) *)
Theorem empty_update_is_refused (id : string) (o : ObjectId) (db : database) :
  well_formed id o →
  update_item_data no_item_fields = Ok ∅ ∧
  update_clock_in_data no_clock_in_fields = ∅ ∧
  (∀ c, db.update_one true c {[ "_id" := CEq (VOid o) ]} ∅ db = (Raise WriteError, db)) ∧
  update_item true id no_item_fields db = (Raise WriteError, db) ∧
  update_clock_in true id no_clock_in_fields db = (Raise WriteError, db) ∧
  status_of (@Raise doc WriteError) = 500.
Proof.
  intros [Hid _].
  assert (Hitem : update_item_data no_item_fields = Ok ∅) by reflexivity.
  assert (Hclock : update_clock_in_data no_clock_in_fields = ∅) by reflexivity.
  split; [exact Hitem|]. split; [exact Hclock|].
  split; [intros c; apply update_one_empty, id_query_encodable|].
  split; [|split; [|reflexivity]].
  - unfold update_item, bind, lift. rewrite Hitem, Hid.
    by rewrite update_one_empty by apply id_query_encodable.
  - unfold update_clock_in, bind, lift. rewrite Hclock, Hid.
    by rewrite update_one_empty by apply id_query_encodable.
Qed.

Lemma empty_update_is_refused_witness :
  well_formed id_a oid_a ∧
  update_item true id_a no_item_fields sample_db = (Raise WriteError, sample_db).
Proof.
  assert (Hwf : well_formed id_a oid_a) by (split; reflexivity).
  split; [exact Hwf|].
  destruct (empty_update_is_refused id_a oid_a sample_db Hwf) as (_ & _ & _ & H & _).
  exact H.
Defined.

(** With ["abc"] for an id, the update that provides nothing never calls
    the store: [ObjectId] raises [InvalidId], which is no fault of the
    store. *)
Lemma empty_update_of_a_malformed_id :
  update_item_data no_item_fields = Ok ∅ ∧
  bson.ObjectId_of "abc" = Raise InvalidId ∧
  update_item true "abc" no_item_fields sample_db = (Raise InvalidId, sample_db) ∧
  update_clock_in true "abc" no_clock_in_fields sample_db = (Raise InvalidId, sample_db) ∧
  (update_item true "abc" no_item_fields sample_db).1 ≠ Raise WriteError.
Proof.
  assert (H : update_item true "abc" no_item_fields sample_db
              = (Raise InvalidId, sample_db)) by reflexivity.
  split; [reflexivity|]. split; [reflexivity|]. split; [exact H|].
  split; [reflexivity|]. rewrite H. cbn [fst]. discriminate.
Qed.

(** On a server that takes an empty [$set] as a no-op, the same request
    returns the record as it is. *)
Example empty_update_on_a_lenient_server :
  match (update_item false id_a no_item_fields sample_db).1 with
  | Ok record => record !! "quantity" = Some (VInt 3)
  | Raise _ => False
  end.
Proof. vm_compute. reflexivity. Qed.

(** ** The items collection keeps its shape

    The properties above assume unique identifiers and complete
    documents.  The empty collection has both, and the three handlers that
    write to the collection preserve both. *)

Lemma complete_email (d : doc) : complete item_keys d → has_email d.
Proof.
  unfold complete, item_keys. rewrite !Forall_cons. intros (_ & _ & H & _). exact H.
Qed.

Lemma create_item_database (utcnow : datetime.t) (new_id : ObjectId) (item : Item.t)
    (db : database) :
  (create_item utcnow new_id item db).2 = db
  ∨ ∃ dt,
      absent new_id (items db) ∧
      (create_item utcnow new_id item db).2
      = mkdb (items db ++ [stored_item utcnow new_id item dt]) (clock_in_records db).
Proof.
  unfold create_item, bind, lift.
  destruct (datetime.strptime _ _) as [dt|]; [|by left].
  unfold db.insert_one, Collection.insert_one. cbn [docs].
  destruct (negb _); [by left|].
  destruct (existsb _ _) eqn:Hex; [by left|].
  right. exists dt. split.
  - apply Forall_forall. intros d Hd Hid.
    assert (Hhas : existsb (Collection.has_id new_id) (items db) = true).
    { apply existsb_exists. exists d. split; [by apply list_elem_of_In|].
      by apply bool_decide_eq_true_2. }
    congruence.
  - cbn [with_docs]. by rewrite find_one_id.
Qed.

Lemma stored_item_complete (utcnow dt : datetime.t) (new_id : ObjectId) (item : Item.t) :
  complete item_keys (stored_item utcnow new_id item dt).
Proof.
  unfold complete, item_keys, stored_item.
  repeat (apply Forall_cons; split; [rewrite lookup_fmap; by eexists|]).
  constructor.
Qed.

Lemma create_item_keeps_store (utcnow : datetime.t) (new_id : ObjectId) (item : Item.t)
    (db : database) :
  item_store (items db) → item_store (items (create_item utcnow new_id item db).2).
Proof.
  intros [Hnd Hc].
  destruct (create_item_database utcnow new_id item db) as [->|(dt & Habs & ->)];
    [by split|].
  cbn [items]. split.
  - unfold unique_ids. rewrite fmap_app. apply NoDup_app. split; [exact Hnd|]. split.
    + intros x Hx Hx'. apply list_elem_of_singleton in Hx'. subst x.
      apply list_elem_of_fmap in Hx as (d & Hd & Hin).
      unfold absent in Habs. rewrite Forall_forall in Habs. apply (Habs d Hin).
      rewrite <- Hd. unfold stored_item. by rewrite lookup_fmap.
    + apply NoDup_singleton.
  - apply Forall_app. split; [exact Hc|].
    constructor; [apply stored_item_complete|constructor].
Qed.

Lemma remove_first_keeps_store (p : doc → bool) (c l : list doc) :
  Collection.remove_first p c = Some l → item_store c → item_store l.
Proof.
  unfold item_store, unique_ids. revert l.
  induction c as [|d c IH]; intros l Hl [Hnd Hc]; [done|].
  cbn [fmap list_fmap] in Hnd. apply NoDup_cons in Hnd as [Hd Hnd].
  apply Forall_cons in Hc as [Hcd Hc].
  cbn in Hl. destruct (p d).
  - injection Hl as <-. by split.
  - destruct (Collection.remove_first p c) as [l'|] eqn:Hl'; [|done].
    injection Hl as <-. destruct (IH l' eq_refl) as [Hnd' Hc']; [by split|].
    split; [|by constructor].
    cbn [fmap list_fmap]. apply NoDup_cons. split; [|exact Hnd'].
    intros Hin. apply Hd.
    apply list_elem_of_fmap in Hin as (d' & Hd' & Hin).
    apply list_elem_of_fmap. exists d'. split; [exact Hd'|].
    clear -Hl' Hin. revert l' Hl' Hin.
    induction c as [|x c IHc]; intros l' Hl' Hin; [done|].
    cbn in Hl'. destruct (p x).
    + injection Hl' as <-. by apply elem_of_cons; right.
    + destruct (Collection.remove_first p c) as [l''|]; [|done].
      injection Hl' as <-. apply elem_of_cons in Hin as [->|Hin].
      * apply list_elem_of_here.
      * apply elem_of_cons. right. by apply (IHc l'').
Qed.

Lemma delete_item_keeps_store (id : string) (db : database) :
  item_store (items db) → item_store (items (delete_item id db).2).
Proof.
  intros Hstore. unfold delete_item, bind, lift.
  destruct (bson.ObjectId_of id) as [o|]; [|done].
  unfold db.delete_one, Collection.delete_one. cbn [docs].
  destruct (negb _); [done|].
  destruct (Collection.remove_first _ _) as [l|] eqn:Hl.
  - cbn. by eapply remove_first_keeps_store.
  - cbn. by destruct db.
Qed.

Lemma update_first_keeps_complete (keys : list string) (p : doc → bool)
    (fields : doc) (c l : list doc) :
  Collection.update_first p (λ d, fields ∪ d) c = Some l →
  Forall (complete keys) c → Forall (complete keys) l.
Proof.
  revert l. induction c as [|d c IH]; intros l Hl Hc; [done|].
  apply Forall_cons in Hc as [Hd Hc]. cbn in Hl. destruct (p d).
  - injection Hl as <-. constructor; [|exact Hc].
    unfold complete in *. eapply Forall_impl; [exact Hd|].
    intros k [v Hv]. cbv beta. apply lookup_union_is_Some. right. by exists v.
  - destruct (Collection.update_first _ _ c) as [l'|]; [|done].
    injection Hl as <-. constructor; [exact Hd|by apply IH].
Qed.

Lemma keeps_ids (c l : list doc) :
  keeps "_id" c l → (λ d : doc, d !! "_id") <$> l = (λ d : doc, d !! "_id") <$> c.
Proof. induction 1 as [|d d' c l Hd _ IH]; [done|]. cbn. by rewrite Hd, IH. Qed.

Lemma update_item_keeps_store rej (id : string) (u : UpdateItem.t) (db : database) :
  item_store (items db) → item_store (items (update_item rej id u db).2).
Proof.
  intros [Hnd Hc]. split.
  - unfold unique_ids. rewrite (keeps_ids (items db)); [exact Hnd|].
    destruct (update_item_frame rej id u db) as [_ Hframe].
    eapply only_changes_keeps; [|exact Hframe].
    apply not_provided_None. by left.
  - destruct (update_item_database rej id u db)
      as [->|(fields & o & n & l & _ & Hupd & ->)]; [exact Hc|].
    cbn [items]. unfold Collection.update_one in Hupd.
    destruct (negb _); [done|]. destruct (_ && _); [done|].
    destruct (Collection.update_first _ _ _) as [l'|] eqn:Hl'.
    + injection Hupd as _ <-. by eapply update_first_keeps_complete.
    + by injection Hupd as _ <-.
Qed.

Lemma empty_item_store : item_store (items empty_db).
Proof. split; [apply NoDup_nil_2|constructor]. Qed.

(** * Further properties of the handlers *)

(** ** The first document with an identifier *)

Lemma head_filter_split (o : ObjectId) (c1 c2 : list doc) (d : doc) :
  absent o c1 → d !! "_id" = Some (VOid o) →
  head (List.filter (Collection.has_id o) (c1 ++ d :: c2)) = Some d.
Proof.
  intros Habs Hd. rewrite List.filter_app, absent_filter by exact Habs.
  cbn [app List.filter]. unfold Collection.has_id at 1.
  rewrite bool_decide_eq_true_2 by exact Hd. reflexivity.
Qed.

Lemma update_first_split (o : ObjectId) (f : doc → doc) (c1 c2 : list doc) (d : doc) :
  absent o c1 → d !! "_id" = Some (VOid o) →
  Collection.update_first (matches {[ "_id" := CEq (VOid o) ]}) f (c1 ++ d :: c2)
  = Some (c1 ++ f d :: c2)%list.
Proof.
  intros Habs Hd. induction Habs as [|x c1 Hx _ IH]; cbn.
  - rewrite matches_id. unfold Collection.has_id.
    by rewrite bool_decide_eq_true_2 by exact Hd.
  - rewrite matches_id, has_id_false by exact Hx. by rewrite IH.
Qed.

Lemma remove_first_split (o : ObjectId) (c1 c2 : list doc) (d : doc) :
  absent o c1 → d !! "_id" = Some (VOid o) →
  Collection.remove_first (matches {[ "_id" := CEq (VOid o) ]}) (c1 ++ d :: c2)
  = Some (c1 ++ c2)%list.
Proof.
  intros Habs Hd. induction Habs as [|x c1 Hx _ IH]; cbn.
  - rewrite matches_id. unfold Collection.has_id.
    by rewrite bool_decide_eq_true_2 by exact Hd.
  - rewrite matches_id, has_id_false by exact Hx. by rewrite IH.
Qed.

Lemma doc_bool_with_id (d : doc) (v : value) :
  d !! "_id" = Some v → doc_bool (Some d) = true.
Proof.
  intros Hd. cbn [doc_bool]. rewrite bool_decide_eq_false_2; [done|].
  intros ->. by rewrite lookup_empty in Hd.
Qed.

(** ** Clock-in records: create, then get *)

Lemma clock_in_data_encodable (utcnow : datetime.t) (new_id : ObjectId)
    (clock_in : ClockInRecord.t) :
  doc_encodable (<["_id" := VOid new_id]>
                   (<["insert_datetime" := VDate utcnow]> (ClockInRecord.dict clock_in)))
  = true.
Proof.
  apply bool_decide_eq_true_2.
  repeat apply map_Forall_insert_2; try exact I. apply map_Forall_empty.
Qed.


Lemma stored_clock_in_id (utcnow : datetime.t) (new_id : ObjectId)
    (clock_in : ClockInRecord.t) :
  stored_clock_in utcnow new_id clock_in !! "_id" = Some (VOid new_id).
Proof. unfold stored_clock_in. by rewrite lookup_fmap. Qed.

Lemma create_clock_in_ok (utcnow : datetime.t) (new_id : ObjectId)
    (clock_in : ClockInRecord.t) (db : database) :
  absent new_id (clock_in_records db) →
  create_clock_in utcnow new_id clock_in db
  = (clock_in_dict (Some (stored_clock_in utcnow new_id clock_in)),
     mkdb (items db) (clock_in_records db ++ [stored_clock_in utcnow new_id clock_in])).
Proof.
  intros Habs.
  unfold create_clock_in, bind, lift, db.insert_one, Collection.insert_one.
  cbn [docs]. rewrite clock_in_data_encodable, existsb_has_id_absent by exact Habs.
  cbn [negb with_docs]. rewrite find_one_id. cbn [docs clock_in_records].
  fold (stored_clock_in utcnow new_id clock_in).
  by rewrite head_filter_split by (exact Habs || apply stored_clock_in_id).
Qed.



(** ** Update of a record that exists *)

Lemma drop_none_lookup (body : doc) (k : string) :
  drop_none body !! k
  = match body !! k with
    | Some v => if decide (v = VNone) then None else Some v
    | None => None
    end.
Proof.
  unfold drop_none. rewrite map_lookup_filter.
  destruct (body !! k) as [v|]; [|reflexivity]. cbn.
  destruct (decide (v = VNone)) as [->|Hv].
  - by rewrite option_guard_False by (cbn; congruence).
  - by rewrite option_guard_True by (cbn; congruence).
Qed.

Lemma drop_none_opt_str (body : doc) (k : string) (o : option string) :
  body !! k = Some (opt_str o) → drop_none body !! k = VStr <$> o.
Proof. intros H. rewrite drop_none_lookup, H. by destruct o. Qed.

Lemma drop_none_opt_int (body : doc) (k : string) (o : option Z) :
  body !! k = Some (opt_int o) → drop_none body !! k = VInt <$> o.
Proof. intros H. rewrite drop_none_lookup, H. by destruct o. Qed.

(** The fields that [update_item] sets, given the request. *)
Lemma update_item_data_fields (u : UpdateItem.t) (fields : doc) :
  update_item_data u = Ok fields →
  fields !! "name" = VStr <$> UpdateItem.name u ∧
  fields !! "email" = VStr <$> UpdateItem.email u ∧
  fields !! "item_name" = VStr <$> UpdateItem.item_name u ∧
  fields !! "quantity" = VInt <$> UpdateItem.quantity u ∧
  match UpdateItem.expiry_date u with
  | Some s => ∃ dt, datetime.strptime s "%Y-%m-%d" = Ok dt ∧
                    fields !! "expiry_date" = Some (VDate dt)
  | None => fields !! "expiry_date" = None
  end ∧
  fields !! "insert_date" = None ∧ fields !! "_id" = None.
Proof.
  destruct (UpdateItem_dict_lookup u) as (Ln & Le & Li & Lq & Lx).
  apply drop_none_opt_str in Ln, Le, Li, Lx. apply drop_none_opt_int in Lq.
  assert (Lins : drop_none (UpdateItem.dict u) !! "insert_date" = None).
  { rewrite drop_none_lookup. reflexivity. }
  assert (Lid : drop_none (UpdateItem.dict u) !! "_id" = None).
  { rewrite drop_none_lookup. reflexivity. }
  unfold update_item_data. rewrite Lx.
  remember (drop_none (UpdateItem.dict u)) as m eqn:Hm. clear Hm.
  destruct (UpdateItem.expiry_date u) as [s|]; cbn [fmap option_fmap option_map].
  - cbn [strptime_value]. destruct (datetime.strptime s "%Y-%m-%d") as [dt|]; [|done].
    cbn [rbind]. intros Hf.
    assert (Hfields : fields = <["expiry_date" := VDate dt]> m) by congruence.
    clear Hf. subst fields.
    rewrite !lookup_insert_ne by discriminate. rewrite lookup_insert_eq.
    repeat (split; [assumption|]). split; [exists dt; split; reflexivity|].
    split; rewrite lookup_insert_ne by discriminate; assumption.
  - intros Hf.
    assert (Hfields : fields = m) by congruence.
    clear Hf. subst fields. repeat (split; [assumption|]). assumption.
Qed.

Lemma update_item_data_encodable (u : UpdateItem.t) (fields : doc) :
  update_item_data u = Ok fields →
  (∀ q, UpdateItem.quantity u = Some q → - 2 ^ 63 ≤ q < 2 ^ 63) →
  doc_encodable fields = true.
Proof.
  intros Hu Hq. apply bool_decide_eq_true_2. intros k v Hk.
  destruct v as [| |q| |]; try exact I.
  cbn. apply Is_true_true, andb_true_intro.
  enough (- 2 ^ 63 ≤ q < 2 ^ 63) by (split; lia).
  apply Hq.
  assert (Hprov : provided (UpdateItem.dict u) k).
  { eapply update_item_data_provided; [exact Hu|by eexists]. }
  destruct (update_item_data_fields u fields Hu) as (Ln & Le & Li & Lq & Lx & _).
  destruct (UpdateItem_dict_lookup u) as (Dn & De & Di & Dq & Dx).
  destruct (decide (k = "quantity")) as [->|Hne].
  - rewrite Hk in Lq. by destruct (UpdateItem.quantity u) as [q'|]; inversion Lq.
  - exfalso. destruct (decide (k = "name")) as [->|?];
      [rewrite Hk in Ln; by destruct (UpdateItem.name u)|].
    destruct (decide (k = "email")) as [->|?];
      [rewrite Hk in Le; by destruct (UpdateItem.email u)|].
    destruct (decide (k = "item_name")) as [->|?];
      [rewrite Hk in Li; by destruct (UpdateItem.item_name u)|].
    destruct (decide (k = "expiry_date")) as [->|?].
    { destruct (UpdateItem.expiry_date u); [|congruence].
      destruct Lx as (dt & _ & Lx). congruence. }
    destruct Hprov as (w & Hw & _). unfold UpdateItem.dict in Hw.
    repeat (rewrite lookup_insert_ne in Hw by congruence).
    apply lookup_singleton_Some in Hw as [Hw _]. congruence.
Qed.

Lemma item_serializer_lookup (d r : doc) :
  item_serializer (Some d) = Ok r →
  (∃ v, d !! "_id" = Some v ∧ r !! "id" = Some (VStr (py_str v))) ∧
  Forall (λ k, r !! k = d !! k) item_fields.
Proof.
  unfold item_serializer, getitem.
  destruct (d !! "_id") as [v|] eqn:Hid; [|done].
  destruct (d !! "name") eqn:H1; [|done].
  destruct (d !! "email") eqn:H2; [|done].
  destruct (d !! "item_name") eqn:H3; [|done].
  destruct (d !! "quantity") eqn:H4; [|done].
  destruct (d !! "expiry_date") eqn:H5; [|done].
  destruct (d !! "insert_date") eqn:H6; [|done].
  cbn [rbind]. intros [= <-]. split; [by exists v|].
  unfold item_fields.
  repeat (apply Forall_cons; split;
          [first [by rewrite H1|by rewrite H2|by rewrite H3|by rewrite H4
                 |by rewrite H5|by rewrite H6]|]).
  apply Forall_nil_2.
Qed.

Lemma set_fields_lookup (fields d : doc) (k : string) :
  set_fields fields d !! k
  = match fields !! k with Some v => Some (to_bson v) | None => d !! k end.
Proof.
  unfold set_fields. destruct (fields !! k) as [v|] eqn:Hk.
  - apply lookup_union_Some_l. by rewrite lookup_fmap, Hk.
  - apply lookup_union_r. by rewrite lookup_fmap, Hk.
Qed.

Lemma set_fields_complete (keys : list string) (fields d : doc) :
  complete keys d → complete keys (set_fields fields d).
Proof.
  unfold complete. intros Hd. eapply Forall_impl; [exact Hd|].
  intros k [v Hv]. cbv beta.
  rewrite set_fields_lookup, Hv. destruct (fields !! k); by eexists.
Qed.

Lemma update_item_data_ok (u : UpdateItem.t) :
  (∀ s, UpdateItem.expiry_date u = Some s → matches_format s "%Y-%m-%d") →
  ∃ fields, update_item_data u = Ok fields.
Proof.
  intros Hdate. unfold update_item_data.
  destruct (UpdateItem_dict_lookup u) as (_ & _ & _ & _ & Lx).
  apply drop_none_opt_str in Lx. rewrite Lx.
  remember (drop_none (UpdateItem.dict u)) as m eqn:Hm. clear Hm Lx.
  destruct (UpdateItem.expiry_date u) as [s|];
    cbn [fmap option_fmap option_map strptime_value].
  - destruct (Hdate s eq_refl) as [dt ->]. cbn [rbind]. eexists. reflexivity.
  - eexists. reflexivity.
Qed.

(** The outcome of an update of a document that is there. *)
Lemma update_item_present rej (id : string) (o : ObjectId) (u : UpdateItem.t)
    (fields : doc) (c1 c2 : list doc) (d : doc) (clock_ins : list doc) :
  bson.ObjectId_of id = Ok o →
  absent o c1 → d !! "_id" = Some (VOid o) →
  update_item_data u = Ok fields → doc_encodable fields = true →
  (rej = true → fields ≠ ∅) → fields !! "_id" = None →
  update_item rej id u (mkdb (c1 ++ d :: c2) clock_ins)
  = (item_serializer (Some (set_fields fields d)),
     mkdb (c1 ++ set_fields fields d :: c2) clock_ins).
Proof.
  intros Hid Habs Hd Hu Henc Hne Hnoid.
  unfold update_item, bind, lift. rewrite Hu, Hid.
  unfold db.update_one, Collection.update_one. cbn [docs items].
  rewrite id_query_encodable, Henc. cbn [andb negb].
  assert (Hempty : rej && bool_decide (fields = ∅) = false).
  { destruct rej; [|done]. cbn. apply bool_decide_eq_false_2. by apply Hne. }
  rewrite Hempty, update_first_split by assumption.
  fold (set_fields fields d). cbn [with_docs Z.eqb negb].
  rewrite find_one_id. cbn [docs items].
  rewrite head_filter_split; [done|exact Habs|].
  by rewrite set_fields_lookup, Hnoid.
Qed.

(** X2.  A partial update of an item that is in the collection, addressed
    by its well-formed id, with a date that parses and a quantity that
    fits BSON (and at least one field if the server refuses an empty
    update), succeeds: it returns a record with the same id in which every
    field the request provides has the new value, the [expiry_date] as a
    parsed date, and every other field is as it was; the document is
    replaced in place, the other documents and the other collection are
    untouched, and a get by that id returns the same record. *)
Theorem update_item_sets_fields rej (id : string) (o : ObjectId) (u : UpdateItem.t)
    (c1 c2 : list doc) (d : doc) (clock_ins : list doc) :
  well_formed id o →
  absent o c1 → d !! "_id" = Some (VOid o) → complete item_keys d →
  (∀ s, UpdateItem.expiry_date u = Some s → matches_format s "%Y-%m-%d") →
  (∀ q, UpdateItem.quantity u = Some q → - 2 ^ 63 ≤ q < 2 ^ 63) →
  (rej = true → u ≠ no_item_fields) →
  ∃ (record d' : doc),
    let db' := mkdb (c1 ++ d' :: c2) clock_ins in
    update_item rej id u (mkdb (c1 ++ d :: c2) clock_ins) = (Ok record, db') ∧
    get_item id db' = (Ok record, db') ∧
    record !! "id" = Some (VStr (bson.str o)) ∧
    (∀ s, UpdateItem.name u = Some s → record !! "name" = Some (VStr s)) ∧
    (∀ s, UpdateItem.email u = Some s → record !! "email" = Some (VStr s)) ∧
    (∀ s, UpdateItem.item_name u = Some s → record !! "item_name" = Some (VStr s)) ∧
    (∀ q, UpdateItem.quantity u = Some q → record !! "quantity" = Some (VInt q)) ∧
    (∀ s dt, UpdateItem.expiry_date u = Some s →
       datetime.strptime s "%Y-%m-%d" = Ok dt →
       record !! "expiry_date" = Some (VDate dt)) ∧
    (UpdateItem.name u = None → record !! "name" = d !! "name") ∧
    (UpdateItem.email u = None → record !! "email" = d !! "email") ∧
    (UpdateItem.item_name u = None → record !! "item_name" = d !! "item_name") ∧
    (UpdateItem.quantity u = None → record !! "quantity" = d !! "quantity") ∧
    (UpdateItem.expiry_date u = None → record !! "expiry_date" = d !! "expiry_date") ∧
    record !! "insert_date" = d !! "insert_date".
Proof.
  intros [Hid _] Habs Hd Hcomplete Hdate Hq Hne.
  assert (Hfields : ∃ fields, update_item_data u = Ok fields)
    by (by apply update_item_data_ok).
  destruct Hfields as [fields Hu].
  destruct (update_item_data_fields u fields Hu) as (Ln & Le & Li & Lq & Lx & Lins & Lid).
  assert (Hnonempty : rej = true → fields ≠ ∅).
  { clear -Ln Le Li Lq Lx Hne. intros Hrej Hempty. apply (Hne Hrej). subst fields.
    unfold no_item_fields. destruct u as [n e i q x].
    cbn [UpdateItem.name UpdateItem.email UpdateItem.item_name UpdateItem.quantity
         UpdateItem.expiry_date] in *.
    destruct n; [rewrite lookup_empty in Ln; discriminate Ln|].
    destruct e; [rewrite lookup_empty in Le; discriminate Le|].
    destruct i; [rewrite lookup_empty in Li; discriminate Li|].
    destruct q; [rewrite lookup_empty in Lq; discriminate Lq|].
    destruct x; [|reflexivity].
    destruct Lx as (dt & _ & Lx). rewrite lookup_empty in Lx. discriminate Lx. }
  pose proof (update_item_data_encodable u fields Hu Hq) as Henc.
  destruct (item_serializer_complete (set_fields fields d)) as [record Hrecord];
    [by apply set_fields_complete|].
  destruct (item_serializer_lookup _ _ Hrecord) as [(v & Hv & Hrid) Hrest].
  unfold item_fields in Hrest. rewrite !Forall_cons in Hrest.
  destruct Hrest as (Rn & Re & Ri & Rq & Rx & Rins & _).
  rewrite set_fields_lookup in Rn, Re, Ri, Rq, Rx, Rins, Hv.
  rewrite Lid, Hd in Hv. injection Hv as <-.
  exists record, (set_fields fields d). cbv zeta.
  split; [by rewrite (update_item_present rej id o u fields), Hrecord|].
  split.
  { unfold get_item, bind, lift. rewrite Hid, find_one_id. cbn [docs items].
    rewrite head_filter_split;
      [|exact Habs|by rewrite set_fields_lookup, Lid].
    rewrite (doc_bool_with_id _ (VOid o)) by (by rewrite set_fields_lookup, Lid).
    by rewrite Hrecord. }
  split; [exact Hrid|].
  rewrite Ln in Rn. rewrite Le in Re. rewrite Li in Ri. rewrite Lq in Rq.
  rewrite Lins in Rins.
  split; [by intros s Hs; rewrite Hs in Rn|].
  split; [by intros s Hs; rewrite Hs in Re|].
  split; [by intros s Hs; rewrite Hs in Ri|].
  split; [by intros q Hq'; rewrite Hq' in Rq|].
  split.
  { intros s dt Hs Hdt. rewrite Hs in Lx. destruct Lx as (dt' & Hdt' & Lx).
    rewrite Lx in Rx. rewrite Rx. cbn [to_bson].
    assert (dt' = dt) by congruence. subst dt'.
    change (Some (to_bson (VDate dt)) = Some (VDate dt)).
    by rewrite to_bson_date by (by eapply strptime_microsecond). }
  split; [by intros Hs; rewrite Hs in Rn|].
  split; [by intros Hs; rewrite Hs in Re|].
  split; [by intros Hs; rewrite Hs in Ri|].
  split; [by intros Hs; rewrite Hs in Rq|].
  split; [|exact Rins].
  intros Hs. rewrite Hs in Lx. by rewrite Lx in Rx.
Qed.

Lemma update_item_sets_fields_witness :
  ∃ record d',
    update_item true id_a (UpdateItem.mk None None None (Some 7) None)
      (mkdb [stored_pen] [])
    = (Ok record, mkdb [d'] []) ∧
    record !! "quantity" = Some (VInt 7) ∧
    record !! "name" = Some (VStr "Ann").
Proof.
  destruct (update_item_sets_fields true id_a oid_a
              (UpdateItem.mk None None None (Some 7) None) [] [] stored_pen [])
    as (record & d' & Hupd & _ & _ & _ & _ & _ & Hq & _ & Hn & _).
  - split; reflexivity.
  - constructor.
  - reflexivity.
  - apply stored_item_complete.
  - intros s Hs. discriminate Hs.
  - intros q Hq. injection Hq as <-. lia.
  - intros _ H. discriminate H.
  - exists record, d'. split; [exact Hupd|]. split; [by apply Hq|].
    rewrite (Hn eq_refl). reflexivity.
Defined.

Lemma update_clock_in_data_fields (u : UpdateClockInRecord.t) :
  update_clock_in_data u !! "email" = VStr <$> UpdateClockInRecord.email u ∧
  update_clock_in_data u !! "location" = VStr <$> UpdateClockInRecord.location u ∧
  update_clock_in_data u !! "insert_datetime" = None ∧
  update_clock_in_data u !! "_id" = None.
Proof.
  unfold update_clock_in_data.
  split; [by apply drop_none_opt_str|]. split; [by apply drop_none_opt_str|].
  split; by rewrite drop_none_lookup.
Qed.

Lemma update_clock_in_data_encodable (u : UpdateClockInRecord.t) :
  doc_encodable (update_clock_in_data u) = true.
Proof.
  apply bool_decide_eq_true_2. intros k v Hk.
  assert (Hprov : provided (UpdateClockInRecord.dict u) k).
  { apply drop_none_provided. by eexists. }
  destruct Hprov as (w & Hw & _).
  unfold update_clock_in_data in Hk. rewrite drop_none_lookup, Hw in Hk.
  destruct (decide (w = VNone)); [discriminate Hk|]. injection Hk as ->.
  unfold UpdateClockInRecord.dict in Hw.
  apply lookup_insert_Some in Hw as [[_ <-]|[_ Hw]];
    [by destruct (UpdateClockInRecord.email u)|].
  apply lookup_singleton_Some in Hw as [_ <-].
  by destruct (UpdateClockInRecord.location u).
Qed.

Lemma clock_in_dict_lookup (d r : doc) :
  clock_in_dict (Some d) = Ok r →
  (∃ v, d !! "_id" = Some v ∧ r !! "id" = Some (VStr (py_str v))) ∧
  Forall (λ k, r !! k = d !! k) clock_in_fields.
Proof.
  unfold clock_in_dict, getitem.
  destruct (d !! "_id") as [v|] eqn:Hid; [|done].
  destruct (d !! "email") eqn:H1; [|done].
  destruct (d !! "location") eqn:H2; [|done].
  destruct (d !! "insert_datetime") eqn:H3; [|done].
  cbn [rbind]. intros [= <-]. split; [by exists v|].
  unfold clock_in_fields.
  repeat (apply Forall_cons; split;
          [first [by rewrite H1|by rewrite H2|by rewrite H3]|]).
  apply Forall_nil_2.
Qed.

(** X3.  A partial update of a clock-in record that is in the collection,
    addressed by its well-formed id (with at least one field if the server
    refuses an empty update), succeeds: the record returned has the same
    id, the new value of each field the request provides and the old value
    of the others, [insert_datetime] among them; the document is replaced
    in place, nothing else changes, and a get by that id returns the same
    record. *)
Theorem update_clock_in_sets_fields rej (id : string) (o : ObjectId)
    (u : UpdateClockInRecord.t) (c1 c2 : list doc) (d : doc) (the_items : list doc) :
  well_formed id o →
  absent o c1 → d !! "_id" = Some (VOid o) → complete clock_in_keys d →
  (rej = true → u ≠ no_clock_in_fields) →
  ∃ (record d' : doc),
    let db' := mkdb the_items (c1 ++ d' :: c2) in
    update_clock_in rej id u (mkdb the_items (c1 ++ d :: c2)) = (Ok record, db') ∧
    get_clock_in id db' = (Ok record, db') ∧
    record !! "id" = Some (VStr (bson.str o)) ∧
    (∀ s, UpdateClockInRecord.email u = Some s → record !! "email" = Some (VStr s)) ∧
    (∀ s, UpdateClockInRecord.location u = Some s →
       record !! "location" = Some (VStr s)) ∧
    (UpdateClockInRecord.email u = None → record !! "email" = d !! "email") ∧
    (UpdateClockInRecord.location u = None → record !! "location" = d !! "location") ∧
    record !! "insert_datetime" = d !! "insert_datetime".
Proof.
  intros [Hid _] Habs Hd Hcomplete Hne.
  destruct (update_clock_in_data_fields u) as (Le & Ll & Lins & Lid).
  pose proof (update_clock_in_data_encodable u) as Henc.
  remember (update_clock_in_data u) as fields eqn:Hfields.
  assert (Hnonempty : rej && bool_decide (fields = ∅) = false).
  { destruct rej; [|reflexivity]. cbn [andb]. apply bool_decide_eq_false_2.
    clear -Le Ll Hne. intros Hempty. apply Hne; [reflexivity|]. subst fields.
    unfold no_clock_in_fields. destruct u as [e l].
    cbn [UpdateClockInRecord.email UpdateClockInRecord.location] in *.
    destruct e; [rewrite lookup_empty in Le; discriminate Le|].
    destruct l; [rewrite lookup_empty in Ll; discriminate Ll|]. reflexivity. }
  assert (Hid' : set_fields fields d !! "_id" = Some (VOid o))
    by (by rewrite set_fields_lookup, Lid).
  destruct (clock_in_dict_complete (set_fields fields d)) as [record Hrecord];
    [by apply set_fields_complete|].
  destruct (clock_in_dict_lookup _ _ Hrecord) as [(v & Hv & Hrid) Hrest].
  unfold clock_in_fields in Hrest. rewrite !Forall_cons in Hrest.
  destruct Hrest as (Re & Rl & Rins & _).
  rewrite set_fields_lookup in Re, Rl, Rins.
  rewrite Hid' in Hv. injection Hv as <-.
  assert (Hget : get_clock_in id (mkdb the_items (c1 ++ set_fields fields d :: c2))
                 = (Ok record, mkdb the_items (c1 ++ set_fields fields d :: c2))).
  { unfold get_clock_in, bind, lift. rewrite Hid, find_one_id.
    cbn [docs clock_in_records].
    rewrite head_filter_split by assumption.
    rewrite (doc_bool_with_id _ (VOid o)) by exact Hid'. by rewrite Hrecord. }
  exists record, (set_fields fields d). cbv zeta. split.
  { unfold update_clock_in, bind, lift. rewrite <- Hfields, Hid.
    unfold db.update_one, Collection.update_one. cbn [docs clock_in_records].
    rewrite id_query_encodable, Henc. cbn [andb negb].
    rewrite Hnonempty, update_first_split by assumption.
    fold (set_fields fields d). cbn [with_docs Z.eqb negb items].
    rewrite find_one_id. cbn [docs clock_in_records].
    rewrite head_filter_split by assumption. by rewrite Hrecord. }
  split; [exact Hget|]. split; [exact Hrid|].
  rewrite Le in Re. rewrite Ll in Rl. rewrite Lins in Rins.
  split; [by intros s Hs; rewrite Hs in Re|].
  split; [by intros s Hs; rewrite Hs in Rl|].
  split; [by intros Hs; rewrite Hs in Re|].
  split; [by intros Hs; rewrite Hs in Rl|].
  exact Rins.
Qed.

Lemma update_clock_in_sets_fields_witness :
  ∃ record d',
    update_clock_in true id_a (UpdateClockInRecord.mk None (Some "home"))
      (mkdb [] [stored_ann])
    = (Ok record, mkdb [] [d']) ∧
    record !! "location" = Some (VStr "home") ∧
    record !! "email" = Some (VStr "a@x.com").
Proof.
  destruct (update_clock_in_sets_fields true id_a oid_a
              (UpdateClockInRecord.mk None (Some "home")) [] [] stored_ann [])
    as (record & d' & Hupd & _ & _ & _ & Hl & He & _).
  - split; reflexivity.
  - constructor.
  - reflexivity.
  - unfold complete, clock_in_keys, stored_ann, stored_clock_in.
    repeat (apply Forall_cons; split; [rewrite lookup_fmap; by eexists|]).
    constructor.
  - intros _ H. discriminate H.
  - exists record, d'. split; [exact Hupd|]. split; [by apply Hl|].
    rewrite (He eq_refl). reflexivity.
Defined.

(** ** Handlers that only read, and the other collection *)

Lemma get_item_database (id : string) (db : database) : (get_item id db).2 = db.
Proof.
  unfold get_item, bind, lift.
  destruct (bson.ObjectId_of id) as [o|]; [|reflexivity].
  rewrite find_one_id. destruct (doc_bool _); reflexivity.
Qed.

Lemma get_clock_in_database (id : string) (db : database) :
  (get_clock_in id db).2 = db.
Proof.
  unfold get_clock_in, bind, lift.
  destruct (bson.ObjectId_of id) as [o|]; [|reflexivity].
  rewrite find_one_id. destruct (doc_bool _); reflexivity.
Qed.

(** X4.  The handlers that read never write: get by id, filter and
    aggregate leave the database exactly as it was, whatever the request
    and whether they return or raise. *)
Theorem reading_handlers_leave_the_database (db : database) :
  (∀ id, (get_item id db).2 = db) ∧
  (∀ id, (get_clock_in id db).2 = db) ∧
  (∀ email expiry_date_after insert_date_after quantity_gte,
     (filter_items email expiry_date_after insert_date_after quantity_gte db).2 = db) ∧
  (∀ email location insert_datetime_after,
     (filter_clock_in email location insert_datetime_after db).2 = db) ∧
  (aggregate_items db).2 = db.
Proof.
  split; [intros id; apply get_item_database|].
  split; [intros id; apply get_clock_in_database|].
  split; [intros; apply filter_items_database|].
  split; [intros; apply filter_clock_in_database|].
  reflexivity.
Qed.

Lemma delete_item_other (id : string) (db : database) :
  clock_in_records (delete_item id db).2 = clock_in_records db.
Proof.
  unfold delete_item, bind, lift.
  destruct (bson.ObjectId_of id) as [o|]; [|reflexivity].
  unfold db.delete_one. destruct (Collection.delete_one _ _) as [[n l]|]; [|reflexivity].
  cbn [docs with_docs]. destruct (negb (n =? 0)); reflexivity.
Qed.

Lemma delete_clock_in_other (id : string) (db : database) :
  items (delete_clock_in id db).2 = items db.
Proof.
  unfold delete_clock_in, bind, lift.
  destruct (bson.ObjectId_of id) as [o|]; [|reflexivity].
  unfold db.delete_one. destruct (Collection.delete_one _ _) as [[n l]|]; [|reflexivity].
  cbn [docs with_docs]. destruct (negb (n =? 0)); reflexivity.
Qed.

Lemma create_clock_in_database (utcnow : datetime.t) (new_id : ObjectId)
    (clock_in : ClockInRecord.t) (db : database) :
  (create_clock_in utcnow new_id clock_in db).2 = db
  ∨ absent new_id (clock_in_records db) ∧
    (create_clock_in utcnow new_id clock_in db).2
    = mkdb (items db) (clock_in_records db ++ [stored_clock_in utcnow new_id clock_in]).
Proof.
  unfold create_clock_in, bind, lift.
  unfold db.insert_one, Collection.insert_one. cbn [docs].
  destruct (negb _); [by left|].
  destruct (existsb _ _) eqn:Hex; [by left|].
  right. split.
  - apply Forall_forall. intros d Hd Hid.
    assert (Hhas : existsb (Collection.has_id new_id) (clock_in_records db) = true).
    { apply existsb_exists. exists d. split; [by apply list_elem_of_In|].
      by apply bool_decide_eq_true_2. }
    congruence.
  - cbn [with_docs]. by rewrite find_one_id.
Qed.

Lemma create_item_other (utcnow : datetime.t) (new_id : ObjectId) (item : Item.t)
    (db : database) :
  clock_in_records (create_item utcnow new_id item db).2 = clock_in_records db.
Proof.
  by destruct (create_item_database utcnow new_id item db) as [->|(dt & _ & ->)].
Qed.

Lemma create_clock_in_other (utcnow : datetime.t) (new_id : ObjectId)
    (clock_in : ClockInRecord.t) (db : database) :
  items (create_clock_in utcnow new_id clock_in db).2 = items db.
Proof.
  by destruct (create_clock_in_database utcnow new_id clock_in db) as [->|[_ ->]].
Qed.

(** X5.  The two collections are independent: creating, updating or
    deleting an item never changes the clock-in records, and creating,
    updating or deleting a clock-in record never changes the items,
    whatever the request and whether the handler returns or raises. *)
Theorem writers_leave_the_other_collection rej (db : database) :
  (∀ utcnow new_id item,
     clock_in_records (create_item utcnow new_id item db).2 = clock_in_records db) ∧
  (∀ id u, clock_in_records (update_item rej id u db).2 = clock_in_records db) ∧
  (∀ id, clock_in_records (delete_item id db).2 = clock_in_records db) ∧
  (∀ utcnow new_id clock_in,
     items (create_clock_in utcnow new_id clock_in db).2 = items db) ∧
  (∀ id u, items (update_clock_in rej id u db).2 = items db) ∧
  (∀ id, items (delete_clock_in id db).2 = items db).
Proof.
  split; [intros utcnow new_id item; apply create_item_other|].
  split; [intros id u; apply update_item_frame|].
  split; [intros id; apply delete_item_other|].
  split; [intros utcnow new_id clock_in; apply create_clock_in_other|].
  split; [intros id u; apply update_clock_in_frame|].
  intros id. apply delete_clock_in_other.
Qed.

(** ** What the filters return *)

Lemma filter_items_query_steps
    (email expiry_date_after insert_date_after : option string)
    (quantity_gte : option Z) :
  filter_items_query email expiry_date_after insert_date_after quantity_gte
  = (q <~ date_step "expiry_date" "%Y-%m-%d" expiry_date_after (eq_step "email" email ∅) ;;
     q <~ date_step "insert_date" "%Y-%m-%d" insert_date_after q ;;
     Ok (gte_step "quantity" quantity_gte q)).
Proof. reflexivity. Qed.

Lemma filter_clock_in_query_steps (email location insert_datetime_after : option string) :
  filter_clock_in_query email location insert_datetime_after
  = date_step "insert_datetime" "%Y-%m-%dT%H:%M:%S" insert_datetime_after
      (eq_step "location" location (eq_step "email" email ∅)).
Proof. reflexivity. Qed.

Lemma eq_step_lookup (key : string) (p : option string) (q : query) :
  (∀ k, k ≠ key → eq_step key p q !! k = q !! k) ∧
  (∀ s, p = Some s → s ≠ "" → eq_step key p q !! key = Some (CEq (VStr s))).
Proof.
  unfold eq_step. split.
  - intros k Hk. destruct (str_bool p); [|reflexivity].
    apply lookup_insert_ne. intros Heq. apply Hk. by symmetry.
  - intros s -> Hs. cbn [str_bool opt_str].
    rewrite bool_decide_eq_false_2 by exact Hs. apply lookup_insert_eq.
Qed.

Lemma date_step_lookup (key format : string) (p : option string) (q q' : query) :
  date_step key format p q = Ok q' →
  (∀ k, k ≠ key → q' !! k = q !! k) ∧
  (∀ s, p = Some s → s ≠ "" →
     ∃ dt, datetime.strptime s format = Ok dt ∧ q' !! key = Some (CGt (VDate dt))).
Proof.
  unfold date_step. destruct p as [s|]; cbn [str_bool opt_str strptime_value].
  - destruct (decide (s = "")) as [->|Hs].
    + rewrite bool_decide_eq_true_2 by reflexivity. cbn [negb].
      intros Hq. assert (q' = q) by congruence. subst q'.
      split; [reflexivity|]. intros s [= <-] Hne. by destruct Hne.
    + rewrite bool_decide_eq_false_2 by exact Hs. cbn [negb].
      destruct (datetime.strptime s format) as [dt|] eqn:Hdt; [|discriminate].
      cbn [rbind]. intros Hq.
      assert (q' = <[key := CGt (VDate dt)]> q) by congruence. subst q'.
      split.
      * intros k Hk. apply lookup_insert_ne. intros Heq. apply Hk. by symmetry.
      * intros s' [= <-] _. exists dt. split; [exact Hdt|apply lookup_insert_eq].
  - intros Hq. assert (q' = q) by congruence. subst q'.
    split; [reflexivity|]. intros s Hs. discriminate Hs.
Qed.

Lemma gte_step_lookup (key : string) (p : option Z) (q : query) :
  (∀ k, k ≠ key → gte_step key p q !! k = q !! k) ∧
  (∀ n, p = Some n → n ≠ 0 → gte_step key p q !! key = Some (CGte (VInt n))).
Proof.
  unfold gte_step. split.
  - intros k Hk. destruct (int_bool p); [|reflexivity].
    apply lookup_insert_ne. intros Heq. apply Hk. by symmetry.
  - intros n -> Hn. cbn [int_bool opt_int].
    rewrite (proj2 (Z.eqb_neq n 0)) by exact Hn. apply lookup_insert_eq.
Qed.

(** The conditions of the query that [filter_items] builds. *)
Lemma filter_items_query_conditions
    (email expiry_date_after insert_date_after : option string)
    (quantity_gte : option Z) (q : query) :
  filter_items_query email expiry_date_after insert_date_after quantity_gte = Ok q →
  (∀ s, email = Some s → s ≠ "" → q !! "email" = Some (CEq (VStr s))) ∧
  (∀ s, expiry_date_after = Some s → s ≠ "" →
     ∃ dt, datetime.strptime s "%Y-%m-%d" = Ok dt ∧
           q !! "expiry_date" = Some (CGt (VDate dt))) ∧
  (∀ s, insert_date_after = Some s → s ≠ "" →
     ∃ dt, datetime.strptime s "%Y-%m-%d" = Ok dt ∧
           q !! "insert_date" = Some (CGt (VDate dt))) ∧
  (∀ n, quantity_gte = Some n → n ≠ 0 → q !! "quantity" = Some (CGte (VInt n))).
Proof.
  rewrite filter_items_query_steps.
  destruct (date_step "expiry_date" _ _ _) as [q1|] eqn:H1; [|discriminate].
  cbn [rbind].
  destruct (date_step "insert_date" _ _ _) as [q2|] eqn:H2; [|discriminate].
  cbn [rbind]. intros Hq.
  assert (q = gte_step "quantity" quantity_gte q2) by congruence. subst q.
  destruct (eq_step_lookup "email" email ∅) as [_ E0].
  destruct (date_step_lookup _ _ _ _ _ H1) as [N1 E1].
  destruct (date_step_lookup _ _ _ _ _ H2) as [N2 E2].
  destruct (gte_step_lookup "quantity" quantity_gte q2) as [N3 E3].
  split.
  { intros s Hs Hne. rewrite N3, N2, N1 by discriminate. by apply E0. }
  split.
  { intros s Hs Hne. destruct (E1 s Hs Hne) as (dt & Hdt & Hl). exists dt.
    split; [exact Hdt|]. by rewrite N3, N2 by discriminate. }
  split.
  { intros s Hs Hne. destruct (E2 s Hs Hne) as (dt & Hdt & Hl). exists dt.
    split; [exact Hdt|]. by rewrite N3 by discriminate. }
  exact E3.
Qed.

Lemma filter_clock_in_query_conditions
    (email location insert_datetime_after : option string) (q : query) :
  filter_clock_in_query email location insert_datetime_after = Ok q →
  (∀ s, email = Some s → s ≠ "" → q !! "email" = Some (CEq (VStr s))) ∧
  (∀ s, location = Some s → s ≠ "" → q !! "location" = Some (CEq (VStr s))) ∧
  (∀ s, insert_datetime_after = Some s → s ≠ "" →
     ∃ dt, datetime.strptime s "%Y-%m-%dT%H:%M:%S" = Ok dt ∧
           q !! "insert_datetime" = Some (CGt (VDate dt))).
Proof.
  rewrite filter_clock_in_query_steps. intros H.
  destruct (eq_step_lookup "email" email ∅) as [_ E0].
  destruct (eq_step_lookup "location" location (eq_step "email" email ∅)) as [N1 E1].
  destruct (date_step_lookup _ _ _ _ _ H) as [N2 E2].
  split.
  { intros s Hs Hne. rewrite N2, N1 by discriminate. by apply E0. }
  split.
  { intros s Hs Hne. rewrite N2 by discriminate. by apply E1. }
  exact E2.
Qed.

Lemma cond_holds_eq_str (s : string) (field : option value) :
  cond_holds (CEq (VStr s)) field = true → field = Some (VStr s).
Proof.
  unfold cond_holds. intros H%bool_decide_eq_true_1.
  destruct field as [v|]; cbn in H; [by subst|discriminate].
Qed.

Lemma cond_holds_gt_date (dt : datetime.t) (field : option value) :
  cond_holds (CGt (VDate dt)) field = true →
  ∃ x, field = Some (VDate x) ∧ datetime.compare x dt = Gt.
Proof.
  unfold cond_holds.
  destruct field as [[| | |x|]|]; cbn -[datetime.compare]; try discriminate.
  destruct (datetime.compare x dt) eqn:Hc; try discriminate.
  intros _. exists x. split; [reflexivity|exact Hc].
Qed.

(** The documents behind the records of a listing: each record is the
    image of a document of the collection that matches the query. *)
Lemma listing_documents (f : option doc → result doc) (q : query) (c : list doc)
    (records : list doc) :
  (docs <~ Collection.find q c ;; comprehension (λ d, f (Some d)) (take 100 docs))
  = Ok records →
  Forall (λ r, ∃ d, d ∈ c ∧ matches q d = true ∧ f (Some d) = Ok r) records.
Proof.
  unfold Collection.find. destruct (query_encodable q); [|discriminate].
  cbn [rbind]. intros Hser%comprehension_Forall2.
  assert (Hdocs : Forall (λ d : doc, d ∈ c ∧ matches q d = true)
                    (take 100 (List.filter (matches q) c))).
  { apply Forall_take, Forall_forall. intros d Hd%list_elem_of_In.
    apply List.filter_In in Hd as [Hin Hd]. split; [by apply list_elem_of_In|exact Hd]. }
  induction Hser as [|d r ds rs Hr _ IH]; [constructor|].
  apply Forall_cons in Hdocs as [[Hin Hd] Hdocs].
  constructor; [by exists d|by apply IH].
Qed.

(** X6.  Every record that the item filter returns satisfies every
    condition of the request that is given with a value that counts: its
    [email] is the non-empty [email] asked for, its [expiry_date] and
    [insert_date] are dates strictly later than the non-empty dates asked
    for (a record dated that very instant is left out), and its [quantity]
    is at least the non-zero threshold. *)
Theorem filter_items_sound
    (email expiry_date_after insert_date_after : option string)
    (quantity_gte : option Z) (db : database) (records : list doc) :
  (filter_items email expiry_date_after insert_date_after quantity_gte db).1
  = Ok records →
  (∀ s, email = Some s → s ≠ "" →
     Forall (λ r : doc, r !! "email" = Some (VStr s)) records) ∧
  (∀ s, expiry_date_after = Some s → s ≠ "" →
     ∃ dt, datetime.strptime s "%Y-%m-%d" = Ok dt ∧
           Forall (later_than "expiry_date" dt) records) ∧
  (∀ s, insert_date_after = Some s → s ≠ "" →
     ∃ dt, datetime.strptime s "%Y-%m-%d" = Ok dt ∧
           Forall (later_than "insert_date" dt) records) ∧
  (∀ n, quantity_gte = Some n → n ≠ 0 →
     Forall (λ r : doc, ∃ m, r !! "quantity" = Some (VInt m) ∧ n ≤ m) records).
Proof.
  intros Hrecords.
  assert (Hquantity : ∀ n, quantity_gte = Some n → n ≠ 0 →
            Forall (λ r : doc, ∃ m, r !! "quantity" = Some (VInt m) ∧ n ≤ m) records).
  { intros n -> Hn. by eapply filter_items_quantity_sound. }
  rewrite filter_items_eq in Hrecords. cbn [fst] in Hrecords.
  destruct (filter_items_query _ _ _ _) as [q|] eqn:Hq; [|discriminate].
  cbn [rbind] in Hrecords. apply listing_documents in Hrecords.
  destruct (filter_items_query_conditions _ _ _ _ _ Hq) as (Qe & Qx & Qi & _).
  assert (Hfield : ∀ k c, k ∈ item_fields → q !! k = Some c →
            Forall (λ r : doc, cond_holds c (r !! k) = true) records).
  { intros k c Hk Hc. eapply Forall_impl; [exact Hrecords|].
    intros r (d & _ & Hm & Hr). cbv beta.
    destruct (item_serializer_lookup d r Hr) as [_ Hsame].
    rewrite Forall_forall in Hsame. rewrite (Hsame k Hk).
    by apply (matches_lookup q d k c). }
  split.
  { intros s Hs Hne. eapply Forall_impl; [apply (Hfield "email"); [|by apply Qe]|].
    - unfold item_fields. apply elem_of_cons. right. apply list_elem_of_here.
    - intros r. apply cond_holds_eq_str. }
  split.
  { intros s Hs Hne. destruct (Qx s Hs Hne) as (dt & Hdt & Hl). exists dt.
    split; [exact Hdt|].
    eapply Forall_impl; [apply (Hfield "expiry_date"); [|exact Hl]|].
    - unfold item_fields. do 4 (apply elem_of_cons; right). apply list_elem_of_here.
    - intros r. apply cond_holds_gt_date. }
  split; [|exact Hquantity].
  intros s Hs Hne. destruct (Qi s Hs Hne) as (dt & Hdt & Hl). exists dt.
  split; [exact Hdt|].
  eapply Forall_impl; [apply (Hfield "insert_date"); [|exact Hl]|].
  - unfold item_fields. do 5 (apply elem_of_cons; right). apply list_elem_of_here.
  - intros r. apply cond_holds_gt_date.
Qed.

Lemma filter_items_sound_witness :
  ∃ records,
    (filter_items (Some "a@x.com") (Some "2025-01-01") None (Some 4) three_items).1
    = Ok records ∧
    length records = 1%nat ∧
    Forall (λ r : doc, r !! "email" = Some (VStr "a@x.com")) records ∧
    Forall (later_than "expiry_date" (datetime.mk 2025 1 1 0 0 0 0)) records ∧
    Forall (λ r : doc, ∃ m, r !! "quantity" = Some (VInt m) ∧ 4 ≤ m) records.
Proof.
  assert (Hc : match (filter_items (Some "a@x.com") (Some "2025-01-01") None (Some 4)
                        three_items).1 with
               | Ok l => length l = 1%nat
               | Raise _ => False
               end) by (vm_compute; reflexivity).
  destruct (filter_items (Some "a@x.com") (Some "2025-01-01") None (Some 4)
              three_items).1 as [records|] eqn:H; [|contradiction].
  destruct (filter_items_sound _ _ _ _ _ _ H) as (He & Hx & _ & Hq).
  exists records. split; [reflexivity|]. split; [exact Hc|].
  split; [by apply He|]. split; [|apply Hq; [reflexivity|lia]].
  destruct (Hx "2025-01-01" eq_refl) as (dt & Hdt & Hl); [discriminate|].
  assert (dt = datetime.mk 2025 1 1 0 0 0 0).
  { change (datetime.strptime "2025-01-01" "%Y-%m-%d")
      with (@Ok datetime.t (datetime.mk 2025 1 1 0 0 0 0)) in Hdt. congruence. }
  by subst dt.
Defined.

Lemma clock_in_listing_same (d r : doc) (k : string) :
  clock_in_dict (Some d) = Ok r → k ∈ clock_in_fields → r !! k = d !! k.
Proof.
  intros Hr Hk. destruct (clock_in_dict_lookup d r Hr) as [_ Hsame].
  rewrite Forall_forall in Hsame. by apply Hsame.
Qed.

(** X7.  Every record that the clock-in filter returns satisfies every
    condition of the request that is given with a non-empty value: its
    [email] and its [location] are the ones asked for and its
    [insert_datetime] is strictly later than the time asked for, which is
    read in the format with the [T] between date and time. *)
Theorem filter_clock_in_sound (email location insert_datetime_after : option string)
    (db : database) (records : list doc) :
  (filter_clock_in email location insert_datetime_after db).1 = Ok records →
  (∀ s, email = Some s → s ≠ "" →
     Forall (λ r : doc, r !! "email" = Some (VStr s)) records) ∧
  (∀ s, location = Some s → s ≠ "" →
     Forall (λ r : doc, r !! "location" = Some (VStr s)) records) ∧
  (∀ s, insert_datetime_after = Some s → s ≠ "" →
     ∃ dt, datetime.strptime s "%Y-%m-%dT%H:%M:%S" = Ok dt ∧
           Forall (later_than "insert_datetime" dt) records).
Proof.
  intros Hrecords.
  rewrite filter_clock_in_eq in Hrecords. cbn [fst] in Hrecords.
  destruct (filter_clock_in_query _ _ _) as [q|] eqn:Hq; [|discriminate].
  cbn [rbind] in Hrecords. apply listing_documents in Hrecords.
  destruct (filter_clock_in_query_conditions _ _ _ _ Hq) as (Qe & Ql & Qi).
  assert (Hfield : ∀ k c, k ∈ clock_in_fields → q !! k = Some c →
            Forall (λ r : doc, cond_holds c (r !! k) = true) records).
  { intros k c Hk Hc. eapply Forall_impl; [exact Hrecords|].
    intros r (d & _ & Hm & Hr). cbv beta.
    rewrite (clock_in_listing_same d r k Hr Hk).
    by apply (matches_lookup q d k c). }
  split.
  { intros s Hs Hne. eapply Forall_impl; [apply (Hfield "email"); [|by apply Qe]|].
    - unfold clock_in_fields. apply list_elem_of_here.
    - intros r. apply cond_holds_eq_str. }
  split.
  { intros s Hs Hne. eapply Forall_impl; [apply (Hfield "location"); [|by apply Ql]|].
    - unfold clock_in_fields. apply elem_of_cons. right. apply list_elem_of_here.
    - intros r. apply cond_holds_eq_str. }
  intros s Hs Hne. destruct (Qi s Hs Hne) as (dt & Hdt & Hl). exists dt.
  split; [exact Hdt|].
  eapply Forall_impl; [apply (Hfield "insert_datetime"); [|exact Hl]|].
  - unfold clock_in_fields. do 2 (apply elem_of_cons; right). apply list_elem_of_here.
  - intros r. apply cond_holds_gt_date.
Qed.

Lemma filter_clock_in_sound_witness :
  ∃ records,
    (filter_clock_in None (Some "office") (Some "2024-10-03T09:00:00") clocked_db).1
    = Ok records ∧
    length records = 1%nat ∧
    Forall (λ r : doc, r !! "location" = Some (VStr "office")) records.
Proof.
  assert (Hc : match (filter_clock_in None (Some "office") (Some "2024-10-03T09:00:00")
                        clocked_db).1 with
               | Ok l => length l = 1%nat
               | Raise _ => False
               end) by (vm_compute; reflexivity).
  destruct (filter_clock_in None (Some "office") (Some "2024-10-03T09:00:00")
              clocked_db).1 as [records|] eqn:H; [|contradiction].
  destruct (filter_clock_in_sound _ _ _ _ _ H) as (_ & Hl & _).
  exists records. split; [reflexivity|]. split; [exact Hc|]. by apply Hl.
Defined.

(** ** Filters that fail *)

Lemma date_step_bad (key format s : string) (q : query) :
  s ≠ "" → ¬ matches_format s format →
  date_step key format (Some s) q = Raise ValueError.
Proof.
  intros Hs Hbad. unfold date_step. cbn [str_bool opt_str strptime_value].
  rewrite bool_decide_eq_false_2 by exact Hs. cbn [negb].
  by rewrite strptime_raises.
Qed.

Lemma date_step_cases (key format : string) (p : option string) (q : query) :
  date_step key format p q = Raise ValueError ∨ ∃ q', date_step key format p q = Ok q'.
Proof.
  unfold date_step. destruct p as [s|]; [|right; eexists; reflexivity].
  destruct (str_bool (Some s)); [|right; eexists; reflexivity].
  cbn [opt_str strptime_value].
  destruct (datetime.strptime s format) as [dt|] eqn:Hdt.
  - right. eexists. reflexivity.
  - left. rewrite strptime_raises in Hdt; [by injection Hdt as <-|].
    intros [d Hd]. congruence.
Qed.

(** X8.  A date parameter of a filter that is not empty and that
    [strptime] refuses for the format of that filter makes the filter raise
    [ValueError], which nothing catches: the request ends in a 500 with
    the database untouched, whatever the other parameters.  The item filter
    wants [%Y-%m-%d]; the clock-in filter wants [%Y-%m-%dT%H:%M:%S], so it
    refuses a date without a time. *)
Theorem filter_with_unparsable_date
    (email location : option string) (other : option string)
    (quantity_gte : option Z) (s : string) (db : database) :
  s ≠ "" →
  (¬ matches_format s "%Y-%m-%d" →
     filter_items email (Some s) other quantity_gte db = (Raise ValueError, db) ∧
     filter_items email other (Some s) quantity_gte db = (Raise ValueError, db)) ∧
  (¬ matches_format s "%Y-%m-%dT%H:%M:%S" →
     filter_clock_in email location (Some s) db = (Raise ValueError, db)) ∧
  status_of (@Raise (list doc) ValueError) = 500.
Proof.
  intros Hs. split; [|split; [|reflexivity]].
  - intros Hbad. split.
    + rewrite filter_items_eq, filter_items_query_steps.
      by rewrite date_step_bad.
    + rewrite filter_items_eq, filter_items_query_steps.
      destruct (date_step_cases "expiry_date" "%Y-%m-%d" other
                  (eq_step "email" email ∅)) as [->|[q' ->]]; [reflexivity|].
      cbn [rbind]. by rewrite date_step_bad.
  - intros Hbad. rewrite filter_clock_in_eq, filter_clock_in_query_steps.
    by rewrite date_step_bad.
Qed.

Lemma filter_with_unparsable_date_witness :
  filter_items None (Some "2025/01/01") None None sample_db = (Raise ValueError, sample_db) ∧
  filter_clock_in None None (Some "2025-01-01") clocked_db = (Raise ValueError, clocked_db).
Proof.
  assert (Hbad : ∀ s format, datetime.strptime s format = Raise ValueError →
                             ¬ matches_format s format).
  { intros s format Hs [d Hd]. congruence. }
  split.
  - destruct (filter_with_unparsable_date None None None None "2025/01/01" sample_db)
      as [H _]; [discriminate|].
    apply H, Hbad. reflexivity.
  - destruct (filter_with_unparsable_date None None None None "2025-01-01" clocked_db)
      as (_ & H & _); [discriminate|].
    apply H, Hbad. reflexivity.
Defined.

(** ** A document without a field *)

Lemma getitem_cases (d : doc) (k : string) :
  (∃ v, d !! k = Some v ∧ getitem (Some d) k = Ok v)
  ∨ (d !! k = None ∧ getitem (Some d) k = Raise (KeyError k)).
Proof. unfold getitem. destruct (d !! k) as [v|]; [left; by exists v|by right]. Qed.

Lemma item_serializer_cases (d : doc) :
  (∃ r, item_serializer (Some d) = Ok r)
  ∨ ∃ k, k ∈ item_keys ∧ d !! k = None ∧ item_serializer (Some d) = Raise (KeyError k).
Proof.
  unfold item_serializer, item_keys.
  destruct (getitem_cases d "_id") as [(? & _ & ->)|[? ->]];
    [|right; eexists; split; [|by split]; set_solver].
  destruct (getitem_cases d "name") as [(? & _ & ->)|[? ->]];
    [|right; eexists; split; [|by split]; set_solver].
  destruct (getitem_cases d "email") as [(? & _ & ->)|[? ->]];
    [|right; eexists; split; [|by split]; set_solver].
  destruct (getitem_cases d "item_name") as [(? & _ & ->)|[? ->]];
    [|right; eexists; split; [|by split]; set_solver].
  destruct (getitem_cases d "quantity") as [(? & _ & ->)|[? ->]];
    [|right; eexists; split; [|by split]; set_solver].
  destruct (getitem_cases d "expiry_date") as [(? & _ & ->)|[? ->]];
    [|right; eexists; split; [|by split]; set_solver].
  destruct (getitem_cases d "insert_date") as [(? & _ & ->)|[? ->]];
    [|right; eexists; split; [|by split]; set_solver].
  left. cbn [rbind]. by eexists.
Qed.

Lemma comprehension_first_failure {A B} (f : A → result B) (xs : list A) (x : A) :
  x ∈ xs → (∀ y, f x ≠ Ok y) →
  ∃ x' e, x' ∈ xs ∧ f x' = Raise e ∧ comprehension f xs = Raise e.
Proof.
  intros Hin Hx. induction xs as [|a xs IH]; [by apply elem_of_nil in Hin|].
  cbn [comprehension]. destruct (f a) as [y|e] eqn:Ha.
  - apply elem_of_cons in Hin as [->|Hin]; [by destruct (Hx y)|].
    destruct (IH Hin) as (x' & e & Hin' & Hfx' & ->).
    exists x', e. split; [by apply elem_of_cons; right|]. by split.
  - exists a, e. split; [apply list_elem_of_here|]. by split.
Qed.

Lemma item_serializer_Ok_complete (d r : doc) :
  item_serializer (Some d) = Ok r → complete item_keys d.
Proof.
  unfold item_serializer, getitem, complete, item_keys.
  destruct (d !! "_id") eqn:H0; [|discriminate].
  destruct (d !! "name") eqn:H1; [|discriminate].
  destruct (d !! "email") eqn:H2; [|discriminate].
  destruct (d !! "item_name") eqn:H3; [|discriminate].
  destruct (d !! "quantity") eqn:H4; [|discriminate].
  destruct (d !! "expiry_date") eqn:H5; [|discriminate].
  destruct (d !! "insert_date") eqn:H6; [|discriminate].
  intros _.
  repeat (apply Forall_cons; split;
          [first [by rewrite H0|by rewrite H1|by rewrite H2|by rewrite H3
                 |by rewrite H4|by rewrite H5|by rewrite H6]|]).
  apply Forall_nil_2.
Qed.

(** X9.  One incomplete document spoils a whole listing: if, among the
    first hundred documents that match the query of the item filter, one
    lacks a field that the serializer reads, the filter returns no list at
    all but raises the [KeyError] of a missing field of a matching
    document, which ends in a 500. *)
Theorem filter_items_with_incomplete_document
    (email expiry_date_after insert_date_after : option string)
    (quantity_gte : option Z) (q : query) (d : doc) (db : database) :
  filter_items_query email expiry_date_after insert_date_after quantity_gte = Ok q →
  query_encodable q = true →
  d ∈ take 100 (List.filter (matches q) (items db)) →
  ¬ complete item_keys d →
  ∃ d' k,
    d' ∈ items db ∧ matches q d' = true ∧ k ∈ item_keys ∧ d' !! k = None ∧
    filter_items email expiry_date_after insert_date_after quantity_gte db
    = (Raise (KeyError k), db) ∧
    status_of (@Raise (list doc) (KeyError k)) = 500.
Proof.
  intros Hq Henc Hd Hinc.
  assert (Hfails : ∀ y, item_serializer (Some d) ≠ Ok y).
  { intros y Hy. by apply Hinc, (item_serializer_Ok_complete d y). }
  destruct (comprehension_first_failure (λ item, item_serializer (Some item)) _ d Hd Hfails)
    as (d' & e & Hin & Hfd' & Hall).
  cbv beta in Hfd'.
  destruct (item_serializer_cases d') as [[r Hr]|(k & Hk & Hnone & Hraise)];
    [congruence|].
  assert (e = KeyError k) by congruence. subst e.
  apply subseteq_take, list_elem_of_In, List.filter_In in Hin as [Hin Hm].
  exists d', k. split; [by apply list_elem_of_In|]. split; [exact Hm|].
  split; [exact Hk|]. split; [exact Hnone|]. split; [|reflexivity].
  rewrite filter_items_eq, Hq. cbn [rbind]. unfold Collection.find.
  rewrite Henc. cbn [rbind]. by rewrite Hall.
Qed.

Lemma filter_items_with_incomplete_document_witness :
  ∃ k, filter_items None None None None
         (mkdb [stored_pen; delete "email" stored_pen] [])
       = (Raise (KeyError k), mkdb [stored_pen; delete "email" stored_pen] []) ∧
       k ∈ item_keys.
Proof.
  destruct (filter_items_with_incomplete_document None None None None ∅
              (delete "email" stored_pen)
              (mkdb [stored_pen; delete "email" stored_pen] []))
    as (d' & k & _ & _ & Hk & _ & Hf & _).
  - reflexivity.
  - reflexivity.
  - cbn. apply elem_of_cons. right. apply list_elem_of_here.
  - unfold complete, item_keys. rewrite !Forall_cons.
    intros (_ & _ & [v Hv] & _). rewrite lookup_delete_eq in Hv. discriminate Hv.
  - exists k. split; [exact Hf|exact Hk].
Defined.

(** ** From a listing to a record *)

Lemma unique_head (o : ObjectId) (c : list doc) (d : doc) :
  unique_ids c → d ∈ c → d !! "_id" = Some (VOid o) →
  head (List.filter (Collection.has_id o) c) = Some d.
Proof.
  intros Hnd Hin Hd. apply list_elem_of_split in Hin as (c1 & c2 & ->).
  apply head_filter_split; [|exact Hd].
  unfold unique_ids in Hnd. rewrite fmap_app in Hnd.
  apply NoDup_app in Hnd as (_ & Hdisj & _).
  apply Forall_forall. intros x Hx Hxid.
  apply (Hdisj (Some (VOid o))).
  - apply list_elem_of_fmap. by exists x.
  - cbn [fmap list_fmap]. rewrite Hd. apply list_elem_of_here.
Qed.

Lemma get_item_present (o : ObjectId) (d r : doc) (db : database) :
  unique_ids (items db) → d ∈ items db → d !! "_id" = Some (VOid o) →
  String.length (bson.binary o) = 12%nat →
  item_serializer (Some d) = Ok r →
  get_item (bson.str o) db = (Ok r, db).
Proof.
  intros Hnd Hin Hd Hlen Hr. unfold get_item, bind, lift.
  destruct (well_formed_str o Hlen) as [-> _].
  rewrite find_one_id. cbn [docs]. rewrite (unique_head o _ d) by assumption.
  rewrite (doc_bool_with_id d (VOid o)) by exact Hd. by rewrite Hr.
Qed.

Lemma get_clock_in_present (o : ObjectId) (d r : doc) (db : database) :
  unique_ids (clock_in_records db) → d ∈ clock_in_records db →
  d !! "_id" = Some (VOid o) → String.length (bson.binary o) = 12%nat →
  clock_in_dict (Some d) = Ok r →
  get_clock_in (bson.str o) db = (Ok r, db).
Proof.
  intros Hnd Hin Hd Hlen Hr. unfold get_clock_in, bind, lift.
  destruct (well_formed_str o Hlen) as [-> _].
  rewrite find_one_id. cbn [docs]. rewrite (unique_head o _ d) by assumption.
  rewrite (doc_bool_with_id d (VOid o)) by exact Hd. by rewrite Hr.
Qed.

(** X10.  What a listing shows can be fetched: in a collection with unique
    driver-generated identifiers, every record that a filter returns has
    an ["id"] string, and a get by that string returns that very record. *)
Theorem listed_records_can_be_fetched (db : database) :
  (unique_ids (items db) → driver_ids (items db) →
   ∀ email expiry_date_after insert_date_after quantity_gte records,
     (filter_items email expiry_date_after insert_date_after quantity_gte db).1
     = Ok records →
     Forall (λ r : doc, ∃ id, r !! "id" = Some (VStr id)
                              ∧ get_item id db = (Ok r, db)) records) ∧
  (unique_ids (clock_in_records db) → driver_ids (clock_in_records db) →
   ∀ email location insert_datetime_after records,
     (filter_clock_in email location insert_datetime_after db).1 = Ok records →
     Forall (λ r : doc, ∃ id, r !! "id" = Some (VStr id)
                              ∧ get_clock_in id db = (Ok r, db)) records).
Proof.
  split.
  - intros Hnd Hids email expiry_date_after insert_date_after quantity_gte records H.
    rewrite filter_items_eq in H. cbn [fst] in H.
    destruct (filter_items_query _ _ _ _) as [q|]; [|discriminate].
    cbn [rbind] in H. apply listing_documents in H.
    eapply Forall_impl; [exact H|]. intros r (d & Hin & _ & Hr). cbv beta.
    unfold driver_ids in Hids. rewrite Forall_forall in Hids.
    destruct (Hids d Hin) as (o & Hd & Hlen).
    destruct (item_serializer_lookup d r Hr) as [(v & Hv & Hrid) _].
    assert (v = VOid o) by congruence. subst v.
    exists (bson.str o). split; [exact Hrid|]. by apply (get_item_present o d).
  - intros Hnd Hids email location insert_datetime_after records H.
    rewrite filter_clock_in_eq in H. cbn [fst] in H.
    destruct (filter_clock_in_query _ _ _) as [q|]; [|discriminate].
    cbn [rbind] in H. apply listing_documents in H.
    eapply Forall_impl; [exact H|]. intros r (d & Hin & _ & Hr). cbv beta.
    unfold driver_ids in Hids. rewrite Forall_forall in Hids.
    destruct (Hids d Hin) as (o & Hd & Hlen).
    destruct (clock_in_dict_lookup d r Hr) as [(v & Hv & Hrid) _].
    assert (v = VOid o) by congruence. subst v.
    exists (bson.str o). split; [exact Hrid|]. by apply (get_clock_in_present o d).
Qed.

Lemma listed_records_can_be_fetched_witness :
  ∃ records,
    (filter_items None None None None sample_db).1 = Ok records ∧
    length records = 1%nat ∧
    Forall (λ r : doc, ∃ id, r !! "id" = Some (VStr id)
                             ∧ get_item id sample_db = (Ok r, sample_db)) records.
Proof.
  assert (Hc : match (filter_items None None None None sample_db).1 with
               | Ok l => length l = 1%nat
               | Raise _ => False
               end) by (vm_compute; reflexivity).
  destruct (filter_items None None None None sample_db).1 as [records|] eqn:H;
    [|contradiction].
  exists records. split; [reflexivity|]. split; [exact Hc|].
  destruct (listed_records_can_be_fetched sample_db) as [Hitems _].
  apply (Hitems (NoDup_singleton _)) with (email := None) (expiry_date_after := None)
    (insert_date_after := None) (quantity_gte := None); [|exact H].
  repeat constructor. exists oid_a. split; reflexivity.
Defined.

(** ** Create, then delete *)

(** X11.  Deleting what was just created undoes the creation: after a
    successful create (valid input, fresh identifier), a delete by the
    returned id returns the confirmation and leaves the database exactly as
    it was before the create, for items and for clock-in records. *)
Theorem create_then_delete (utcnow : datetime.t) (new_id : ObjectId) (db : database) :
  String.length (bson.binary new_id) = 12%nat →
  (∀ item dt,
     datetime.strptime (Item.expiry_date item) "%Y-%m-%d" = Ok dt →
     - 2 ^ 63 ≤ Item.quantity item < 2 ^ 63 →
     absent new_id (items db) →
     delete_item (bson.str new_id) (create_item utcnow new_id item db).2
     = (Ok item_deleted, db)) ∧
  (∀ clock_in,
     absent new_id (clock_in_records db) →
     delete_clock_in (bson.str new_id) (create_clock_in utcnow new_id clock_in db).2
     = (Ok clock_in_deleted, db)).
Proof.
  intros Hlen. destruct (well_formed_str new_id Hlen) as [Hid _]. split.
  - intros item dt Hdt Hq Habs.
    rewrite (create_item_ok utcnow new_id item dt db) by assumption. cbn [snd].
    unfold delete_item, bind, lift. rewrite Hid.
    unfold db.delete_one, Collection.delete_one. cbn [docs items].
    rewrite id_query_encodable. cbn [negb].
    rewrite remove_first_split;
      [|exact Habs|by apply stored_item_lookup, (strptime_microsecond _ _ _ Hdt)].
    cbn [with_docs Z.eqb negb clock_in_records]. rewrite app_nil_r. by destruct db.
  - intros clock_in Habs. rewrite create_clock_in_ok by exact Habs.
    cbn [snd]. unfold delete_clock_in, bind, lift. rewrite Hid.
    unfold db.delete_one, Collection.delete_one. cbn [docs clock_in_records].
    rewrite id_query_encodable. cbn [negb].
    rewrite remove_first_split;
      [|exact Habs|by unfold stored_clock_in; rewrite lookup_fmap].
    cbn [with_docs Z.eqb negb items]. rewrite app_nil_r. by destruct db.
Qed.

Lemma create_then_delete_witness :
  delete_item id_b (create_item now oid_b pen sample_db).2 = (Ok item_deleted, sample_db).
Proof.
  destruct (create_then_delete now oid_b sample_db) as [H _]; [reflexivity|].
  apply (H pen (datetime.mk 2025 1 1 0 0 0 0)).
  - reflexivity.
  - cbn. lia.
  - repeat constructor. vm_compute. discriminate.
Defined.

(** ** The counts of the aggregate add up *)

Lemma total_bump (k : value) (acc : list (value * Z)) :
  total (Collection.bump k acc) = total acc + 1.
Proof.
  unfold total. induction acc as [|[k' n] acc IH]; cbn; [lia|].
  destruct (decide (k = k')); cbn in *; lia.
Qed.

Lemma total_counters_fold (field : string) (c : list doc) (acc : list (value * Z)) :
  total (foldl (λ acc d, Collection.bump (Collection.group_key field d) acc) acc c)
  = total acc + Z.of_nat (length c).
Proof.
  revert acc. induction c as [|d c IH]; intros acc; cbn [foldl length]; [lia|].
  rewrite IH, total_bump. lia.
Qed.

Lemma counted_group_docs (groups : list (value * Z)) :
  counted (Collection.group_doc <$> groups) = total groups.
Proof.
  unfold counted, total. induction groups as [|[k n] groups IH]; [reflexivity|].
  rewrite !fmap_cons. cbn [foldr snd]. rewrite IH.
  unfold count_of. by rewrite (proj2 (group_doc_lookup k n)).
Qed.

(** X12.  The aggregate counts every item exactly once: whatever the
    collection holds (also documents without an e-mail address, which are
    grouped under null), every document it returns has an ["_id"] and an
    integer ["count"] that is positive, no two have the same ["_id"], and
    the counts add up to the number of items. *)
Theorem aggregate_counts_add_up (db : database) :
  ∃ result : list doc,
    aggregate_items db = (Ok result, db) ∧
    NoDup ((λ g : doc, g !! "_id") <$> result) ∧
    Forall (λ g : doc, is_Some (g !! "_id")
                       ∧ ∃ n, g !! "count" = Some (VInt n) ∧ 0 < n) result ∧
    counted result = Z.of_nat (length (items db)).
Proof.
  exists (Collection.group_doc <$> Collection.counters "email" (items db)).
  split; [reflexivity|].
  destruct (counters_fold "email" (items db) []) as (Hnd & Hpos & _);
    [apply NoDup_nil_2|constructor|].
  fold (Collection.counters "email" (items db)) in Hnd, Hpos.
  split.
  { rewrite group_doc_ids. apply NoDup_fmap_2; [|exact Hnd]. by intros ?? [= ->]. }
  split.
  { apply Forall_fmap. eapply Forall_impl; [exact Hpos|].
    intros [k n] Hn. cbn [snd] in Hn. destruct (group_doc_lookup k n) as [Hk Hc].
    cbv beta. split; [by rewrite Hk|]. exists n. by split. }
  rewrite counted_group_docs. unfold Collection.counters.
  by rewrite total_counters_fold.
Qed.

(** ** The collections keep their shape *)

Lemma remove_first_sublist (p : doc → bool) (c l : list doc) :
  Collection.remove_first p c = Some l → l `sublist_of` c.
Proof.
  revert l. induction c as [|d c IH]; intros l Hl; [discriminate|].
  cbn in Hl. destruct (p d).
  - injection Hl as <-. by apply sublist_cons.
  - destruct (Collection.remove_first p c) as [l'|]; [|discriminate].
    injection Hl as <-. apply sublist_skip. by apply IH.
Qed.

Lemma sublist_keeps (keys : list string) (c l : list doc) :
  l `sublist_of` c →
  unique_ids c ∧ Forall (complete keys) c → unique_ids l ∧ Forall (complete keys) l.
Proof.
  intros Hsub [Hnd Hc]. split.
  - unfold unique_ids in *.
    apply (sublist_NoDup _ ((λ d : doc, d !! "_id") <$> c));
      [exact Hnd|apply fmap_sublist; exact Hsub].
  - apply Forall_forall. intros d Hd. rewrite Forall_forall in Hc.
    by apply Hc, (sublist_subseteq l c Hsub).
Qed.

Lemma create_clock_in_keeps_store (utcnow : datetime.t) (new_id : ObjectId)
    (clock_in : ClockInRecord.t) (db : database) :
  clock_in_store (clock_in_records db) →
  clock_in_store (clock_in_records (create_clock_in utcnow new_id clock_in db).2).
Proof.
  intros [Hnd Hc].
  destruct (create_clock_in_database utcnow new_id clock_in db) as [->|[Habs ->]];
    [by split|].
  cbn [clock_in_records]. split.
  - unfold unique_ids. rewrite fmap_app. apply NoDup_app. split; [exact Hnd|]. split.
    + intros x Hx Hx'. apply list_elem_of_singleton in Hx'. subst x.
      apply list_elem_of_fmap in Hx as (d & Hd & Hin).
      unfold absent in Habs. rewrite Forall_forall in Habs. apply (Habs d Hin).
      rewrite <- Hd. unfold stored_clock_in. by rewrite lookup_fmap.
    + apply NoDup_singleton.
  - apply Forall_app. split; [exact Hc|]. constructor; [|constructor].
    unfold complete, clock_in_keys, stored_clock_in.
    repeat (apply Forall_cons; split; [rewrite lookup_fmap; by eexists|]).
    constructor.
Qed.

Lemma delete_clock_in_keeps_store (id : string) (db : database) :
  clock_in_store (clock_in_records db) →
  clock_in_store (clock_in_records (delete_clock_in id db).2).
Proof.
  intros Hstore. unfold delete_clock_in, bind, lift.
  destruct (bson.ObjectId_of id) as [o|]; [|exact Hstore].
  unfold db.delete_one, Collection.delete_one. cbn [docs].
  destruct (negb _); [exact Hstore|].
  destruct (Collection.remove_first _ _) as [l|] eqn:Hl.
  - cbn. eapply sublist_keeps; [|exact Hstore]. by eapply remove_first_sublist.
  - cbn. by destruct db.
Qed.

Lemma update_clock_in_keeps_store rej (id : string) (u : UpdateClockInRecord.t)
    (db : database) :
  clock_in_store (clock_in_records db) →
  clock_in_store (clock_in_records (update_clock_in rej id u db).2).
Proof.
  intros [Hnd Hc]. split.
  - unfold unique_ids. rewrite (keeps_ids (clock_in_records db)); [exact Hnd|].
    destruct (update_clock_in_frame rej id u db) as [_ Hframe].
    eapply only_changes_keeps; [|exact Hframe].
    apply not_provided_None. by left.
  - destruct (update_clock_in_database rej id u db) as [->|(o & n & l & Hupd & ->)];
      [exact Hc|].
    cbn [clock_in_records]. unfold Collection.update_one in Hupd.
    destruct (negb _); [discriminate|]. destruct (_ && _); [discriminate|].
    destruct (Collection.update_first _ _ _) as [l'|] eqn:Hl'.
    + assert (l = l') by congruence. subst l'.
      by eapply update_first_keeps_complete.
    + assert (l = clock_in_records db) by congruence. by subst l.
Qed.

(** X13.  The shape of the store is an invariant of the service: starting
    from collections whose identifiers are unique and whose documents have
    all the fields that the serializers read (as the empty collections),
    every create, update and delete, with any request and any outcome,
    leaves collections of that shape. *)
Theorem handlers_keep_the_store rej (db : database) :
  item_store (items db) → clock_in_store (clock_in_records db) →
  (∀ utcnow new_id item,
     let db' := (create_item utcnow new_id item db).2 in
     item_store (items db') ∧ clock_in_store (clock_in_records db')) ∧
  (∀ id u,
     let db' := (update_item rej id u db).2 in
     item_store (items db') ∧ clock_in_store (clock_in_records db')) ∧
  (∀ id,
     let db' := (delete_item id db).2 in
     item_store (items db') ∧ clock_in_store (clock_in_records db')) ∧
  (∀ utcnow new_id clock_in,
     let db' := (create_clock_in utcnow new_id clock_in db).2 in
     item_store (items db') ∧ clock_in_store (clock_in_records db')) ∧
  (∀ id u,
     let db' := (update_clock_in rej id u db).2 in
     item_store (items db') ∧ clock_in_store (clock_in_records db')) ∧
  (∀ id,
     let db' := (delete_clock_in id db).2 in
     item_store (items db') ∧ clock_in_store (clock_in_records db')).
Proof.
  intros Hitems Hclock.
  split; [intros utcnow new_id item db'; subst db'; split;
          [by apply create_item_keeps_store|by rewrite create_item_other]|].
  split; [intros id u db'; subst db'; split;
          [by apply update_item_keeps_store
          |by rewrite (proj1 (update_item_frame rej id u db))]|].
  split; [intros id db'; subst db'; split;
          [by apply delete_item_keeps_store|by rewrite delete_item_other]|].
  split; [intros utcnow new_id clock_in db'; subst db'; split;
          [by rewrite create_clock_in_other|by apply create_clock_in_keeps_store]|].
  split; [intros id u db'; subst db'; split;
          [by rewrite (proj1 (update_clock_in_frame rej id u db))
          |by apply update_clock_in_keeps_store]|].
  intros id db'. subst db'. split;
    [by rewrite delete_clock_in_other|by apply delete_clock_in_keeps_store].
Qed.

Lemma handlers_keep_the_store_witness :
  item_store (items sample_db) ∧ clock_in_store (clock_in_records sample_db).
Proof.
  destruct (handlers_keep_the_store true empty_db) as [H _].
  - apply empty_item_store.
  - split; [apply NoDup_nil_2|constructor].
  - exact (H now oid_a pen).
Defined.

(** ** The same update, twice *)

Lemma update_item_eq rej (id : string) (u : UpdateItem.t) (db : database) :
  update_item rej id u db
  = match update_item_data u with
    | Raise e => (Raise e, db)
    | Ok fields =>
        match bson.ObjectId_of id with
        | Raise e => (Raise e, db)
        | Ok o =>
            match Collection.update_one rej {[ "_id" := CEq (VOid o) ]} fields (items db) with
            | Raise e => (Raise e, db)
            | Ok (n, l) =>
                (if negb (n =? 0)
                 then item_serializer (head (List.filter (Collection.has_id o) l))
                 else Raise item_not_found,
                 mkdb l (clock_in_records db))
            end
        end
    end.
Proof.
  unfold update_item, bind, lift.
  destruct (update_item_data u) as [fields|]; [|reflexivity].
  destruct (bson.ObjectId_of id) as [o|]; [|reflexivity].
  unfold db.update_one. cbn [docs].
  destruct (Collection.update_one _ _ _ _) as [[n l]|]; [|reflexivity].
  cbn [with_docs]. destruct (negb (n =? 0)); [|reflexivity].
  cbv beta. by rewrite find_one_id.
Qed.

Lemma update_clock_in_eq rej (id : string) (u : UpdateClockInRecord.t) (db : database) :
  update_clock_in rej id u db
  = match bson.ObjectId_of id with
    | Raise e => (Raise e, db)
    | Ok o =>
        match Collection.update_one rej {[ "_id" := CEq (VOid o) ]}
                (update_clock_in_data u) (clock_in_records db) with
        | Raise e => (Raise e, db)
        | Ok (n, l) =>
            (if negb (n =? 0)
             then clock_in_dict (head (List.filter (Collection.has_id o) l))
             else Raise clock_in_not_found,
             mkdb (items db) l)
        end
    end.
Proof.
  unfold update_clock_in, bind, lift.
  destruct (bson.ObjectId_of id) as [o|]; [|reflexivity].
  unfold db.update_one. cbn [docs].
  destruct (Collection.update_one _ _ _ _) as [[n l]|]; [|reflexivity].
  cbn [with_docs]. destruct (negb (n =? 0)); [|reflexivity].
  cbv beta. by rewrite find_one_id.
Qed.

Lemma set_fields_idemp (fields d : doc) :
  set_fields fields (set_fields fields d) = set_fields fields d.
Proof.
  apply map_eq. intros k. rewrite !set_fields_lookup.
  by destruct (fields !! k).
Qed.

Lemma update_first_again (p : doc → bool) (f : doc → doc) (c l : list doc) :
  (∀ d, p d = true → p (f d) = true) → (∀ d, f (f d) = f d) →
  Collection.update_first p f c = Some l → Collection.update_first p f l = Some l.
Proof.
  intros Hp Hf. revert l. induction c as [|d c IH]; intros l Hl; [discriminate|].
  cbn in Hl. destruct (p d) eqn:Hd.
  - injection Hl as <-. cbn. by rewrite (Hp d Hd), Hf.
  - destruct (Collection.update_first p f c) as [l'|]; [|discriminate].
    injection Hl as <-. cbn. by rewrite Hd, (IH l' eq_refl).
Qed.

Lemma update_one_again rej (o : ObjectId) (fields : doc) (c l : list doc) (n : Z) :
  fields !! "_id" = None →
  Collection.update_one rej {[ "_id" := CEq (VOid o) ]} fields c = Ok (n, l) →
  Collection.update_one rej {[ "_id" := CEq (VOid o) ]} fields l = Ok (n, l).
Proof.
  intros Hnoid. unfold Collection.update_one.
  destruct (negb _); [discriminate|]. destruct (_ && _); [discriminate|].
  fold (set_fields fields).
  destruct (Collection.update_first _ _ c) as [l'|] eqn:Hc; intros H.
  - assert (n = 1 ∧ l = l') as [-> <-] by (split; congruence).
    rewrite (update_first_again _ _ c l); [reflexivity| | |exact Hc].
    + intros d. rewrite !matches_id. unfold Collection.has_id.
      by rewrite set_fields_lookup, Hnoid.
    + intros d. apply set_fields_idemp.
  - assert (n = 0 ∧ l = c) as [-> ->] by (split; congruence).
    by rewrite Hc.
Qed.

(** X14.  An update is idempotent: sending the same update request again
    right after the first one gives the same outcome (the same record or
    the same exception) and leaves the database as the first one left
    it. *)
Theorem update_twice rej (id : string) (db : database) :
  (∀ u, update_item rej id u (update_item rej id u db).2 = update_item rej id u db) ∧
  (∀ u, update_clock_in rej id u (update_clock_in rej id u db).2
        = update_clock_in rej id u db).
Proof.
  split.
  - intros u. rewrite (update_item_eq rej id u db).
    destruct (update_item_data u) as [fields|] eqn:Hu;
      [|by rewrite update_item_eq, Hu].
    destruct (bson.ObjectId_of id) as [o|] eqn:Hid;
      [|by rewrite update_item_eq, Hu, Hid].
    destruct (Collection.update_one _ _ _ _) as [[n l]|] eqn:Hupd;
      [|by cbn [snd]; rewrite update_item_eq, Hu, Hid, Hupd].
    cbn [snd]. rewrite update_item_eq, Hu, Hid. cbn [items clock_in_records].
    rewrite (update_one_again rej o fields (items db) l n); [reflexivity| |exact Hupd].
    by destruct (update_item_data_fields u fields Hu) as (_ & _ & _ & _ & _ & _ & ?).
  - intros u. rewrite (update_clock_in_eq rej id u db).
    destruct (bson.ObjectId_of id) as [o|] eqn:Hid;
      [|by rewrite update_clock_in_eq, Hid].
    destruct (Collection.update_one _ _ _ _) as [[n l]|] eqn:Hupd;
      [|by cbn [snd]; rewrite update_clock_in_eq, Hid, Hupd].
    cbn [snd]. rewrite update_clock_in_eq, Hid. cbn [items clock_in_records].
    rewrite (update_one_again rej o _ (clock_in_records db) l n);
      [reflexivity| |exact Hupd].
    by destruct (update_clock_in_data_fields u) as (_ & _ & _ & ?).
Qed.
